(** * Clawbot: the session / permission controller of [claude.py]

    A shallow embedding of the [CLAUDE] class of [claude.py] (session
    registry, output aggregation, permission broker and message router)
    and the properties of it that the design document states.

    Modelling conventions.
    - A Python [str] is held as the [string] of the bytes of its UTF-8
      encoding.  [len], slicing, [str.isdigit] and [int] go by code
      points, as in Python, and so does the literal text the program
      builds and searches for.  White space ([str.strip], [\s]), word
      characters ([\w]) and [str.upper] are taken on the 7-bit range;
      properties that depend on them say so.
    - Calls to [logger] are not among the effects: the log is no part of
      what the program does to its sessions, its operators or its
      files.
    - Python dictionaries whose iteration order is observed
      ([self.sessions], [self.permission_requests]) are insertion-ordered
      association lists; the others are [gmap]s.
    - A handler is a function from the object state to an outcome (normal
      return or exception), the new state and the list of effects it had
      on the outside world, in program order.  It stands for a run of the
      handler during which no other handler runs.  Where a handler still
      has work to do on the object after it has waited for the network
      ([flush_output]), the parts before and after the wait are given as
      well.
    - [uuid.uuid4()], [time.time()], [datetime.now()], the result of
      [pexpect.spawn] and the liveness of a child process are inputs. *)

From stdpp Require Import base numbers list strings gmap pretty.
From Stdlib Require Import Ascii String ZArith Lia.

Local Open Scope string_scope.
Local Open Scope Z_scope.
Local Open Scope list_scope.

(* ===================================================================== *)
(** ** Python text operations                                             *)
(* ===================================================================== *)

Module PyStr.

Definition nl : string := String "010"%char EmptyString.

(** The one-character text of a double quote. *)
Definition dquote : string := String "034"%char EmptyString.

(** [c in '0'..'9'] *)
Definition is_digit_char (c : ascii) : bool :=
  let n := nat_of_ascii c in (48 <=? n)%nat && (n <=? 57)%nat.

Fixpoint all_chars (f : ascii -> bool) (s : string) : bool :=
  match s with
  | EmptyString => true
  | String c s' => f c && all_chars f s'
  end.

(** A byte of the 7-bit range; a text of such bytes. *)
Definition is_ascii (c : ascii) : bool := (nat_of_ascii c <? 128)%nat.

Definition plain (s : string) : bool := all_chars is_ascii s.

(** A continuation byte of UTF-8. *)
Definition is_cont (c : ascii) : bool :=
  let n := nat_of_ascii c in (128 <=? n)%nat && (n <=? 191)%nat.

(** The six low bits of a continuation byte. *)
Definition low6 (c : ascii) : N := (N_of_ascii c - 128)%N.

(** The code points of a text.  A byte that neither begins nor continues
    a well-formed sequence is given a number of its own above the range
    of Unicode; the texts Python holds have no such byte. *)
Fixpoint decode (s : string) : list N :=
  match s with
  | EmptyString => []
  | String b0 s0 =>
      let n0 := N_of_ascii b0 in
      if (n0 <? 128)%N then n0 :: decode s0
      else if (n0 <? 194)%N then (1114112 + n0)%N :: decode s0
      else if (n0 <? 224)%N then
        match s0 with
        | String b1 s1 =>
            if is_cont b1 then ((n0 - 192) * 64 + low6 b1)%N :: decode s1
            else (1114112 + n0)%N :: decode s0
        | EmptyString => (1114112 + n0)%N :: decode s0
        end
      else if (n0 <? 240)%N then
        match s0 with
        | String b1 (String b2 s2) =>
            let cp := ((n0 - 224) * 4096 + low6 b1 * 64 + low6 b2)%N in
            if is_cont b1 && is_cont b2 && (2048 <=? cp)%N
            then cp :: decode s2
            else (1114112 + n0)%N :: decode s0
        | _ => (1114112 + n0)%N :: decode s0
        end
      else if (n0 <? 245)%N then
        match s0 with
        | String b1 (String b2 (String b3 s3)) =>
            let cp := ((n0 - 240) * 262144 + low6 b1 * 4096
                       + low6 b2 * 64 + low6 b3)%N in
            if is_cont b1 && is_cont b2 && is_cont b3
               && (65536 <=? cp)%N && (cp <? 1114112)%N
            then cp :: decode s3
            else (1114112 + n0)%N :: decode s0
        | _ => (1114112 + n0)%N :: decode s0
        end
      else (1114112 + n0)%N :: decode s0
  end.

(** The code points with [Numeric_Type=Decimal] (Unicode 14): runs of
    ten, or of a multiple of ten, that count from zero. *)
Definition decimal_ranges : list (N * N) :=
  [(48, 57); (1632, 1641); (1776, 1785); (1984, 1993); (2406, 2415);
   (2534, 2543); (2662, 2671); (2790, 2799); (2918, 2927); (3046, 3055);
   (3174, 3183); (3302, 3311); (3430, 3439); (3558, 3567); (3664, 3673);
   (3792, 3801); (3872, 3881); (4160, 4169); (4240, 4249); (6112, 6121);
   (6160, 6169); (6470, 6479); (6608, 6617); (6784, 6793); (6800, 6809);
   (6992, 7001); (7088, 7097); (7232, 7241); (7248, 7257); (42528, 42537);
   (43216, 43225); (43264, 43273); (43472, 43481); (43504, 43513);
   (43600, 43609); (44016, 44025); (65296, 65305); (66720, 66729);
   (68912, 68921); (69734, 69743); (69872, 69881); (69942, 69951);
   (70096, 70105); (70384, 70393); (70736, 70745); (70864, 70873);
   (71248, 71257); (71360, 71369); (71472, 71481); (71904, 71913);
   (72016, 72025); (72784, 72793); (73040, 73049); (73120, 73129);
   (92768, 92777); (92864, 92873); (93008, 93017); (120782, 120831);
   (123200, 123209); (123632, 123641); (125264, 125273); (130032, 130041)]%N.

(** The code points with [Numeric_Type=Digit] that are no decimals:
    superscripts, subscripts, circled digits and the like. *)
Definition digit_ranges : list (N * N) :=
  [(178, 179); (185, 185); (4969, 4977); (6618, 6618); (8304, 8304);
   (8308, 8313); (8320, 8329); (9312, 9320); (9332, 9340); (9352, 9360);
   (9450, 9450); (9461, 9469); (9471, 9471); (10102, 10110);
   (10112, 10120); (10122, 10130); (68160, 68163); (69216, 69224);
   (69714, 69722); (127232, 127242)]%N.

Definition in_ranges (rs : list (N * N)) (cp : N) : bool :=
  existsb (fun r => (r.1 <=? cp)%N && (cp <=? r.2)%N) rs.

(** The value of a decimal digit. *)
Definition decimal_value (cp : N) : option Z :=
  match List.find (fun r => (r.1 <=? cp)%N && (cp <=? r.2)%N) decimal_ranges with
  | Some r => Some (Z.of_N ((cp - r.1) mod 10))
  | None => None
  end.

Definition is_digit_point (cp : N) : bool :=
  in_ranges decimal_ranges cp || in_ranges digit_ranges cp.

(** [s.isdigit()]: non-empty and every character a digit. *)
Definition isdigit (s : string) : bool :=
  match decode s with
  | [] => false
  | cps => forallb is_digit_point cps
  end.

Fixpoint int_acc (acc : Z) (cps : list N) : option Z :=
  match cps with
  | [] => Some acc
  | cp :: cps' =>
      match decimal_value cp with
      | Some d => int_acc (10 * acc + d) cps'
      | None => None
      end
  end.

(** [int(s)] for a string [s] with [s.isdigit()]: the number the decimal
    digits write, and nothing ([ValueError]) when one of the digits is
    no decimal.  (A message holds at most 4096 characters, fewer than
    the 4300 digits [int] is willing to read.) *)
Definition int (s : string) : option Z :=
  match decode s with
  | [] => None
  | cps => int_acc 0 cps
  end.

(** [str(n)] for an integer. *)
Definition str (n : Z) : string := pretty n.

(** [s.startswith(p)], returning what follows the prefix. *)
Fixpoint strip_prefix (p s : string) : option string :=
  match p, s with
  | EmptyString, _ => Some s
  | String a p', String b s' =>
      if Ascii.eqb a b then strip_prefix p' s' else None
  | String _ _, EmptyString => None
  end.

(** [p in s] *)
Fixpoint contains (p s : string) : bool :=
  match strip_prefix p s with
  | Some _ => true
  | None => match s with
            | EmptyString => false
            | String _ s' => contains p s'
            end
  end.

(** The longest prefix of [s] whose characters satisfy [cls], and the
    rest. *)
Fixpoint span (cls : ascii -> bool) (s : string) : string * string :=
  match s with
  | EmptyString => (EmptyString, EmptyString)
  | String c s' =>
      if cls c then let '(a, b) := span cls s' in (String c a, b)
      else (EmptyString, s)
  end.

(** ['\n'.join(chunks)] *)
Fixpoint join (sep : string) (l : list string) : string :=
  match l with
  | [] => EmptyString
  | [x] => x
  | x :: rest => x +:+ sep +:+ join sep rest
  end.

(** The first [n] characters: the bytes up to the one that begins
    character [n+1]. *)
Fixpoint take (n : nat) (s : string) : string :=
  match s with
  | EmptyString => EmptyString
  | String c s' =>
      if is_cont c then String c (take n s')
      else match n with
           | O => EmptyString
           | S n' => String c (take n' s')
           end
  end.

(** The number of characters: of bytes that begin one. *)
Fixpoint points (s : string) : nat :=
  match s with
  | EmptyString => O
  | String c s' => if is_cont c then points s' else S (points s')
  end.

(** [len(s)] *)
Definition len (s : string) : Z := Z.of_nat (points s).

(** [len(s.encode('utf-8'))] *)
Definition utf8_len (s : string) : Z := Z.of_nat (String.length s).

(** [s[:k]], with Python's reading of a negative [k] (counted from the
    end) and of a [k] past the end. *)
Definition slice_to (k : Z) (s : string) : string :=
  if k <? 0 then take (Z.to_nat (len s + k)) s
  else take (Z.to_nat k) s.

(** White space of the 7-bit range, as [str.strip] and [\s] see it
    there. *)
Definition is_space_char (c : ascii) : bool :=
  let n := nat_of_ascii c in
  ((9 <=? n)%nat && (n <=? 13)%nat) || ((28 <=? n)%nat && (n <=? 32)%nat).

(** [\w] on the 7-bit range: letters, digits and the underscore. *)
Definition is_word_char (c : ascii) : bool :=
  let n := nat_of_ascii c in
  ((48 <=? n)%nat && (n <=? 57)%nat) || ((65 <=? n)%nat && (n <=? 90)%nat)
  || ((97 <=? n)%nat && (n <=? 122)%nat) || (n =? 95)%nat.

Fixpoint lstrip (s : string) : string :=
  match s with
  | String c s' => if is_space_char c then lstrip s' else s
  | EmptyString => EmptyString
  end.

Fixpoint rstrip (s : string) : string :=
  match s with
  | EmptyString => EmptyString
  | String c s' =>
      match rstrip s' with
      | EmptyString => if is_space_char c then EmptyString else String c EmptyString
      | r => String c r
      end
  end.

Definition strip (s : string) : string := rstrip (lstrip s).

(** [s.split(sep, maxsplit)] for a one-character separator. *)
Fixpoint split_char (sep : ascii) (maxsplit : nat) (s : string) : list string :=
  match s with
  | EmptyString => [EmptyString]
  | String c s' =>
      match maxsplit with
      | O => [s]
      | S m =>
          if Ascii.eqb c sep then EmptyString :: split_char sep m s'
          else match split_char sep maxsplit s' with
               | w :: ws => String c w :: ws
               | [] => [String c EmptyString]
               end
      end
  end.

(** [s.split('\n')]: no bound on the number of pieces. *)
Definition split_lines (s : string) : list string :=
  split_char "010"%char (S (String.length s)) s.

Definition upper_char (c : ascii) : ascii :=
  let n := nat_of_ascii c in
  if (97 <=? n)%nat && (n <=? 122)%nat then ascii_of_nat (n - 32) else c.

Fixpoint upper (s : string) : string :=
  match s with
  | EmptyString => EmptyString
  | String c s' => String (upper_char c) (upper s')
  end.

Fixpoint repeat_char (c : ascii) (n : nat) : string :=
  match n with
  | O => EmptyString
  | S n' => String c (repeat_char c n')
  end.

End PyStr.

(* ===================================================================== *)
(** ** The regular expressions of the program                             *)
(* ===================================================================== *)

(** Every pattern handed to [re.search] in [claude.py] has the shape
    [literal (class+) literal]: a fixed text, one group of one or more
    characters of a class, and a fixed text (possibly empty).  In each of
    them the closing text is empty or begins with a character outside the
    class, so the greedy group is the longest run of class characters and
    no backtracking can change the match. *)
Module Re.
Import PyStr.

Record pattern := Pattern {
  pat_open : string;
  pat_class : ascii -> bool;
  pat_close : string
}.

(** A match anchored at the start of [s]: [(group 0, group 1)]. *)
Definition match_here (p : pattern) (s : string) : option (string * string) :=
  match strip_prefix (pat_open p) s with
  | None => None
  | Some r =>
      let '(g, r') := span (pat_class p) r in
      match g with
      | EmptyString => None
      | _ => match strip_prefix (pat_close p) r' with
             | Some _ => Some (pat_open p +:+ g +:+ pat_close p, g)
             | None => None
             end
      end
  end.

(** [re.search(p, s)]: the leftmost match. *)
Fixpoint search (p : pattern) (s : string) : option (string * string) :=
  match match_here p s with
  | Some m => Some m
  | None => match s with
            | EmptyString => None
            | String _ s' => search p s'
            end
  end.

Definition not_char (x : ascii) (c : ascii) : bool := negb (Ascii.eqb c x).

Definition word_or_space (c : ascii) : bool := is_word_char c || is_space_char c.

(** [r'\[SID:([^\]]+)\]'] *)
Definition sid_token : pattern := Pattern "[SID:" (not_char "]"%char) "]".
(** [r'\[RID:([^\]]+)\]'] *)
Definition rid_token : pattern := Pattern "[RID:" (not_char "]"%char) "]".

(** The ordered table of [_check_for_permission_prompt]. *)
Definition prompt_patterns : list pattern :=
  [ Pattern "Allow access to " word_or_space "?";
    Pattern "Permission required: " word_or_space EmptyString;
    Pattern ("Read file " +:+ dquote) (not_char "034"%char) dquote;
    Pattern ("Write to file " +:+ dquote) (not_char "034"%char) dquote;
    Pattern "Execute command " word_or_space EmptyString;
    Pattern "Access to " word_or_space EmptyString ].

End Re.

(* ===================================================================== *)
(** ** Insertion-ordered dictionaries                                     *)
(* ===================================================================== *)

(** A Python [dict] iterated in insertion order: assigning to a key that
    is present keeps its position, assigning to a new key appends, [del]
    removes. *)
Module Dict.

Section Ops.
Context {V : Type}.

Fixpoint get (k : string) (d : list (string * V)) : option V :=
  match d with
  | [] => None
  | (k', v) :: d' => if String.eqb k k' then Some v else get k d'
  end.

Definition mem (k : string) (d : list (string * V)) : bool :=
  match get k d with Some _ => true | None => false end.

Fixpoint set (k : string) (v : V) (d : list (string * V)) : list (string * V) :=
  match d with
  | [] => [(k, v)]
  | (k', v') :: d' =>
      if String.eqb k k' then (k, v) :: d' else (k', v') :: set k v d'
  end.

Fixpoint del (k : string) (d : list (string * V)) : list (string * V) :=
  match d with
  | [] => []
  | (k', v') :: d' => if String.eqb k k' then d' else (k', v') :: del k d'
  end.

Definition keys (d : list (string * V)) : list string := map fst d.

End Ops.

End Dict.

(* ===================================================================== *)
(** ** Data model                                                         *)
(* ===================================================================== *)

(** The values the program stores in [Session.state] or tests it
    against. *)
Inductive SessionState :=
  | CREATED | STARTING | RUNNING | WAITING_PERMISSION
  | COMPLETED | FAILED | CANCELLED.

Definition state_eqb (a b : SessionState) : bool :=
  match a, b with
  | CREATED, CREATED | STARTING, STARTING | RUNNING, RUNNING
  | WAITING_PERMISSION, WAITING_PERMISSION
  | COMPLETED, COMPLETED | FAILED, FAILED | CANCELLED, CANCELLED => true
  | _, _ => false
  end.

(** The text of a state, as an f-string prints it. *)
Definition state_name (s : SessionState) : string :=
  match s with
  | CREATED => "CREATED" | STARTING => "STARTING" | RUNNING => "RUNNING"
  | WAITING_PERMISSION => "WAITING_PERMISSION"
  | COMPLETED => "COMPLETED" | FAILED => "FAILED" | CANCELLED => "CANCELLED"
  end.

(** [state in ["RUNNING", "WAITING_PERMISSION"]] *)
Definition is_active (s : SessionState) : bool :=
  match s with RUNNING | WAITING_PERMISSION => true | _ => false end.

(** [state in ["FAILED", "COMPLETED", "CANCELLED"]] *)
Definition is_terminal (s : SessionState) : bool :=
  match s with FAILED | COMPLETED | CANCELLED => true | _ => false end.

(** Times are integer milliseconds. *)
Record Session := mkSession {
  session_id : string;
  command : string;
  cwd : string;
  env_summary : list (string * string);
  state : SessionState;
  start_time : Z;
  end_time : option Z;
  exit_code : option Z;
  duration_ms : option Z;
  pid : option Z;
  pty_handle : option string;
  active_claim_owner : option Z
}.

Definition with_state (x : SessionState) (s : Session) : Session :=
  mkSession (session_id s) (command s) (cwd s) (env_summary s) x
    (start_time s) (end_time s) (exit_code s) (duration_ms s) (pid s)
    (pty_handle s) (active_claim_owner s).

(** [session.end_time = t; session.duration_ms = ...] *)
Definition with_end (t : Z) (s : Session) : Session :=
  mkSession (session_id s) (command s) (cwd s) (env_summary s) (state s)
    (start_time s) (Some t) (exit_code s) (Some (t - start_time s)) (pid s)
    (pty_handle s) (active_claim_owner s).

Definition with_process (p : Z) (h : string) (s : Session) : Session :=
  mkSession (session_id s) (command s) (cwd s) (env_summary s) (state s)
    (start_time s) (end_time s) (exit_code s) (duration_ms s) (Some p)
    (Some h) (active_claim_owner s).

Record PermissionRequest := mkRequest {
  request_id : string;
  rq_session_id : string;
  category : string;
  summary : string;
  details : option string;
  options : list (Z * string);       (* code, label *)
  default : Z;
  timeout_sec : Z;
  created_at : Z;
  resolved : bool;
  decision_code : option Z;
  decided_by : option string;
  decided_at : option Z
}.

(** The option set [__post_init__] installs. *)
Definition default_options : list (Z * string) :=
  [(1, "Allow"); (2, "Allow once"); (3, "Deny")].

(** [PermissionRequest(request_id=, session_id=, category=, summary=)] *)
Definition new_request (rid sid cat summ : string) (now : Z) : PermissionRequest :=
  mkRequest rid sid cat summ None default_options 3 300 now false None None None.

(** The four assignments at the head of [resolve_permission_request]. *)
Definition decide_request (code : Z) (by_ : string) (now : Z)
    (r : PermissionRequest) : PermissionRequest :=
  mkRequest (request_id r) (rq_session_id r) (category r) (summary r)
    (details r) (options r) (default r) (timeout_sec r) (created_at r)
    true (Some code) (Some by_) (Some now).

(** [[opt['code'] for opt in request.options]] *)
Definition valid_options (r : PermissionRequest) : list Z := map fst (options r).

Record Event := mkEvent {
  event : string;
  ev_session_id : string;
  user_id : string;
  username : string;
  timestamp : string;
  bytes_len : Z;
  ev_details : option (string * Z)    (* request_id, decision *)
}.

(** What is written into a pseudo-terminal. *)
Inductive PtyInput :=
  | Line (text : string)     (* sendline *)
  | Intr                     (* sendintr *)
  | Eof.                     (* sendeof *)

(** A [pexpect.spawn] object: whether the child is alive, and what has
    been written to it.  Writing to a child that has exited raises. *)
Record Pty := mkPty {
  isalive : bool;
  written : list PtyInput
}.

Definition pty_write (i : PtyInput) (p : Pty) : option Pty :=
  if isalive p then Some (mkPty true (written p ++ [i])) else None.

(** The text of the exception a failed write carries. *)
Definition write_error : string := "[Errno 5] Input/output error".

(** The object state of [CLAUDE].  [app] tells whether [self.app] is set;
    a flush timer is [true] while it is scheduled and [false] once it has
    run or been cancelled. *)
Record CLAUDE := mkCLAUDE {
  sessions : list (string * Session);
  permission_requests : list (string * PermissionRequest);
  pending_requests : gmap string (list string);
  output_buffers : gmap string (list string);
  output_flush_timers : gmap string bool;
  app : bool;
  pty_processes : gmap string Pty;
  claimed_sessions : gmap Z string;
  telegram_message_map : gmap string string;
  audit_log : list Event
}.

(** Assignment to one attribute of the object. *)
Definition set_sessions x (c : CLAUDE) : CLAUDE :=
  mkCLAUDE x (permission_requests c) (pending_requests c) (output_buffers c)
    (output_flush_timers c) (app c) (pty_processes c) (claimed_sessions c)
    (telegram_message_map c) (audit_log c).
Definition set_permission_requests x (c : CLAUDE) : CLAUDE :=
  mkCLAUDE (sessions c) x (pending_requests c) (output_buffers c)
    (output_flush_timers c) (app c) (pty_processes c) (claimed_sessions c)
    (telegram_message_map c) (audit_log c).
Definition set_pending_requests x (c : CLAUDE) : CLAUDE :=
  mkCLAUDE (sessions c) (permission_requests c) x (output_buffers c)
    (output_flush_timers c) (app c) (pty_processes c) (claimed_sessions c)
    (telegram_message_map c) (audit_log c).
Definition set_output_buffers x (c : CLAUDE) : CLAUDE :=
  mkCLAUDE (sessions c) (permission_requests c) (pending_requests c) x
    (output_flush_timers c) (app c) (pty_processes c) (claimed_sessions c)
    (telegram_message_map c) (audit_log c).
Definition set_output_flush_timers x (c : CLAUDE) : CLAUDE :=
  mkCLAUDE (sessions c) (permission_requests c) (pending_requests c)
    (output_buffers c) x (app c) (pty_processes c) (claimed_sessions c)
    (telegram_message_map c) (audit_log c).
Definition set_app x (c : CLAUDE) : CLAUDE :=
  mkCLAUDE (sessions c) (permission_requests c) (pending_requests c)
    (output_buffers c) (output_flush_timers c) x (pty_processes c)
    (claimed_sessions c) (telegram_message_map c) (audit_log c).
Definition set_pty_processes x (c : CLAUDE) : CLAUDE :=
  mkCLAUDE (sessions c) (permission_requests c) (pending_requests c)
    (output_buffers c) (output_flush_timers c) (app c) x
    (claimed_sessions c) (telegram_message_map c) (audit_log c).
Definition set_claimed_sessions x (c : CLAUDE) : CLAUDE :=
  mkCLAUDE (sessions c) (permission_requests c) (pending_requests c)
    (output_buffers c) (output_flush_timers c) (app c) (pty_processes c) x
    (telegram_message_map c) (audit_log c).
Definition set_telegram_message_map x (c : CLAUDE) : CLAUDE :=
  mkCLAUDE (sessions c) (permission_requests c) (pending_requests c)
    (output_buffers c) (output_flush_timers c) (app c) (pty_processes c)
    (claimed_sessions c) x (audit_log c).
Definition set_audit_log x (c : CLAUDE) : CLAUDE :=
  mkCLAUDE (sessions c) (permission_requests c) (pending_requests c)
    (output_buffers c) (output_flush_timers c) (app c) (pty_processes c)
    (claimed_sessions c) (telegram_message_map c) x.

(** [load_storage], for the well-formed records of [sessions.jsonl] and
    [audit.jsonl]: sessions in a terminal state are skipped. *)
Definition load_storage (stored : list Session) (audit : list Event)
    (c : CLAUDE) : CLAUDE :=
  set_audit_log (audit_log c ++ audit)
    (fold_left
       (fun acc s =>
          if is_terminal (state s) then acc
          else set_sessions (Dict.set (session_id s) s (sessions acc)) acc)
       stored c).

(** [CLAUDE()] *)
Definition __init__ (stored : list Session) (audit : list Event) : CLAUDE :=
  load_storage stored audit (mkCLAUDE [] [] ∅ ∅ ∅ false ∅ ∅ ∅ []).

(** The module-level configuration, read once from the environment. *)
Record Config := mkConfig {
  TELEGRAM_CHAT_ID : option string;
  ALLOWED_USER_IDS : list string;
  OUTPUT_MAX_CHARS : Z;
  OUTPUT_FLUSH_MS : Z;
  STRIP_ANSI : bool
}.

(** The defaults of the configuration, for a chat id. *)
Definition default_config (chat : string) : Config :=
  mkConfig (Some chat) [] 3500 200 true.

(** Truth value of [TELEGRAM_CHAT_ID]: set and not empty. *)
Definition chat_set (cfg : Config) : bool :=
  match TELEGRAM_CHAT_ID cfg with
  | Some (String _ _) => true
  | _ => false
  end.

(** What one handler run draws from the outside: a fresh identifier
    ([uuid.uuid4()]), the clock ([time.time()]) and the date text
    ([datetime.now().isoformat()]). *)
Record Env := mkEnv {
  uuid4 : string;
  now : Z;
  now_iso : string
}.

(** An incoming Telegram message: sender, text, id, and the message it
    replies to (whose text may be missing). *)
Record Update := mkUpdate {
  from_user : Z;
  text : string;
  message_id : Z;
  reply_to_message : option (option string)
}.

(** Effects on the outside world: what reaches the operator, the chat,
    the console and the two files.  The lines the program writes to its
    log ([logger.info], [logger.warning], [logger.error]) are left out.
    [StateSet] is a history event: it records each assignment to
    [session.state] with the value it replaces, so that the assignments
    inside one handler can be told apart. *)
Inductive Effect :=
  | ReplyText (t : string)            (* update.message.reply_text *)
  | BotSend (t : string)              (* app.bot.send_message to the chat *)
  | Print (t : string)                (* print *)
  | PrintErr (t : string)             (* print(file=sys.stderr) *)
  | SaveSession (s : Session)         (* append to sessions.jsonl *)
  | SaveAudit (e : Event)             (* append to audit.jsonl *)
  | StartReader (sid : string)        (* create_task(read_pty_output) *)
  | StateSet (sid : string) (old new : SessionState).

Inductive Exn :=
  | KeyError (k : string)
  | ValueError (s : string).          (* int() of a text it cannot read *)

Inductive Outcome (A : Type) :=
  | Returns (a : A)
  | Raises (e : Exn).
Arguments Returns {A} a.
Arguments Raises {A} e.

(** A computation on the object: outcome, state after, effects. *)
Definition M (A : Type) : Type := CLAUDE -> Outcome A * CLAUDE * list Effect.

Definition ret {A} (a : A) : M A := fun c => (Returns a, c, []).

Definition bind {A B} (m : M A) (f : A -> M B) : M B :=
  fun c =>
    match m c with
    | (Returns a, c1, t1) =>
        let '(r, c2, t2) := f a c1 in (r, c2, t1 ++ t2)
    | (Raises e, c1, t1) => (Raises e, c1, t1)
    end.

Definition raise {A} (e : Exn) : M A := fun c => (Raises e, c, []).
Definition read {A} (f : CLAUDE -> A) : M A := fun c => (Returns (f c), c, []).
Definition update (f : CLAUDE -> CLAUDE) : M unit := fun c => (Returns tt, f c, []).
Definition emit (e : Effect) : M unit := fun c => (Returns tt, c, [e]).
Definition pass : M unit := ret tt.

(** Sequencing is written with the monad notations [x ← m; k] and
    [m;; k]. *)
#[global] Instance M_ret : MRet M := @ret.
#[global] Instance M_bind : MBind M := fun A B f m => bind m f.

(** The result components of a run. *)
Definition outcome_of {A} (r : Outcome A * CLAUDE * list Effect) : Outcome A := r.1.1.
Definition state_of {A} (r : Outcome A * CLAUDE * list Effect) : CLAUDE := r.1.2.
Definition trace_of {A} (r : Outcome A * CLAUDE * list Effect) : list Effect := r.2.

(* ===================================================================== *)
(** ** ANSI escape stripping                                              *)
(* ===================================================================== *)

Module Ansi.
Import PyStr.

Definition in_range (lo hi : nat) (c : ascii) : bool :=
  let n := nat_of_ascii c in (lo <=? n)%nat && (n <=? hi)%nat.

(** The number of characters the expression
    [\x1B(?:[@-Z\\-_]|\[[0-?]*[ -/]*[@-~])] consumes after the escape
    character, if it matches there.  The three classes of the second
    alternative are disjoint, so the greedy runs are the only match. *)
Definition escape_len (s : string) : option nat :=
  match s with
  | EmptyString => None
  | String c r =>
      if in_range 64 90 c || in_range 92 95 c then Some 1%nat
      else if Ascii.eqb c "["%char then
        let '(a, r1) := span (in_range 48 63) r in
        let '(b, r2) := span (in_range 32 47) r1 in
        match r2 with
        | String d _ =>
            if in_range 64 126 d
            then Some (S (String.length a + String.length b + 1))
            else None
        | EmptyString => None
        end
      else None
  end.

(** [ansi_escape.sub('', text)]; [skip] characters of a match are still
    to be dropped. *)
Fixpoint sub_from (skip : nat) (s : string) : string :=
  match s with
  | EmptyString => EmptyString
  | String c s' =>
      match skip with
      | S k => sub_from k s'
      | O =>
          if Ascii.eqb c "027"%char then
            match escape_len s' with
            | Some k => sub_from k s'
            | None => String c (sub_from O s')
            end
          else String c (sub_from O s')
      end
  end.

Definition strip_ansi (s : string) : string := sub_from O s.

End Ansi.

(* ===================================================================== *)
(** ** The operations of [CLAUDE]                                         *)
(* ===================================================================== *)

Section Operations.

Variable cfg : Config.

(** [is_authorized] *)
Definition is_authorized (uid : Z) : bool :=
  match ALLOWED_USER_IDS cfg with
  | [] => true
  | allowed => existsb (String.eqb (PyStr.str uid)) allowed
  end.

(** [self.app and TELEGRAM_CHAT_ID] *)
Definition can_send (c : CLAUDE) : bool := app c && chat_set cfg.

(** [session.state = new] on the session object registered under
    [sid]. *)
Definition set_state (sid : string) (new : SessionState) : M unit :=
  ss ← read sessions;
  match Dict.get sid ss with
  | Some s =>
      update (set_sessions (Dict.set sid (with_state new s) ss));;
      emit (StateSet sid (state s) new)
  | None => pass
  end.

(** Any other assignment to fields of the session object. *)
Definition alter_session (sid : string) (f : Session -> Session) : M unit :=
  ss ← read sessions;
  match Dict.get sid ss with
  | Some s => update (set_sessions (Dict.set sid (f s) ss))
  | None => pass
  end.

Definition send_session_start (sid : string) : M unit :=
  emit (Print ("[SID:" +:+ sid +:+ "] Session started")).

Definition send_state_change (sid : string) (new : SessionState) : M unit :=
  emit (Print ("[SID:" +:+ sid +:+ "] State changed to " +:+ state_name new)).

Definition send_session_end (sid : string) : M unit :=
  emit (Print ("[SID:" +:+ sid +:+ "] Session ended")).

(** The text [send_output_chunk] builds before any truncation. *)
Definition format_output (sid stream text : string) : string :=
  "[SID:" +:+ sid +:+ "] " +:+ PyStr.upper stream +:+ ": " +:+ text.

Definition truncation_marker : string := " [TRUNCATED]".

(** The truncation step of [send_output_chunk]. *)
Definition truncate_output (formatted : string) : string :=
  if OUTPUT_MAX_CHARS cfg <? PyStr.len formatted
  then PyStr.slice_to (OUTPUT_MAX_CHARS cfg - 10) formatted +:+ truncation_marker
  else formatted.

(** [send_output_chunk] *)
Definition send_output_chunk (sid stream text : string) (is_partial : bool)
    : M unit :=
  (if String.eqb stream "stderr"
   then emit (PrintErr (format_output sid stream text))
   else emit (Print (format_output sid stream text)));;
  ok ← read can_send;
  if negb ok then pass
  else emit (BotSend (truncate_output (format_output sid stream text))).

(** U+1F6E1 U+FE0F, in UTF-8. *)
Definition shield : string :=
  String "240" (String "159" (String "155" (String "161"
    (String "239" (String "184" (String "143" EmptyString)))))).

(** The f-string of [send_permission_request]. *)
Definition permission_prompt (rid sid summ : string) : string :=
  PyStr.nl +:+ shield +:+ " Permission request [RID:" +:+ rid +:+ "][SID:" +:+ sid
    +:+ "]" +:+ PyStr.nl +:+ PyStr.nl +:+ summ +:+ PyStr.nl +:+ PyStr.nl
    +:+ "Options:" +:+ PyStr.nl +:+ "1) Allow" +:+ PyStr.nl
    +:+ "2) Allow once" +:+ PyStr.nl +:+ "3) Deny (default)" +:+ PyStr.nl.

(** [self.pending_requests[sid].append(rid)], creating the queue when the
    session has none. *)
Definition push_pending (sid rid : string) (p : gmap string (list string))
    : gmap string (list string) :=
  match p !! sid with
  | Some q => <[sid := q ++ [rid]]> p
  | None => <[sid := [rid]]> p
  end.

(** [send_permission_request] *)
Definition send_permission_request (e : Env) (sid cat summ : string) : M unit :=
  ok ← read can_send;
  if negb ok then pass
  else
    let rid := uuid4 e in
    update (fun c => set_permission_requests
      (Dict.set rid (new_request rid sid cat summ (now e)) (permission_requests c)) c);;
    update (fun c => set_pending_requests (push_pending sid rid (pending_requests c)) c);;
    emit (Print (permission_prompt rid sid summ));;
    emit (BotSend (permission_prompt rid sid summ)).

(** The first pattern of the table that occurs in the text, with its
    whole match. *)
Fixpoint first_prompt (ps : list Re.pattern) (t : string) : option string :=
  match ps with
  | [] => None
  | p :: ps' =>
      match Re.search p t with
      | Some (whole, _) => Some whole
      | None => first_prompt ps' t
      end
  end.

(** [_check_for_permission_prompt] *)
Definition _check_for_permission_prompt (e : Env) (sid t : string) : M unit :=
  match first_prompt Re.prompt_patterns t with
  | Some summ => send_permission_request e sid "filesystem" summ
  | None => pass
  end.

(** [handle_output_chunk] *)
Definition handle_output_chunk (e : Env) (sid stream t : string) : M unit :=
  ss ← read sessions;
  match Dict.get sid ss with
  | None => raise (KeyError sid)
  | Some _ =>
      let t := if STRIP_ANSI cfg then Ansi.strip_ansi t else t in
      (if String.eqb stream "stdout"
       then _check_for_permission_prompt e sid t else pass);;
      bufs ← read output_buffers;
      match bufs !! sid with
      | None => raise (KeyError sid)
      | Some chunks =>
          update (set_output_buffers (<[sid := chunks ++ [t]]> bufs));;
          if String.eqb stream "stderr"
          then send_output_chunk sid stream t true
          else
            (* cancel the timer in place, then schedule a new one *)
            update (fun c => set_output_flush_timers
                      (alter (fun _ => false) sid (output_flush_timers c)) c);;
            update (fun c => set_output_flush_timers
                      (<[sid := true]> (output_flush_timers c)) c)
      end
  end.

(** [flush_output] up to the end of its [await send_output_chunk]: the
    result tells whether a text was handed over, that is, whether the
    clearing of the buffer is still to come.  When the bot can send, the
    call waits for the network here, and other handlers may run before
    the rest does. *)
Definition flush_output_send (sid : string) : M bool :=
  bufs ← read output_buffers;
  match bufs !! sid with
  | None => ret false
  | Some [] => ret false
  | Some chunks =>
      send_output_chunk sid "stdout" (PyStr.join PyStr.nl chunks) false;;
      ret true
  end.

(** The rest of [flush_output]: [self.output_buffers[session_id] = []]. *)
Definition flush_output_clear (sid : string) : M unit :=
  update (fun c => set_output_buffers (<[sid := []]> (output_buffers c)) c).

(** [flush_output], when nothing else runs while it waits. *)
Definition flush_output (sid : string) : M unit :=
  sent ← flush_output_send sid;
  if (sent : bool) then flush_output_clear sid else pass.

(** The callback a flush timer runs when it fires: a timer that has been
    cancelled, or has already run, does nothing. *)
Definition timer_fired (sid : string) : M unit :=
  ts ← read output_flush_timers;
  match ts !! sid with
  | Some true =>
      update (set_output_flush_timers (<[sid := false]> ts));;
      flush_output sid
  | _ => pass
  end.

(** [list.remove(x)]: drops the first occurrence; [None] is
    [ValueError]. *)
Fixpoint list_remove (x : string) (l : list string) : option (list string) :=
  match l with
  | [] => None
  | y :: l' =>
      if String.eqb x y then Some l'
      else match list_remove x l' with
           | Some r => Some (y :: r)
           | None => None
           end
  end.

(** [resolve_permission_request] *)
Definition resolve_permission_request (e : Env) (rid : string) (code : Z)
    (uid : Z) : M unit :=
  rs ← read permission_requests;
  match Dict.get rid rs with
  | None => pass
  | Some request =>
      update (set_permission_requests
                (Dict.set rid (decide_request code (PyStr.str uid) (now e) request) rs));;
      let sid := rq_session_id request in
      let audit_event :=
        mkEvent "permission.resolve" sid (PyStr.str uid) EmptyString (now_iso e) 0
          (Some (rid, code)) in
      update (fun c => set_audit_log (audit_log c ++ [audit_event]) c);;
      emit (SaveAudit audit_event);;
      ss ← read sessions;
      ps ← read pty_processes;
      (match Dict.get sid ss, ps !! sid with
       | Some _, Some p =>
           match pty_write (Line (PyStr.str code)) p with
           | Some p' => update (set_pty_processes (<[sid := p']> ps))
           | None => pass          (* the failure is logged *)
           end
       | _, _ => pass
       end);;
      pend ← read pending_requests;
      match pend !! sid with
      | Some q =>
          match list_remove rid q with
          | Some q' => update (set_pending_requests (<[sid := q']> pend))
          | None => pass           (* already removed *)
          end
      | None => pass
      end
  end.

(** [forward_to_session] *)
Definition forward_to_session (e : Env) (sid t : string) (uid : Z) : M unit :=
  ps ← read pty_processes;
  match ps !! sid with
  | None =>
      ss ← read sessions;
      match Dict.get sid ss with
      | Some s =>
          if is_terminal (state s)
          then update (set_sessions (Dict.del sid ss))
          else pass
      | None => pass
      end
  | Some p =>
      if negb (isalive p) then
        ss ← read sessions;
        (match Dict.get sid ss with
         | Some _ =>
             set_state sid FAILED;;
             alter_session sid (with_end (now e));;
             send_session_end sid
         | None => pass
         end);;
        update (fun c => set_pty_processes (delete sid (pty_processes c)) c);;
        update (fun c => set_sessions (Dict.del sid (sessions c)) c)
      else
        let audit_event :=
          mkEvent "input.forwarded" sid (PyStr.str uid) EmptyString (now_iso e)
            (PyStr.utf8_len t) None in
        update (fun c => set_audit_log (audit_log c ++ [audit_event]) c);;
        emit (SaveAudit audit_event);;
        emit (Print ("[SID:" +:+ sid +:+ "] INPUT: " +:+ t));;
        match pty_write (Line t) p with
        | Some p' => update (fun c => set_pty_processes (<[sid := p']> (pty_processes c)) c)
        | None =>
            ok ← read can_send;
            if (ok : bool)
            then emit (BotSend ("Failed to send input to session " +:+ sid
                                  +:+ ": " +:+ write_error))
            else pass
        end
  end.

(** [send_ctrl_c] and [send_ctrl_d] *)
Definition send_key (label : string) (key : PtyInput) (sid : string) : M unit :=
  ps ← read pty_processes;
  match ps !! sid with
  | None => pass
  | Some p =>
      if negb (isalive p) then pass
      else
        emit (Print ("[SID:" +:+ sid +:+ "] Sending " +:+ label));;
        match pty_write key p with
        | Some p' => update (set_pty_processes (<[sid := p']> ps))
        | None => pass
        end
  end.

Definition send_ctrl_c : string -> M unit := send_key "Ctrl+C" Intr.
Definition send_ctrl_d : string -> M unit := send_key "Ctrl+D" Eof.

End Operations.

(* ===================================================================== *)
(** ** Command handlers and the reply handler                             *)
(* ===================================================================== *)

Section Handlers.

Variable cfg : Config.

Definition reply_text (t : string) : M unit := emit (ReplyText t).

Definition start_text : string :=
  "CLAUDE bot is running! Send numeric replies to permission requests.".

Definition help_text : string :=
  PyStr.nl +:+ "CLAUDE - Claude Code Session Reporter & Numeric Permission Controller"
  +:+ PyStr.nl +:+ PyStr.nl +:+ "Commands:" +:+ PyStr.nl
  +:+ "/status - List active sessions" +:+ PyStr.nl
  +:+ "/sessions - List all sessions" +:+ PyStr.nl
  +:+ "/send <sid> <text> - Send text to a session" +:+ PyStr.nl
  +:+ "/claim <sid> - Claim a session for auto-forwarding" +:+ PyStr.nl
  +:+ "/release - Release claimed session" +:+ PyStr.nl
  +:+ "/cancel <sid> - Cancel a session" +:+ PyStr.nl
  +:+ "/keys <sid> CTRL_C - Send Ctrl+C to a session" +:+ PyStr.nl
  +:+ "/keys <sid> CTRL_D - Send Ctrl+D to a session" +:+ PyStr.nl
  +:+ "/help - Show this help message" +:+ PyStr.nl +:+ PyStr.nl
  +:+ "To respond to permission requests, reply with:" +:+ PyStr.nl
  +:+ "1 - Allow" +:+ PyStr.nl +:+ "2 - Allow once" +:+ PyStr.nl
  +:+ "3 - Deny (default)" +:+ PyStr.nl +:+ "        ".

(** [start_command] *)
Definition start_command (u : Update) : M unit := reply_text start_text.

(** [help_command] *)
Definition help_command (u : Update) : M unit := reply_text help_text.

(** The guard that opens the other handlers. *)
Definition guarded (u : Update) (body : M unit) : M unit :=
  if negb (is_authorized cfg (from_user u)) then reply_text "Unauthorized"
  else body.

(** [status_command] *)
Definition status_command (u : Update) : M unit :=
  guarded u (
    ss ← read sessions;
    reply_text (fold_left
      (fun acc '(sid, s) => acc +:+ "  " +:+ sid +:+ ": " +:+ state_name (state s) +:+ PyStr.nl)
      ss ("Active sessions:" +:+ PyStr.nl))).

(** [sessions_command] *)
Definition sessions_command (u : Update) : M unit :=
  guarded u (
    ss ← read sessions;
    reply_text (fold_left
      (fun acc '(sid, s) => acc +:+ "  " +:+ sid +:+ ": " +:+ state_name (state s)
                              +:+ " - " +:+ command s +:+ PyStr.nl)
      ss ("All sessions:" +:+ PyStr.nl))).

(** [update.message.text.strip().split(' ', n)] *)
Definition command_parts (n : nat) (u : Update) : list string :=
  PyStr.split_char " "%char n (PyStr.strip (text u)).

(** [send_command] *)
Definition send_command (e : Env) (u : Update) : M unit :=
  guarded u (
    match command_parts 2 u with
    | _ :: sid :: t :: _ =>
        ss ← read sessions;
        match Dict.get sid ss with
        | None => reply_text ("Session " +:+ sid +:+ " not found")
        | Some s =>
            ps ← read pty_processes;
            match ps !! sid with
            | None =>
                reply_text ("Session " +:+ sid
                  +:+ " exists but is not properly initialized for input. State: "
                  +:+ state_name (state s))
            | Some _ =>
                forward_to_session cfg e sid t (from_user u);;
                reply_text ("Sent to session " +:+ sid)
            end
        end
    | _ => reply_text "Usage: /send <sid> <text>"
    end).

(** [claim_command] *)
Definition claim_command (u : Update) : M unit :=
  guarded u (
    match command_parts 1 u with
    | _ :: sid :: _ =>
        ss ← read sessions;
        if negb (Dict.mem sid ss)
        then reply_text ("Session " +:+ sid +:+ " not found")
        else
          update (fun c => set_claimed_sessions
                    (<[from_user u := sid]> (claimed_sessions c)) c);;
          reply_text ("Claimed session " +:+ sid)
    | _ => reply_text "Usage: /claim <sid>"
    end).

(** [release_command] *)
Definition release_command (u : Update) : M unit :=
  guarded u (
    cl ← read claimed_sessions;
    match cl !! from_user u with
    | Some sid =>
        update (set_claimed_sessions (delete (from_user u) cl));;
        reply_text ("Released session " +:+ sid)
    | None => reply_text "No session claimed"
    end).

(** [cancel_command] *)
Definition cancel_command (u : Update) : M unit :=
  guarded u (
    match command_parts 1 u with
    | _ :: sid :: _ =>
        ss ← read sessions;
        match Dict.get sid ss with
        | None => reply_text ("Session " +:+ sid +:+ " not found")
        | Some s =>
            if is_active (state s) then
              set_state sid CANCELLED;;
              send_state_change sid CANCELLED;;
              reply_text ("Cancelled session " +:+ sid)
            else
              reply_text ("Session " +:+ sid
                            +:+ " is not running or waiting for permission")
        end
    | _ => reply_text "Usage: /cancel <sid>"
    end).

(** [keys_command] *)
Definition keys_command (u : Update) : M unit :=
  guarded u (
    match command_parts 2 u with
    | _ :: sid :: rest =>
        ss ← read sessions;
        if negb (Dict.mem sid ss)
        then reply_text ("Session " +:+ sid +:+ " not found")
        else
          match rest with
          | k :: _ =>
              let key := PyStr.upper k in
              if String.eqb key "CTRL_C" then send_ctrl_c sid
              else if String.eqb key "CTRL_D" then send_ctrl_d sid
              else reply_text "Unknown key. Use CTRL_C or CTRL_D"
          | [] => reply_text "Usage: /keys <sid> [CTRL_C|CTRL_D]"
          end
    | _ => reply_text "Usage: /keys <sid> [CTRL_C|CTRL_D]"
    end).

(** [extract_session_id] *)
Definition extract_session_id (t : string) : option string :=
  snd <$> Re.search Re.sid_token t.

(** [extract_request_id] *)
Definition extract_request_id (t : string) : option string :=
  snd <$> Re.search Re.rid_token t.

(** [handle_permission_reply] *)
Definition handle_permission_reply (e : Env) (rid : string) (uid : Z)
    (t : string) : M unit :=
  if negb (PyStr.isdigit t)
  then reply_text "Please reply with a number (1, 2, or 3)"
  else
    match PyStr.int t with
    | None => raise (ValueError t)
    | Some code =>
        resolve_permission_request e rid code uid;;
        reply_text "Permission decision recorded"
    end.

(** The first block of [handle_reply]: the request a reply is bound to
    through the message it answers. *)
Definition bound_request (c : CLAUDE) (u : Update) : option string :=
  match reply_to_message u with
  | Some (Some rt) =>
      if negb (String.eqb rt EmptyString) && PyStr.contains "Permission request" rt
      then match extract_request_id rt with
           | Some rid => if Dict.mem rid (permission_requests c) then Some rid else None
           | None => None
           end
      else None
  | _ => None
  end.

(** The test of the loop of [handle_reply]: the request is in the queue
    of its session, is not resolved, and offers the code. *)
Definition eligible (c : CLAUDE) (code : Z) (rid : string) (r : PermissionRequest)
    : bool :=
  match pending_requests c !! rq_session_id r with
  | Some q => existsb (String.eqb rid) q
  | None => false
  end
  && negb (resolved r)
  && existsb (Z.eqb code) (valid_options r).

(** The loop of [handle_reply] over [self.permission_requests.items()],
    which breaks at the first request it resolves: the identifier of that
    request. *)
Fixpoint first_eligible (c : CLAUDE) (code : Z)
    (items : list (string * PermissionRequest)) : option string :=
  match items with
  | [] => None
  | (rid, r) :: rest =>
      if eligible c code rid r then Some rid else first_eligible c code rest
  end.

(** The reply-to binding and the claim of the routing block of
    [handle_reply]. *)
Definition bound_session (u : Update) : option string :=
  match reply_to_message u with
  | Some (Some rt) =>
      if String.eqb rt EmptyString then None else extract_session_id rt
  | _ => None
  end.

(** [[sid for sid, session in self.sessions.items() if session.state in
    ["RUNNING", "WAITING_PERMISSION"]]] *)
Definition active_sessions (c : CLAUDE) : list string :=
  map fst (filter (fun kv => is_active (state kv.2) = true) (sessions c)).

(** [not session_id] for a value that may be [None] or a string. *)
Definition falsy (o : option string) : bool :=
  match o with
  | None | Some EmptyString => true
  | Some _ => false
  end.

(** [handle_reply] *)
Definition handle_reply (e : Env) (u : Update) : M unit :=
  guarded u (
    c ← read id;
    match bound_request c u with
    | Some rid => handle_permission_reply e rid (from_user u) (text u)
    | None =>
        if PyStr.isdigit (text u) then
          match PyStr.int (text u) with
          | None => raise (ValueError (text u))
          | Some code =>
              match first_eligible c code (permission_requests c) with
              | Some rid =>
                  resolve_permission_request e rid code (from_user u);;
                  update (fun c => set_telegram_message_map
                            (<[PyStr.str (message_id u) := rid]>
                               (telegram_message_map c)) c)
              | None =>
                  reply_text "No pending permission request found for your reply"
              end
          end
        else
          let session_id := bound_session u in
          let session_id :=
            if falsy session_id
            then match claimed_sessions c !! from_user u with
                 | Some sid => Some sid
                 | None => session_id
                 end
            else session_id in
          if falsy session_id then
            match active_sessions c with
            | [sid] => forward_to_session cfg e sid (text u) (from_user u)
            | _ :: _ :: _ =>
                reply_text "Multiple active sessions. Please specify session ID or claim one."
            | [] => reply_text "No active sessions. Please start a session first."
            end
          else
            match session_id with
            | Some sid => forward_to_session cfg e sid (text u) (from_user u)
            | None => pass
            end
    end).

End Handlers.

(* ===================================================================== *)
(** ** Session life cycle                                                 *)
(* ===================================================================== *)

Section Lifecycle.

Variable cfg : Config.

(** [create_session] *)
Definition create_session (e : Env) (cmd dir : string)
    (env : list (string * string)) : M string :=
  let sid := uuid4 e in
  let session :=
    mkSession sid cmd dir env CREATED (now e) None None None None None None in
  update (fun c => set_sessions (Dict.set sid session (sessions c)) c);;
  update (fun c => set_output_buffers (<[sid := []]> (output_buffers c)) c);;
  update (fun c => set_pending_requests (<[sid := []]> (pending_requests c)) c);;
  emit (SaveSession session);;
  ret sid.

(** [start_session]; [spawned] is the outcome of [pexpect.spawn]: the
    pid and the handle text, or nothing when it raises. *)
Definition start_session (e : Env) (sid : string)
    (spawned : option (Z * string)) : M unit :=
  ss ← read sessions;
  match Dict.get sid ss with
  | None => raise (KeyError sid)
  | Some _ =>
      set_state sid STARTING;;
      send_session_start sid;;
      match spawned with
      | Some (p, h) =>
          alter_session sid (with_process p h);;
          update (fun c => set_pty_processes (<[sid := mkPty true []]> (pty_processes c)) c);;
          set_state sid RUNNING;;
          send_state_change sid RUNNING;;
          emit (StartReader sid)
      | None =>
          set_state sid FAILED;;
          alter_session sid (with_end (now e));;
          send_session_end sid;;
          update (fun c => set_sessions (Dict.del sid (sessions c)) c);;
          update (fun c => set_pty_processes (delete sid (pty_processes c)) c)
      end
  end.

(** [run_command], up to the point where it waits for the session to
    leave the registry. *)
Definition run_command (e : Env) (cmd dir : string)
    (env : list (string * string)) (spawned : option (Z * string)) : M unit :=
  if negb (chat_set cfg) then pass
  else
    sid ← create_session e cmd dir env;
    start_session e sid spawned.

(** The lines one read of [read_pty_output] hands to
    [handle_output_chunk]: split at line feeds, stripped on the right,
    empty ones dropped. *)
Definition output_lines (output : string) : list string :=
  filter (fun l => l ≠ EmptyString) (map PyStr.rstrip (PyStr.split_lines output)).

(** The end of [read_pty_output], once the read loop has stopped. *)
Definition read_pty_output_done (e : Env) (sid : string) : M unit :=
  ss ← read sessions;
  match Dict.get sid ss with
  | None => pass
  | Some s =>
      (if negb (state_eqb (state s) COMPLETED) && negb (state_eqb (state s) FAILED)
       then
         set_state sid COMPLETED;;
         alter_session sid (with_end (now e));;
         send_session_end sid
       else pass);;
      update (fun c => set_pty_processes (delete sid (pty_processes c)) c);;
      update (fun c => set_output_buffers (delete sid (output_buffers c)) c);;
      update (fun c => set_pending_requests (delete sid (pending_requests c)) c);;
      update (fun c => set_sessions (Dict.del sid (sessions c)) c)
  end.

(** Everything that can happen to the object: a command or a text
    message from the operator, a command line to run, a chunk of output,
    the end of a read loop, a flush timer firing. *)
Inductive Op :=
  | OpStart (u : Update)
  | OpStatus (u : Update)
  | OpSessions (u : Update)
  | OpSend (u : Update)
  | OpClaim (u : Update)
  | OpRelease (u : Update)
  | OpCancel (u : Update)
  | OpKeys (u : Update)
  | OpHelp (u : Update)
  | OpReply (u : Update)
  | OpRun (cmd dir : string) (env : list (string * string))
          (spawned : option (Z * string))
  | OpOutput (sid stream t : string)
  | OpReadDone (sid : string)
  | OpTimer (sid : string).

Definition step (e : Env) (o : Op) : M unit :=
  match o with
  | OpStart u => start_command u
  | OpStatus u => status_command cfg u
  | OpSessions u => sessions_command cfg u
  | OpSend u => send_command cfg e u
  | OpClaim u => claim_command cfg u
  | OpRelease u => release_command cfg u
  | OpCancel u => cancel_command cfg u
  | OpKeys u => keys_command cfg u
  | OpHelp u => help_command u
  | OpReply u => handle_reply cfg e u
  | OpRun cmd dir env spawned => run_command e cmd dir env spawned
  | OpOutput sid stream t => handle_output_chunk cfg e sid stream t
  | OpReadDone sid => read_pty_output_done e sid
  | OpTimer sid => timer_fired cfg sid
  end.

End Lifecycle.

(* ===================================================================== *)
(** ** Sample runs                                                        *)
(* ===================================================================== *)

Module Samples.

Definition cfg0 : Config := default_config "100".
Definition env1 : Env := mkEnv "r1" 1000 "t1".
(** A fresh object, with empty storage, whose bot has been started. *)
Definition live : CLAUDE := set_app true (__init__ [] []).

(** Only operator 42 is allowed. *)
Definition cfg_locked : Config := mkConfig (Some "100") ["42"] 3500 200 true.

Definition run_all (cfg : Config) (l : list (Env * Op)) (c : CLAUDE)
    : CLAUDE * list Effect :=
  fold_left (fun acc '(e, o) =>
               let '(_, c', t) := step cfg e o acc.1 in (c', acc.2 ++ t))
            l (c, []).

(** One running session [s1]. *)
Definition one_session : CLAUDE :=
  (run_all cfg0 [(mkEnv "s1" 10 "t0", OpRun "claude" "/work" [] (Some (4242, "pty1")))]
     live).1.

(** ... whose output has asked for a permission: request [r1]. *)
Definition one_request : CLAUDE :=
  (run_all cfg0 [(mkEnv "r1" 20 "t1", OpOutput "s1" "stdout" "Execute command rm x")]
     one_session).1.

(** Two running sessions, each with one pending request; [r1] is the
    older one. *)
Definition two_requests : CLAUDE :=
  (run_all cfg0
     [(mkEnv "s2" 30 "t2", OpRun "claude" "/other" [] (Some (4343, "pty2")));
      (mkEnv "r2" 40 "t3", OpOutput "s2" "stdout" "Allow access to network?")]
     one_request).1.

(** The two requests of [two_requests]. *)
Definition R1 : PermissionRequest :=
  new_request "r1" "s1" "filesystem" "Execute command rm x" 20.
Definition R2 : PermissionRequest :=
  new_request "r2" "s2" "filesystem" "Allow access to network?" 40.

(** A command line whose spawn fails. *)
Definition failed_spawn : Outcome unit * CLAUDE * list Effect :=
  step cfg0 (mkEnv "s9" 10 "t0") (OpRun "nope" "/work" [] None) live.

(** A message from [uid] that answers nothing. *)
Definition plain (uid : Z) (t : string) : Update := mkUpdate uid t 500 None.

(** A message from [uid] sent as a reply to the prompt of a request. *)
Definition answer (uid : Z) (t rid sid summ : string) : Update :=
  mkUpdate uid t 501 (Some (Some (permission_prompt rid sid summ))).

End Samples.

(* ===================================================================== *)
(** ** Vocabulary of the properties                                       *)
(* ===================================================================== *)

(** The characters of the text of a UUID. *)
Definition is_uuid_char (c : ascii) : bool :=
  PyStr.is_digit_char c || Ansi.in_range 97 102 c || Ascii.eqb c "-"%char.

(** [str(uuid.uuid4())]: 36 characters, lower-case hexadecimal digits in
    groups of 8, 4, 4, 4 and 12 separated by hyphens. *)
Fixpoint uuid_from (i : nat) (s : string) : bool :=
  match s with
  | EmptyString => (i =? 36)%nat
  | String c s' =>
      (if (i =? 8)%nat || (i =? 13)%nat || (i =? 18)%nat || (i =? 23)%nat
       then Ascii.eqb c "-"%char
       else PyStr.is_digit_char c || Ansi.in_range 97 102 c)
      && uuid_from (S i) s'
  end.

Definition is_uuid (s : string) : bool := uuid_from 0 s.

(** The permission prompt, split at its two tokens. *)
Definition prompt_head : string :=
  PyStr.nl +:+ shield +:+ " Permission request ".

Definition prompt_tail (summ : string) : string :=
  PyStr.nl +:+ PyStr.nl +:+ summ +:+ PyStr.nl +:+ PyStr.nl
    +:+ "Options:" +:+ PyStr.nl +:+ "1) Allow" +:+ PyStr.nl
    +:+ "2) Allow once" +:+ PyStr.nl +:+ "3) Deny (default)" +:+ PyStr.nl.

(** The fields a resolution writes into a request. *)
Definition decision_of (c : CLAUDE) (rid : string)
    : option (bool * option Z * option string * option Z) :=
  (fun r => (resolved r, decision_code r, decided_by r, decided_at r))
    <$> Dict.get rid (permission_requests c).

(** The edges of the life cycle as the design document lists them. *)
Definition legal_edge (a b : SessionState) : bool :=
  match a, b with
  | CREATED, STARTING | STARTING, RUNNING
  | RUNNING, COMPLETED | RUNNING, FAILED | RUNNING, CANCELLED => true
  | _, _ => false
  end.

(** The same edges, with the one a failed spawn takes. *)
Definition code_edge (a b : SessionState) : bool :=
  legal_edge a b || (state_eqb a STARTING && state_eqb b FAILED).

(** The registry is well formed: one entry per session id, no session in
    the state the program never assigns, and a session that has a
    terminal process has been started (it is running, or was cancelled
    while running). *)
Definition reg_ok (ss : list (string * Session)) (ps : gmap string Pty) : Prop :=
  NoDup (Dict.keys ss)
  /\ forall sid s, Dict.get sid ss = Some s ->
       state s <> WAITING_PERMISSION
       /\ (is_Some (ps !! sid) -> state s = RUNNING \/ state s = CANCELLED).

Definition registry_ok (c : CLAUDE) : Prop :=
  reg_ok (sessions c) (pty_processes c).

(** A read loop that ends is the one [start_session] started: its
    session still has its process, or has left the registry. *)
Definition reader_ok (o : Op) (c : CLAUDE) : Prop :=
  match o with
  | OpReadDone sid =>
      is_Some (pty_processes c !! sid) \/ Dict.get sid (sessions c) = None
  | _ => True
  end.

(** Every recorded assignment to a state that leaves a state other than
    [CANCELLED] follows an edge. *)
Definition edges_ok (t : list Effect) : Prop :=
  forall sid old new,
    In (StateSet sid old new) t -> old <> CANCELLED -> code_edge old new = true.

Definition is_state_set (x : Effect) : bool :=
  match x with StateSet _ _ _ => true | _ => false end.

(** A computation that keeps the registry well formed and assigns states
    along edges only. *)
Definition benign {A : Type} (m : M A) : Prop :=
  forall c, registry_ok c ->
    registry_ok (state_of (m c)) /\ edges_ok (trace_of (m c)).

(** The states the object can be in: a fresh object with empty storage,
    its bot started or not, and whatever the operations make of it. *)
Inductive reachable (cfg : Config) : CLAUDE -> Prop :=
  | reach_fresh (b : bool) : reachable cfg (set_app b (__init__ [] []))
  | reach_step (c : CLAUDE) (e : Env) (o : Op) :
      reachable cfg c -> reader_ok o c ->
      reachable cfg (state_of (step cfg e o c)).

(** The pending queues are well formed: one record per request id, no
    request twice in a queue, and every queued request is an unresolved
    request of the session that owns the queue. *)
Definition queues_ok (c : CLAUDE) : Prop :=
  NoDup (Dict.keys (permission_requests c))
  /\ forall sid q, pending_requests c !! sid = Some q ->
       NoDup q
       /\ forall rid, rid ∈ q ->
            exists r, Dict.get rid (permission_requests c) = Some r
                      /\ resolved r = false /\ rq_session_id r = sid.

(** A computation that keeps the queues well formed. *)
Definition keeps_queues {A : Type} (m : M A) : Prop :=
  forall c, queues_ok c -> queues_ok (state_of (m c)).

(** ** Further vocabulary *)

(** The audit events a trace writes to [audit.jsonl], in order. *)
Fixpoint saved_audits (t : list Effect) : list Event :=
  match t with
  | [] => []
  | SaveAudit ev :: t' => ev :: saved_audits t'
  | _ :: t' => saved_audits t'
  end.

(** Further sample states and messages. *)
Module MoreSamples.

(** The session [s1] of [Samples.one_session] once its child has exited
    and the read loop has not yet noticed. *)
Definition dead_session : CLAUDE :=
  set_pty_processes (<["s1" := mkPty false []]> (pty_processes Samples.one_session))
    Samples.one_session.

(** Operator 7 has claimed [s1] while two sessions run. *)
Definition claimed_s1 : CLAUDE :=
  set_claimed_sessions (<[7 := "s1"]> (claimed_sessions Samples.two_requests))
    Samples.two_requests.

(** A message from [uid] sent as a reply to the text [rt]. *)
Definition reply_to (uid : Z) (t rt : string) : Update :=
  mkUpdate uid t 502 (Some (Some rt)).

(** The text of U+00B2, a digit that is no decimal, and of U+0663, the
    Arabic-Indic digit three. *)
Definition superscript_two : string := String "194" (String "178" EmptyString).
Definition arabic_three : string := String "217" (String "163" EmptyString).

(** The object after a restart of the program that finds the running
    session [s1] in [sessions.jsonl]: the session is registered, its
    process is gone. *)
Definition restored_session : CLAUDE :=
  set_app true
    (__init__ [mkSession "s1" "claude" "/work" [] RUNNING 10 None None None
                 (Some 4242) (Some "pty1") None] []).


End MoreSamples.


(** The session records a trace writes to [sessions.jsonl] satisfy
    [P]. *)
Definition records_are (P : Session -> Prop) (c c' : CLAUDE) (t : list Effect)
    : Prop :=
  forall s, In (SaveSession s) t -> P s.

(** The log in memory grows by exactly what the trace writes to
    [audit.jsonl]. *)
Definition audit_kept (c c' : CLAUDE) (t : list Effect) : Prop :=
  audit_log c' = audit_log c ++ saved_audits t.

(** The claim of operator [k] is as before. *)
Definition claims_kept (k : Z) (c c' : CLAUDE) (t : list Effect) : Prop :=
  claimed_sessions c' !! k = claimed_sessions c !! k.

(** Every request on record is still on record, in the same place:
    what is new comes after. *)
Definition requests_kept (c c' : CLAUDE) (t : list Effect) : Prop :=
  Dict.keys (permission_requests c) `prefix_of` Dict.keys (permission_requests c').

(** A condition on the object that holds after if it held before. *)
Definition keeps (P : CLAUDE -> Prop) (c c' : CLAUDE) (t : list Effect) : Prop :=
  P c -> P c'.

(** A session that has a process is registered and has its output buffer
    and its queue. *)
Definition wired (c : CLAUDE) : Prop :=
  forall sid, is_Some (pty_processes c !! sid) ->
    is_Some (Dict.get sid (sessions c))
    /\ is_Some (output_buffers c !! sid)
    /\ is_Some (pending_requests c !! sid).

(** Every run of [m] is related to its start by [R]. *)
Definition runs {A : Type} (R : CLAUDE -> CLAUDE -> list Effect -> Prop)
    (m : M A) : Prop :=
  forall c, R c (state_of (m c)) (trace_of (m c)).

(** The text of a chunk as it enters the buffer. *)
Definition cleaned (cfg : Config) (t : string) : string :=
  if STRIP_ANSI cfg then Ansi.strip_ansi t else t.


(** ** The words of the routing and correlation rules *)

(** The text [rt] carries the token [tag v] closed by a bracket:
    [[SID:v]] or [[RID:v]], where [v] is not empty and holds no closing
    bracket. *)
Definition holds_token (tag v rt : string) : Prop :=
  exists pre post,
    rt = pre +:+ tag +:+ v +:+ "]" +:+ post
    /\ v <> EmptyString
    /\ PyStr.all_chars (fun ch => negb (Ascii.eqb ch "]"%char)) v = true.

(** The message has no reply-to binding: the message it answers, if
    there is one and it has a text, carries neither a session token nor
    a request token. *)
Definition unbound (u : Update) : Prop :=
  forall rt, reply_to_message u = Some (Some rt) ->
    forall v, ~ holds_token "[SID:" v rt /\ ~ holds_token "[RID:" v rt.

(** An active session: registered, and RUNNING or WAITING_PERMISSION. *)
Definition is_active_session (c : CLAUDE) (sid : string) : Prop :=
  exists s, Dict.get sid (sessions c) = Some s
            /\ (state s = RUNNING \/ state s = WAITING_PERMISSION).

(** A request a bare reply [n] can answer: it is unresolved, its option
    set holds the code [n], and it waits in the queue of its session. *)
Definition answerable (c : CLAUDE) (n : Z) (rid : string) (R : PermissionRequest)
    : Prop :=
  resolved R = false
  /\ In n (map fst (options R))
  /\ exists q, pending_requests c !! rq_session_id R = Some q /\ In rid q.

(* ===================================================================== *)
(** * Properties                                                          *)
(* ===================================================================== *)

(** ** Text and pattern lemmas *)

Module TextFacts.
Import PyStr Re.

Lemma append_nil (b : string) : EmptyString +:+ b = b.
Proof. reflexivity. Qed.

Lemma append_cons (x : ascii) (a b : string) :
  String x a +:+ b = String x (a +:+ b).
Proof. reflexivity. Qed.

Lemma append_assoc (a b c : string) : (a +:+ b) +:+ c = a +:+ (b +:+ c).
Proof.
  induction a as [|x a IH]; [reflexivity |].
  now rewrite !append_cons, IH.
Qed.

Lemma length_append (a b : string) :
  String.length (a +:+ b) = (String.length a + String.length b)%nat.
Proof.
  induction a as [|x a IH]; [reflexivity |].
  rewrite append_cons. simpl. now rewrite IH.
Qed.

Lemma strip_prefix_append (p r : string) : strip_prefix p (p +:+ r) = Some r.
Proof.
  induction p as [|a p IH]; [now destruct r |].
  rewrite append_cons. simpl. now rewrite Ascii.eqb_refl.
Qed.

Lemma span_stop (cls : ascii -> bool) (g : string) (c : ascii) (r : string) :
  all_chars cls g = true -> cls c = false ->
  span cls (g +:+ String c r) = (g, String c r).
Proof.
  intros Hg Hc. induction g as [|x g IH].
  - rewrite append_nil. simpl. now rewrite Hc.
  - rewrite append_cons. simpl in *.
    apply andb_prop in Hg as [Hx Hg]. now rewrite Hx, (IH Hg).
Qed.

(** A delimited token is matched where it stands. *)
Lemma match_here_token (o : string) (cls : ascii -> bool) (c : ascii)
    (cl g r : string) :
  g <> EmptyString -> all_chars cls g = true -> cls c = false ->
  match_here (Pattern o cls (String c cl)) (o +:+ g +:+ String c cl +:+ r)
  = Some (o +:+ g +:+ String c cl, g).
Proof.
  intros Hne Hg Hc. unfold match_here; simpl pat_open; simpl pat_class;
    simpl pat_close.
  rewrite strip_prefix_append, (append_cons c cl r).
  rewrite (span_stop cls g c _ Hg Hc).
  destruct g as [|x g]; [congruence |].
  now rewrite <- (append_cons c cl r), strip_prefix_append.
Qed.

(** Text without the first character of the opening literal holds no
    match and is skipped by the search. *)
Lemma search_skip (a : ascii) (o : string) (cls : ascii -> bool)
    (cl g r : string) :
  all_chars (not_char a) g = true ->
  search (Pattern (String a o) cls cl) (g +:+ r)
  = search (Pattern (String a o) cls cl) r.
Proof.
  induction g as [|x g IH]; [reflexivity |].
  intros H. simpl in H. apply andb_prop in H as [Hx Hg].
  rewrite append_cons. simpl. unfold match_here; simpl.
  unfold not_char in Hx. rewrite Ascii.eqb_sym in Hx.
  apply negb_true_iff in Hx. rewrite Hx. now apply IH.
Qed.

Lemma search_here (p : pattern) (s : string) m :
  match_here p s = Some m -> search p s = Some m.
Proof. intros H. destruct s; simpl; now rewrite H. Qed.

Lemma uuid_from_chars (s : string) : forall i,
  uuid_from i s = true -> all_chars is_uuid_char s = true.
Proof.
  induction s as [|c s IH]; intros i H; simpl in *; [reflexivity |].
  apply andb_prop in H as [Hc Hs]. rewrite (IH _ Hs), andb_true_r.
  unfold is_uuid_char.
  destruct ((i =? 8)%nat || (i =? 13)%nat || (i =? 18)%nat || (i =? 23)%nat).
  - rewrite Hc. now rewrite orb_true_r.
  - now rewrite Hc.
Qed.

Lemma all_chars_impl (f g : ascii -> bool) (s : string) :
  (forall c, f c = true -> g c = true) ->
  all_chars f s = true -> all_chars g s = true.
Proof.
  intros Hfg. induction s as [|c s IH]; simpl; [reflexivity |].
  intros H. apply andb_prop in H as [Hc Hs]. now rewrite (Hfg _ Hc), IH.
Qed.

Lemma uuid_char_not_bracket (c : ascii) :
  is_uuid_char c = true ->
  not_char "]"%char c = true /\ not_char "["%char c = true.
Proof.
  destruct c as [[] [] [] [] [] [] [] []]; vm_compute; intros H;
    (discriminate H || (split; reflexivity)).
Qed.

Lemma is_uuid_token (s : string) :
  is_uuid s = true ->
  s <> EmptyString /\ all_chars (not_char "]"%char) s = true
  /\ all_chars (not_char "["%char) s = true.
Proof.
  intros H. split; [| split].
  - intros ->. discriminate H.
  - eapply all_chars_impl; [| exact (uuid_from_chars _ _ H)].
    intros c Hc. apply (uuid_char_not_bracket c Hc).
  - eapply all_chars_impl; [| exact (uuid_from_chars _ _ H)].
    intros c Hc. apply (uuid_char_not_bracket c Hc).
Qed.

End TextFacts.

(** ** Dictionary lemmas *)

Module DictFacts.

Section Facts.
Context {V : Type}.
Implicit Types (d : list (string * V)) (k : string) (v : V).

Lemma get_set_eq d k v : Dict.get k (Dict.set k v d) = Some v.
Proof.
  induction d as [|[k' v'] d IH]; simpl.
  - now rewrite String.eqb_refl.
  - destruct (String.eqb k k') eqn:E; simpl.
    + now rewrite String.eqb_refl.
    + now rewrite E.
Qed.

Lemma get_set_ne d k k' v : k <> k' -> Dict.get k' (Dict.set k v d) = Dict.get k' d.
Proof.
  intros Hne. induction d as [|[k0 v0] d IH]; simpl.
  - destruct (String.eqb k' k) eqn:E; [| reflexivity].
    apply String.eqb_eq in E. congruence.
  - destruct (String.eqb k k0) eqn:E; simpl.
    + apply String.eqb_eq in E. subst k0.
      destruct (String.eqb k' k) eqn:E'; [| reflexivity].
      apply String.eqb_eq in E'. congruence.
    + now rewrite IH.
Qed.

Lemma get_del_eq d k : NoDup (Dict.keys d) -> Dict.get k (Dict.del k d) = None.
Proof.
  induction d as [|[k0 v0] d IH]; simpl; [reflexivity |].
  intros Hnd. apply NoDup_cons in Hnd as [Hnot Hnd].
  destruct (String.eqb k k0) eqn:E; simpl.
  - apply String.eqb_eq in E. subst k0.
    clear IH. induction d as [|[k1 v1] d IH]; simpl; [reflexivity |].
    destruct (String.eqb k k1) eqn:E1.
    + apply String.eqb_eq in E1. subst k1. exfalso. apply Hnot. simpl. left.
    + apply IH.
      * intros Hin. apply Hnot. simpl. now right.
      * simpl in Hnd. now apply NoDup_cons in Hnd as [_ ?].
  - rewrite E. now apply IH.
Qed.

Lemma get_del_ne d k k' : k <> k' -> Dict.get k' (Dict.del k d) = Dict.get k' d.
Proof.
  intros Hne. induction d as [|[k0 v0] d IH]; simpl; [reflexivity |].
  destruct (String.eqb k k0) eqn:E; simpl.
  - apply String.eqb_eq in E. subst k0.
    destruct (String.eqb k' k) eqn:E'; [| reflexivity].
    apply String.eqb_eq in E'. congruence.
  - now rewrite IH.
Qed.

Lemma get_Some_in d k v : Dict.get k d = Some v -> In (k, v) d.
Proof.
  induction d as [|[k0 v0] d IH]; simpl; [discriminate |].
  destruct (String.eqb k k0) eqn:E.
  - apply String.eqb_eq in E. intros [= ->]. subst. now left.
  - intros H. right. now apply IH.
Qed.

Lemma get_In_NoDup d k v : NoDup (Dict.keys d) -> In (k, v) d -> Dict.get k d = Some v.
Proof.
  induction d as [|[k0 v0] d IH]; simpl; [intros _ [] |].
  intros Hnd Hin. apply NoDup_cons in Hnd as [Hnot Hnd].
  destruct Hin as [[= -> ->] | Hin].
  - now rewrite String.eqb_refl.
  - destruct (String.eqb k k0) eqn:E.
    + apply String.eqb_eq in E. subst k0. exfalso. apply Hnot.
      apply list_elem_of_In. change k with (fst (k, v)). now apply in_map.
    + now apply IH.
Qed.

Lemma keys_set_in d k v :
  forall x, x ∈ Dict.keys (Dict.set k v d) <-> x = k \/ x ∈ Dict.keys d.
Proof.
  induction d as [|[k0 v0] d IH]; intros x; simpl.
  - rewrite list_elem_of_singleton. split; [auto | intros [H | H]; [auto |]].
    now apply elem_of_nil in H.
  - destruct (String.eqb k k0) eqn:E; simpl.
    + apply String.eqb_eq in E. subst k0. rewrite !elem_of_cons. tauto.
    + rewrite !elem_of_cons, IH. tauto.
Qed.

Lemma NoDup_set d k v :
  NoDup (Dict.keys d) -> NoDup (Dict.keys (Dict.set k v d)).
Proof.
  induction d as [|[k0 v0] d IH]; simpl; intros H.
  - apply NoDup_singleton.
  - apply NoDup_cons in H as [Hn H].
    destruct (String.eqb k k0) eqn:E; simpl.
    + apply String.eqb_eq in E. subst k0. now apply NoDup_cons.
    + apply NoDup_cons. split; [| now apply IH].
      intros Hin. apply keys_set_in in Hin as [-> | Hin]; [| easy].
      now rewrite String.eqb_refl in E.
Qed.

Lemma keys_del_in d k x :
  x ∈ Dict.keys (Dict.del k d) -> x ∈ Dict.keys d.
Proof.
  induction d as [|[k0 v0] d IH]; simpl; [easy |].
  destruct (String.eqb k k0); simpl; rewrite !elem_of_cons; [tauto |].
  intros [-> | H]; [now left | right; now apply IH].
Qed.

Lemma NoDup_del d k :
  NoDup (Dict.keys d) -> NoDup (Dict.keys (Dict.del k d)).
Proof.
  induction d as [|[k0 v0] d IH]; simpl; intros H; [exact H |].
  apply NoDup_cons in H as [Hn H].
  destruct (String.eqb k k0); simpl; [exact H |].
  apply NoDup_cons. split; [| now apply IH].
  intros Hin. apply Hn. now apply keys_del_in in Hin.
Qed.

Lemma set_set d k v w :
  Dict.set k w (Dict.set k v d) = Dict.set k w d.
Proof.
  induction d as [|[k0 v0] d IH]; simpl.
  - now rewrite String.eqb_refl.
  - destruct (String.eqb k k0) eqn:E; simpl.
    + now rewrite String.eqb_refl.
    + now rewrite E, IH.
Qed.

Lemma del_set d k v :
  Dict.del k (Dict.set k v d) = Dict.del k d.
Proof.
  induction d as [|[k0 v0] d IH]; simpl.
  - now rewrite String.eqb_refl.
  - destruct (String.eqb k k0) eqn:E; simpl.
    + now rewrite String.eqb_refl.
    + now rewrite E, IH.
Qed.

(** A new key goes to the end: insertion order is creation order. *)
Lemma set_fresh_appends d k v :
  Dict.get k d = None -> Dict.set k v d = d ++ [(k, v)].
Proof.
  induction d as [|[k0 v0] d IH]; simpl; [reflexivity |].
  destruct (String.eqb k k0); [discriminate |]. intros H. now rewrite IH.
Qed.

Lemma get_None_keys d k : Dict.get k d = None -> k ∉ Dict.keys d.
Proof.
  induction d as [|[k0 v0] d IH]; simpl; [intros _; apply not_elem_of_nil |].
  destruct (String.eqb k k0) eqn:E; [discriminate |]. intros H.
  apply not_elem_of_cons. split; [| now apply IH].
  intros ->. now rewrite String.eqb_refl in E.
Qed.

Lemma mem_get d k : Dict.mem k d = true <-> exists v, Dict.get k d = Some v.
Proof.
  unfold Dict.mem. destruct (Dict.get k d) as [v|]; split.
  - eauto.
  - reflexivity.
  - discriminate.
  - intros [v [=]].
Qed.

End Facts.

End DictFacts.

(** ** Running a handler *)

(** Unfolds the sequencing of a handler body down to its result. *)
Ltac run_m :=
  unfold mbind, M_bind, bind, mret, M_ret, ret, read, update, emit, pass, raise;
  simpl.

(** Case analysis on an innermost test the body is stuck on. *)
Ltac split_match :=
  match goal with
  | |- context [match ?X with _ => _ end] =>
      lazymatch X with
      | context [match _ with _ => _ end] => fail
      | _ => destruct X eqn:?
      end
  end.

(** ** The binding tokens *)

Module TokenFacts.
Import PyStr Re TextFacts.

Lemma prompt_split (rid sid summ : string) :
  permission_prompt rid sid summ
  = prompt_head +:+ "[RID:" +:+ rid +:+ "]" +:+ "[SID:" +:+ sid +:+ "]"
      +:+ prompt_tail summ.
Proof. reflexivity. Qed.

Lemma extract_request_id_prompt (rid sid summ : string) :
  rid <> EmptyString -> all_chars (not_char "]"%char) rid = true ->
  extract_request_id (permission_prompt rid sid summ) = Some rid.
Proof.
  intros Hne Hrid. rewrite prompt_split. unfold extract_request_id, rid_token.
  rewrite search_skip by reflexivity.
  pose proof (match_here_token "[RID:" (not_char "]"%char) "]"%char EmptyString
                rid ("[SID:" +:+ sid +:+ "]" +:+ prompt_tail summ) Hne Hrid eq_refl) as H.
  apply search_here in H. now rewrite H.
Qed.

Lemma extract_session_id_prompt (rid sid summ : string) :
  all_chars (not_char "["%char) rid = true ->
  sid <> EmptyString -> all_chars (not_char "]"%char) sid = true ->
  extract_session_id (permission_prompt rid sid summ) = Some sid.
Proof.
  intros Hrid Hne Hsid. rewrite prompt_split. unfold extract_session_id, sid_token.
  rewrite search_skip by reflexivity.
  (* the request token opens like a session token but is none *)
  change ("[RID:" +:+ rid +:+ "]" +:+ "[SID:" +:+ sid +:+ "]" +:+ prompt_tail summ)
    with (String "["%char ("RID:" +:+ rid +:+ "]" +:+ "[SID:" +:+ sid +:+ "]" +:+ prompt_tail summ)).
  change (search ?p (String "["%char ?r)) with (search p r).
  rewrite (search_skip _ _ _ _ "RID:") by reflexivity.
  rewrite search_skip by exact Hrid.
  rewrite (search_skip _ _ _ _ "]") by reflexivity.
  pose proof (match_here_token "[SID:" (not_char "]"%char) "]"%char EmptyString
                sid (prompt_tail summ) Hne Hsid eq_refl) as H.
  apply search_here in H. now rewrite H.
Qed.

End TokenFacts.

(** C10 — Round trip of the binding tokens.  When the prompt can be sent,
    [send_permission_request] stores a request under the fresh identifier
    and sends one prompt; for UUID identifiers that prompt embeds
    [[RID:request_id]] and [[SID:session_id]], and [extract_request_id]
    and [extract_session_id] applied to it give back exactly the
    request's two identifiers. *)
Theorem binding_tokens_roundtrip (cfg : Config) (e : Env)
    (sid cat summ : string) (c : CLAUDE) :
  can_send cfg c = true -> is_uuid (uuid4 e) = true -> is_uuid sid = true ->
  exists req,
    Dict.get (uuid4 e)
      (permission_requests (state_of (send_permission_request cfg e sid cat summ c)))
      = Some req
    /\ request_id req = uuid4 e /\ rq_session_id req = sid
    /\ trace_of (send_permission_request cfg e sid cat summ c)
       = [Print (permission_prompt (request_id req) (rq_session_id req) summ);
          BotSend (permission_prompt (request_id req) (rq_session_id req) summ)]
    /\ (exists pre post,
          permission_prompt (request_id req) (rq_session_id req) summ
          = pre +:+ "[RID:" +:+ request_id req +:+ "]"
                +:+ "[SID:" +:+ rq_session_id req +:+ "]" +:+ post)
    /\ extract_request_id (permission_prompt (request_id req) (rq_session_id req) summ)
       = Some (request_id req)
    /\ extract_session_id (permission_prompt (request_id req) (rq_session_id req) summ)
       = Some (rq_session_id req).
Proof.
  intros Hsend Hrid Hsid.
  apply TextFacts.is_uuid_token in Hrid as (Hr0 & Hr1 & Hr2).
  apply TextFacts.is_uuid_token in Hsid as (Hs0 & Hs1 & _).
  exists (new_request (uuid4 e) sid cat summ (now e)).
  unfold send_permission_request, state_of, trace_of. run_m. rewrite Hsend. simpl.
  repeat split.
  - apply DictFacts.get_set_eq.
  - exists prompt_head, (prompt_tail summ).
    apply TokenFacts.prompt_split.
  - now apply TokenFacts.extract_request_id_prompt.
  - now apply TokenFacts.extract_session_id_prompt.
Qed.

Lemma binding_tokens_roundtrip_witness :
  exists req,
    Dict.get "123e4567-e89b-42d3-a456-426614174000"
      (permission_requests (state_of (send_permission_request Samples.cfg0
         (mkEnv "123e4567-e89b-42d3-a456-426614174000" 5 "t")
         "9b2c1f00-0000-4000-8000-00000000beef" "filesystem" "Read file x"
         Samples.live)))
      = Some req
    /\ extract_request_id (permission_prompt (request_id req) (rq_session_id req) "Read file x")
       = Some "123e4567-e89b-42d3-a456-426614174000"
    /\ extract_session_id (permission_prompt (request_id req) (rq_session_id req) "Read file x")
       = Some "9b2c1f00-0000-4000-8000-00000000beef".
Proof.
  destruct (binding_tokens_roundtrip Samples.cfg0
              (mkEnv "123e4567-e89b-42d3-a456-426614174000" 5 "t")
              "9b2c1f00-0000-4000-8000-00000000beef" "filesystem" "Read file x"
              Samples.live eq_refl eq_refl eq_refl)
    as (req & Hget & Hr & Hs & _ & _ & Hx & Hy).
  exists req. rewrite Hx, Hy, Hr, Hs. repeat split. exact Hget.
Defined.

(** ** Output aggregation *)

(** What [send_output_chunk] does: one console line with the whole text,
    and, when the bot can send, one message after truncation. *)
Lemma send_output_chunk_run (cfg : Config) (sid t : string) (b : bool) (c : CLAUDE) :
  send_output_chunk cfg sid "stdout" t b c
  = (Returns tt, c,
     Print (format_output sid "stdout" t)
       :: (if can_send cfg c
           then [BotSend (truncate_output cfg (format_output sid "stdout" t))]
           else [])).
Proof.
  unfold send_output_chunk. run_m. now destruct (can_send cfg c).
Qed.

(** The length of a cut text, and of a text put together. *)
Lemma take_length (n : nat) (s : string) :
  (n <= PyStr.points s)%nat -> PyStr.points (PyStr.take n s) = n.
Proof.
  revert n. induction s as [|x s IH]; intros n H; simpl in *; [lia |].
  destruct (PyStr.is_cont x) eqn:E.
  - simpl. rewrite E. now apply IH.
  - destruct n as [|n]; [reflexivity |]. simpl. rewrite E, IH; lia.
Qed.

Lemma points_append (a b : string) :
  PyStr.points (a +:+ b) = (PyStr.points a + PyStr.points b)%nat.
Proof.
  induction a as [|x a IH]; [now rewrite TextFacts.append_nil |].
  rewrite TextFacts.append_cons. simpl. rewrite IH. now destruct (PyStr.is_cont x).
Qed.

(** C5 — Truncation in [send_output_chunk].  A formatted text longer than
    the configured maximum (of at least 10) is cut to its first [max-10]
    characters followed by the marker; the marker has 12 characters, so
    the message sent has [max+2] characters, more than the maximum. *)
Theorem truncated_message_exceeds_max (cfg : Config) (sid t : string) (c : CLAUDE) :
  can_send cfg c = true ->
  10 <= OUTPUT_MAX_CHARS cfg ->
  OUTPUT_MAX_CHARS cfg < PyStr.len (format_output sid "stdout" t) ->
  exists m,
    trace_of (send_output_chunk cfg sid "stdout" t false c)
      = [Print (format_output sid "stdout" t); BotSend m]
    /\ m = PyStr.take (Z.to_nat (OUTPUT_MAX_CHARS cfg - 10))
             (format_output sid "stdout" t) +:+ truncation_marker
    /\ PyStr.len m = OUTPUT_MAX_CHARS cfg + 2.
Proof.
  intros Hs Hmin Hlong. rewrite send_output_chunk_run, Hs. unfold trace_of; simpl.
  eexists. split; [reflexivity |].
  unfold truncate_output, PyStr.slice_to.
  assert ((OUTPUT_MAX_CHARS cfg <? PyStr.len (format_output sid "stdout" t)) = true)
    as -> by now apply Z.ltb_lt.
  assert ((OUTPUT_MAX_CHARS cfg - 10 <? 0) = false) as -> by (apply Z.ltb_ge; lia).
  split; [reflexivity |].
  unfold PyStr.len in *. rewrite points_append, take_length by lia.
  unfold truncation_marker. simpl PyStr.points. lia.
Qed.

Lemma truncated_message_exceeds_max_witness :
  exists m,
    trace_of (send_output_chunk Samples.cfg0 "s1" "stdout"
                (PyStr.repeat_char "x"%char 3484) false Samples.live)
      = [Print (format_output "s1" "stdout" (PyStr.repeat_char "x"%char 3484)); BotSend m]
    /\ PyStr.len m = 3502.
Proof.
  destruct (truncated_message_exceeds_max Samples.cfg0 "s1"
              (PyStr.repeat_char "x"%char 3484) Samples.live)
    as (m & Ht & _ & Hl).
  - reflexivity.
  - vm_compute. discriminate.
  - vm_compute. reflexivity.
  - exists m. split; [exact Ht | exact Hl].
Defined.

(** A stderr chunk is printed and sent within the call that receives it,
    and no flush timer is touched; the text has also been appended to the
    session's buffer. *)
Lemma stderr_chunk_sent_at_once (cfg : Config) (e : Env) (sid t : string)
    (c : CLAUDE) (s : Session) (chunks : list string) :
  Dict.get sid (sessions c) = Some s ->
  output_buffers c !! sid = Some chunks ->
  let t' := if STRIP_ANSI cfg then Ansi.strip_ansi t else t in
  handle_output_chunk cfg e sid "stderr" t c
  = (Returns tt,
     set_output_buffers (<[sid := chunks ++ [t']]> (output_buffers c)) c,
     PrintErr (format_output sid "stderr" t')
       :: (if can_send cfg c
           then [BotSend (truncate_output cfg (format_output sid "stderr" t'))]
           else [])).
Proof.
  intros Hs Hb. unfold handle_output_chunk. run_m. rewrite Hs. simpl. rewrite Hb.
  unfold send_output_chunk. run_m. unfold can_send. simpl.
  now destruct (app c && chat_set cfg).
Qed.

(** C6 — A stderr chunk is relayed at once and arms no timer, but its
    text stays in the session's buffer: after a later stdout chunk, the
    flush that the timer runs delivers the stderr text a second time, as
    part of a stdout message. *)
Theorem stderr_text_delivered_again_by_flush :
  let r1 := handle_output_chunk Samples.cfg0 (mkEnv "u1" 50 "t")
              "s1" "stderr" "oops" Samples.one_session in
  let r2 := handle_output_chunk Samples.cfg0 (mkEnv "u2" 60 "t")
              "s1" "stdout" "done" (state_of r1) in
  let r3 := timer_fired Samples.cfg0 "s1" (state_of r2) in
  trace_of r1 = [PrintErr "[SID:s1] STDERR: oops"; BotSend "[SID:s1] STDERR: oops"]
  /\ output_flush_timers (state_of r1) !! "s1" = None
  /\ output_buffers (state_of r1) !! "s1" = Some ["oops"]
  /\ trace_of r2 = []
  /\ output_flush_timers (state_of r2) !! "s1" = Some true
  /\ trace_of r3
     = [Print ("[SID:s1] STDOUT: oops" +:+ PyStr.nl +:+ "done");
        BotSend ("[SID:s1] STDOUT: oops" +:+ PyStr.nl +:+ "done")].
Proof. vm_compute. repeat split. Qed.


(** Chunks enter the buffer at its end: after a chunk has been handled,
    the session's buffer is the old one followed by the (stripped) text,
    whatever the stream. *)
Lemma chunk_appended_last (cfg : Config) (e : Env) (sid stream t : string)
    (c : CLAUDE) (s : Session) (chunks : list string) :
  Dict.get sid (sessions c) = Some s ->
  output_buffers c !! sid = Some chunks ->
  output_buffers (state_of (handle_output_chunk cfg e sid stream t c)) !! sid
  = Some (chunks ++ [if STRIP_ANSI cfg then Ansi.strip_ansi t else t]).
Proof.
  intros Hs Hb. unfold handle_output_chunk, _check_for_permission_prompt,
    send_permission_request, send_output_chunk, state_of. run_m. rewrite Hs. simpl.
  repeat (split_match; simpl); simplify_eq; simpl; try apply lookup_insert_eq.
Qed.

(** ** Permission broker: the reply-to path *)

(** C2 — A request that is already resolved is written again by a second
    reply to its prompt: operator 7 answers 1, then operator 8 answers 3
    to the same prompt, and [decision_code], [decided_by] and
    [decided_at] of the resolved record all change.  The queue of the
    session is empty after the first resolution and stays so. *)
Theorem resolved_request_overwritten_by_second_reply :
  let first := handle_reply Samples.cfg0 (mkEnv "u1" 2000 "ta")
                 (Samples.answer 7 "1" "r1" "s1" "Execute command rm x")
                 Samples.one_request in
  let second := handle_reply Samples.cfg0 (mkEnv "u2" 3000 "tb")
                  (Samples.answer 8 "3" "r1" "s1" "Execute command rm x")
                  (state_of first) in
  decision_of Samples.one_request "r1" = Some (false, None, None, None)
  /\ decision_of (state_of first) "r1" = Some (true, Some 1, Some "7", Some 2000)
  /\ pending_requests (state_of first) !! "s1" = Some []
  /\ decision_of (state_of second) "r1" = Some (true, Some 3, Some "8", Some 3000)
  /\ pending_requests (state_of second) !! "s1" = Some []
  /\ trace_of second
     = [SaveAudit (mkEvent "permission.resolve" "s1" "8" EmptyString "tb" 0
                     (Some ("r1", 3)));
        ReplyText "Permission decision recorded"].
Proof. vm_compute. repeat split. Qed.

(** C3 — On the reply-to path a digit string outside the option set is
    not rejected: the reply 9 to the prompt of a request whose options are
    1, 2 and 3 resolves the request with decision 9 and writes 9 to the
    session's terminal.  The same text sent bare is rejected and leaves
    the request unresolved. *)
Theorem bound_reply_accepts_code_outside_options :
  let bound := handle_reply Samples.cfg0 (mkEnv "u1" 2000 "ta")
                 (Samples.answer 7 "9" "r1" "s1" "Execute command rm x")
                 Samples.one_request in
  let bare := handle_reply Samples.cfg0 (mkEnv "u1" 2000 "ta")
                (Samples.plain 7 "9") Samples.one_request in
  (valid_options <$> Dict.get "r1" (permission_requests Samples.one_request))
    = Some [1; 2; 3]
  /\ decision_of (state_of bound) "r1" = Some (true, Some 9, Some "7", Some 2000)
  /\ (written <$> pty_processes (state_of bound) !! "s1") = Some [Line "9"]
  /\ trace_of bound
     = [SaveAudit (mkEvent "permission.resolve" "s1" "7" EmptyString "ta" 0
                     (Some ("r1", 9)));
        ReplyText "Permission decision recorded"]
  /\ decision_of (state_of bare) "r1" = Some (false, None, None, None)
  /\ trace_of bare = [ReplyText "No pending permission request found for your reply"]
  /\ state_of bare = Samples.one_request.
Proof. vm_compute. repeat split. Qed.

(** ** Authorization *)

(** Every handler that opens with the guard turns an operator who is not
    allowed away: one reply, no change of the object, nothing else. *)
Lemma guarded_rejects (cfg : Config) (u : Update) (body : M unit) (c : CLAUDE) :
  is_authorized cfg (from_user u) = false ->
  guarded cfg u body c = (Returns tt, c, [ReplyText "Unauthorized"]).
Proof. intros H. unfold guarded. now rewrite H. Qed.

Lemma guarded_handlers_reject (cfg : Config) (e : Env) (u : Update) (o : Op)
    (c : CLAUDE) :
  is_authorized cfg (from_user u) = false ->
  In o [OpStatus u; OpSessions u; OpSend u; OpClaim u; OpRelease u;
        OpCancel u; OpKeys u; OpReply u] ->
  step cfg e o c = (Returns tt, c, [ReplyText "Unauthorized"]).
Proof.
  intros H Hin. simpl in Hin.
  repeat (destruct Hin as [<- | Hin]; [now apply guarded_rejects |]).
  destruct Hin.
Qed.

(** C9 — With the allowed list set to operator 42, operator 7 is turned
    away by the guarded handlers, but [/start] and [/help] have no guard:
    they answer operator 7 with their usual text, not with the
    refusal.  Neither changes the object. *)
Theorem start_and_help_answer_unauthorized_operator :
  is_authorized Samples.cfg_locked 7 = false
  /\ step Samples.cfg_locked Samples.env1 (OpStatus (Samples.plain 7 "/status"))
       Samples.one_request
     = (Returns tt, Samples.one_request, [ReplyText "Unauthorized"])
  /\ step Samples.cfg_locked Samples.env1 (OpStart (Samples.plain 7 "/start"))
       Samples.one_request
     = (Returns tt, Samples.one_request, [ReplyText start_text])
  /\ step Samples.cfg_locked Samples.env1 (OpHelp (Samples.plain 7 "/help"))
       Samples.one_request
     = (Returns tt, Samples.one_request, [ReplyText help_text])
  /\ start_text <> "Unauthorized" /\ help_text <> "Unauthorized".
Proof. repeat split; try reflexivity; discriminate. Qed.

(** ** Permission broker: resolution and correlation *)

Module BrokerFacts.
Import PyStr TextFacts.

Lemma resolve_requests_field (e : Env) (rid : string) (code uid : Z)
    (c : CLAUDE) (R : PermissionRequest) :
  Dict.get rid (permission_requests c) = Some R ->
  permission_requests (state_of (resolve_permission_request e rid code uid c))
  = Dict.set rid (decide_request code (str uid) (now e) R) (permission_requests c).
Proof.
  intros H. unfold resolve_permission_request, state_of. run_m. rewrite H. simpl.
  repeat (split_match; simpl); reflexivity.
Qed.

Lemma resolve_pending_any (e : Env) (rid : string) (code uid : Z)
    (c : CLAUDE) (R : PermissionRequest) :
  Dict.get rid (permission_requests c) = Some R ->
  pending_requests (state_of (resolve_permission_request e rid code uid c))
  = match pending_requests c !! rq_session_id R with
    | Some q =>
        match list_remove rid q with
        | Some q' => <[rq_session_id R := q']> (pending_requests c)
        | None => pending_requests c
        end
    | None => pending_requests c
    end.
Proof.
  intros H. unfold resolve_permission_request, state_of. run_m.
  rewrite H. simpl.
  repeat (split_match; simpl); simplify_eq; reflexivity.
Qed.

Lemma resolve_pending_field (e : Env) (rid : string) (code uid : Z)
    (c : CLAUDE) (R : PermissionRequest) (q q' : list string) :
  Dict.get rid (permission_requests c) = Some R ->
  pending_requests c !! rq_session_id R = Some q ->
  list_remove rid q = Some q' ->
  pending_requests (state_of (resolve_permission_request e rid code uid c))
  = <[rq_session_id R := q']> (pending_requests c).
Proof.
  intros H Hq Hq'. rewrite (resolve_pending_any e rid code uid c R H).
  now rewrite Hq, Hq'.
Qed.

Lemma resolve_missing (e : Env) (rid : string) (code uid : Z) (c : CLAUDE) :
  Dict.get rid (permission_requests c) = None ->
  resolve_permission_request e rid code uid c = (Returns tt, c, []).
Proof.
  intros H. unfold resolve_permission_request. run_m. now rewrite H.
Qed.

Lemma resolve_returns (e : Env) (rid : string) (code uid : Z) (c : CLAUDE) :
  outcome_of (resolve_permission_request e rid code uid c) = Returns tt.
Proof.
  unfold resolve_permission_request, outcome_of. run_m.
  repeat (split_match; simpl); reflexivity.
Qed.

Lemma list_remove_present (x : string) (l : list string) :
  existsb (String.eqb x) l = true -> exists l', list_remove x l = Some l'.
Proof.
  induction l as [|y l IH]; simpl; [discriminate |].
  destruct (String.eqb x y); [eauto |].
  simpl. intros H. destruct (IH H) as [l' ->]. eauto.
Qed.

(** The loop stops at the oldest request that passes its test. *)
Lemma first_eligible_oldest (c : CLAUDE) (code : Z)
    (pre post : list (string * PermissionRequest)) (rid : string)
    (R : PermissionRequest) :
  (forall k r, In (k, r) pre -> eligible c code k r = false) ->
  eligible c code rid R = true ->
  first_eligible c code (pre ++ (rid, R) :: post) = Some rid.
Proof.
  intros Hpre HR. induction pre as [|[k r] pre IH]; simpl.
  - now rewrite HR.
  - rewrite (Hpre k r) by now left. apply IH. intros k' r' Hin.
    apply Hpre. now right.
Qed.

Lemma contains_here (p s r : string) :
  strip_prefix p s = Some r -> contains p s = true.
Proof. intros H. destruct s; simpl; now rewrite H. Qed.

Lemma contains_append_l (p a s : string) :
  contains p s = true -> contains p (a +:+ s) = true.
Proof.
  intros H. induction a as [|x a IH]; [exact H |].
  rewrite append_cons. simpl. rewrite IH. now destruct (strip_prefix p _).
Qed.

Lemma prompt_is_permission_request (rid sid summ : string) :
  contains "Permission request" (permission_prompt rid sid summ) = true.
Proof.
  change (permission_prompt rid sid summ)
    with ((nl +:+ shield +:+ " ") +:+ "Permission request"
            +:+ (" [RID:" +:+ rid +:+ "][SID:" +:+ sid +:+ "]" +:+ prompt_tail summ)).
  apply contains_append_l. eapply contains_here. apply strip_prefix_append.
Qed.

(** A reply to the prompt of a known request is bound to that request. *)
Lemma bound_request_prompt (c : CLAUDE) (uid mid : Z) (t rid sid summ : string)
    (R : PermissionRequest) :
  rid <> EmptyString -> all_chars (Re.not_char "]"%char) rid = true ->
  Dict.get rid (permission_requests c) = Some R ->
  bound_request c (mkUpdate uid t mid (Some (Some (permission_prompt rid sid summ))))
  = Some rid.
Proof.
  intros Hne Hrid Hget. unfold bound_request. simpl reply_to_message.
  cbv beta iota. rewrite prompt_is_permission_request.
  rewrite (TokenFacts.extract_request_id_prompt rid sid summ Hne Hrid).
  unfold Dict.mem. rewrite Hget.
  now replace (String.eqb (permission_prompt rid sid summ) EmptyString) with false
    by reflexivity.
Qed.

(** The state after a computation that returns, followed by one more
    step. *)
Lemma then_update_state (m : M unit) (f : CLAUDE -> CLAUDE) (c : CLAUDE) :
  outcome_of (m c) = Returns tt ->
  state_of ((m;; update f) c) = f (state_of (m c)).
Proof.
  unfold outcome_of, state_of. run_m.
  destruct (m c) as [[o c'] t]. simpl. now intros ->.
Qed.

Lemma then_emit_state (m : M unit) (x : Effect) (c : CLAUDE) :
  outcome_of (m c) = Returns tt ->
  state_of ((m;; emit x) c) = state_of (m c).
Proof.
  unfold outcome_of, state_of. run_m.
  destruct (m c) as [[o c'] t]. simpl. now intros ->.
Qed.

Lemma handle_permission_reply_digits (e : Env) (rid : string) (uid : Z)
    (t : string) (code : Z) :
  isdigit t = true -> int t = Some code ->
  handle_permission_reply e rid uid t
  = (resolve_permission_request e rid code uid;;
     emit (ReplyText "Permission decision recorded")).
Proof. intros H Hi. unfold handle_permission_reply. now rewrite H, Hi. Qed.

(** The three ways through [handle_reply] for an allowed operator. *)
Lemma handle_reply_bound (cfg : Config) (e : Env) (u : Update) (c : CLAUDE)
    (rid : string) :
  is_authorized cfg (from_user u) = true ->
  bound_request c u = Some rid ->
  handle_reply cfg e u c = handle_permission_reply e rid (from_user u) (text u) c.
Proof.
  intros Ha Hb. unfold handle_reply, guarded. rewrite Ha. simpl negb. run_m.
  rewrite Hb. now destruct (handle_permission_reply _ _ _ _ _) as [[? ?] ?].
Qed.

Lemma handle_reply_bare (cfg : Config) (e : Env) (u : Update) (c : CLAUDE)
    (code : Z) :
  is_authorized cfg (from_user u) = true ->
  bound_request c u = None ->
  isdigit (text u) = true ->
  int (text u) = Some code ->
  handle_reply cfg e u c
  = match first_eligible c code (permission_requests c) with
    | Some rid =>
        (resolve_permission_request e rid code (from_user u);;
         update (fun c => set_telegram_message_map
                   (<[str (message_id u) := rid]> (telegram_message_map c)) c)) c
    | None =>
        (Returns tt, c,
         [ReplyText "No pending permission request found for your reply"])
    end.
Proof.
  intros Ha Hb Hd Hi. unfold handle_reply, guarded. rewrite Ha. simpl negb. run_m.
  rewrite Hb, Hd, Hi. destruct (first_eligible c _ _); [| reflexivity].
  now destruct (resolve_permission_request _ _ _ _ _) as [[[] ?] ?].
Qed.

(** Digits that [int] cannot read end the handler with its
    exception. *)
Lemma handle_reply_unreadable (cfg : Config) (e : Env) (u : Update) (c : CLAUDE) :
  is_authorized cfg (from_user u) = true ->
  bound_request c u = None ->
  isdigit (text u) = true ->
  int (text u) = None ->
  handle_reply cfg e u c = (Raises (ValueError (text u)), c, []).
Proof.
  intros Ha Hb Hd Hi. unfold handle_reply, guarded. rewrite Ha. simpl negb. run_m.
  now rewrite Hb, Hd, Hi.
Qed.

Lemma handle_reply_route (cfg : Config) (e : Env) (u : Update) (c : CLAUDE) :
  is_authorized cfg (from_user u) = true ->
  bound_request c u = None ->
  isdigit (text u) = false ->
  bound_session u = None ->
  claimed_sessions c !! from_user u = None ->
  handle_reply cfg e u c
  = match active_sessions c with
    | [] => (Returns tt, c,
             [ReplyText "No active sessions. Please start a session first."])
    | [sid] => forward_to_session cfg e sid (text u) (from_user u) c
    | _ :: _ :: _ =>
        (Returns tt, c,
         [ReplyText "Multiple active sessions. Please specify session ID or claim one."])
    end.
Proof.
  intros Ha Hb Hd Hs Hc. unfold handle_reply, guarded. rewrite Ha. simpl negb.
  run_m. rewrite Hb, Hd, Hs, Hc. simpl.
  destruct (active_sessions c) as [|s1 [|s2 rest]]; try reflexivity.
  now destruct (forward_to_session _ _ _ _ _ _) as [[? ?] ?].
Qed.

End BrokerFacts.

(** ** Routing of free text *)

Lemma forward_to_live_session (cfg : Config) (e : Env) (sid t : string)
    (uid : Z) (c : CLAUDE) (p : Pty) :
  pty_processes c !! sid = Some p -> isalive p = true ->
  pty_processes (state_of (forward_to_session cfg e sid t uid c))
  = <[sid := mkPty true (written p ++ [Line t])]> (pty_processes c).
Proof.
  intros Hp Ha. unfold forward_to_session, state_of. run_m. rewrite Hp. simpl.
  rewrite Ha. simpl. unfold pty_write. rewrite Ha. reflexivity.
Qed.

(** ** The life cycle of a session *)

Module RegistryFacts.

Lemma reg_ok_pty (ss : list (string * Session)) (ps ps' : gmap string Pty) :
  reg_ok ss ps ->
  (forall k, is_Some (ps' !! k) -> is_Some (ps !! k)) ->
  reg_ok ss ps'.
Proof.
  intros [Hnd H] Hsub. split; [exact Hnd |].
  intros sid s Hg. destruct (H sid s Hg) as [Hw Hp]. split; [exact Hw |].
  intros Hs. apply Hp, Hsub, Hs.
Qed.

Lemma reg_ok_del (ss : list (string * Session)) (ps ps' : gmap string Pty)
    (k : string) :
  reg_ok ss ps ->
  (forall j, is_Some (ps' !! j) -> is_Some (ps !! j)) ->
  reg_ok (Dict.del k ss) ps'.
Proof.
  intros [Hnd H] Hsub. split; [now apply DictFacts.NoDup_del |].
  intros sid s Hg. destruct (decide (k = sid)) as [-> | Hne].
  - rewrite DictFacts.get_del_eq in Hg by exact Hnd. discriminate.
  - rewrite DictFacts.get_del_ne in Hg by exact Hne.
    destruct (H sid s Hg) as [Hw Hp]. split; [exact Hw |].
    intros Hs. apply Hp, Hsub, Hs.
Qed.

Lemma reg_ok_set (ss : list (string * Session)) (ps ps' : gmap string Pty)
    (k : string) (v : Session) :
  reg_ok ss ps ->
  state v <> WAITING_PERMISSION ->
  (is_Some (ps' !! k) -> state v = RUNNING \/ state v = CANCELLED) ->
  (forall j, j <> k -> is_Some (ps' !! j) -> is_Some (ps !! j)) ->
  reg_ok (Dict.set k v ss) ps'.
Proof.
  intros [Hnd H] Hw Hv Hsub. split; [now apply DictFacts.NoDup_set |].
  intros sid s Hg. destruct (decide (k = sid)) as [-> | Hne].
  - rewrite DictFacts.get_set_eq in Hg. injection Hg as <-. now split.
  - rewrite DictFacts.get_set_ne in Hg by exact Hne.
    destruct (H sid s Hg) as [Hw' Hp]. split; [exact Hw' |].
    intros Hs. apply Hp, Hsub; [congruence | exact Hs].
Qed.

Lemma edges_ok_nil : edges_ok [].
Proof. intros sid old new []. Qed.

Lemma edges_ok_app (t1 t2 : list Effect) :
  edges_ok t1 -> edges_ok t2 -> edges_ok (t1 ++ t2).
Proof.
  intros H1 H2 sid old new Hin Hne. apply in_app_or in Hin as [Hin | Hin];
    [now apply (H1 sid) | now apply (H2 sid)].
Qed.

Lemma edges_ok_cons (x : Effect) (t : list Effect) :
  is_state_set x = false -> edges_ok t -> edges_ok (x :: t).
Proof.
  intros Hx Ht sid old new [-> | Hin] Hne; [discriminate | now apply (Ht sid)].
Qed.

Lemma edges_ok_edge (sid : string) (a b : SessionState) (t : list Effect) :
  (a <> CANCELLED -> code_edge a b = true) -> edges_ok t ->
  edges_ok (StateSet sid a b :: t).
Proof.
  intros Hab Ht s old new [[= <- <- <-] | Hin] Hne;
    [now apply Hab | now apply (Ht s)].
Qed.

(** *** Rules for computations that are put together from benign parts *)

Section Rules.
Context {A B : Type}.

Lemma benign_ret (a : A) : benign (ret a).
Proof. intros c H. split; [exact H | apply edges_ok_nil]. Qed.

Lemma benign_mret (a : A) : benign (mret a : M A).
Proof. apply benign_ret. Qed.

Lemma benign_raise (x : Exn) : benign (raise x : M A).
Proof. intros c H. split; [exact H | apply edges_ok_nil]. Qed.

Lemma benign_read (f : CLAUDE -> A) : benign (read f).
Proof. intros c H. split; [exact H | apply edges_ok_nil]. Qed.

Lemma benign_bind (m : M A) (f : A -> M B) :
  benign m -> (forall a, benign (f a)) -> benign (m ≫= f).
Proof.
  intros Hm Hf c Hc. destruct (Hm c Hc) as [H1 H2].
  unfold mbind, M_bind, bind, state_of, trace_of in *.
  destruct (m c) as [[[a | x] c1] t1]; simpl in *; [| now split].
  destruct (Hf a c1 H1) as [H3 H4].
  destruct (f a c1) as [[r c2] t2]; simpl in *.
  split; [exact H3 | now apply edges_ok_app].
Qed.

End Rules.

Lemma benign_emit (x : Effect) : is_state_set x = false -> benign (emit x).
Proof.
  intros Hx c H. split; [exact H |]. apply edges_ok_cons; [exact Hx |].
  apply edges_ok_nil.
Qed.

Lemma benign_update (f : CLAUDE -> CLAUDE) :
  (forall c, registry_ok c -> registry_ok (f c)) -> benign (update f).
Proof. intros Hf c H. split; [now apply Hf | apply edges_ok_nil]. Qed.

Lemma benign_pass : benign pass.
Proof. apply benign_ret. Qed.

End RegistryFacts.

(** One step of a proof that a handler is benign by its structure. *)
Ltac benign_step :=
  lazymatch goal with
  | |- benign (mbind _ _) => apply RegistryFacts.benign_bind; [| intros ?]
  | |- benign (read _) => apply RegistryFacts.benign_read
  | |- benign (emit _) => apply RegistryFacts.benign_emit; reflexivity
  | |- benign (reply_text _) => apply RegistryFacts.benign_emit; reflexivity
  | |- benign (update _) =>
      apply RegistryFacts.benign_update; intros ? H; exact H
  | |- benign pass => apply RegistryFacts.benign_pass
  | |- benign (ret _) => apply RegistryFacts.benign_ret
  | |- benign (mret _) => apply RegistryFacts.benign_mret
  | |- benign (raise _) => apply RegistryFacts.benign_raise
  | |- benign (match ?x with _ => _ end) => destruct x
  | |- benign (let _ := _ in _) => cbv zeta
  end.

Ltac benign_auto := repeat benign_step.

(** A goal about which sessions have a terminal process. *)
Ltac pty_dom :=
  intros; rewrite ?lookup_insert, ?lookup_delete in *; repeat case_decide;
  subst; simpl in *;
  first [ assumption | congruence | (eexists; eassumption)
        | (exfalso; eapply is_Some_None; eassumption) | naive_solver ].

(** Runs a handler body to its leaves. *)
Ltac run_leaf :=
  repeat (first [rewrite DictFacts.get_set_eq | split_match]; simpl);
  simplify_eq.

(** The registry after a leaf is well formed. *)
Ltac reg_solve Hc :=
  unfold registry_ok in *; simpl;
  rewrite ?DictFacts.set_set, ?DictFacts.del_set;
  first
    [ exact Hc
    | apply (RegistryFacts.reg_ok_del _ _ _ _ Hc); pty_dom
    | apply (RegistryFacts.reg_ok_pty _ _ _ Hc); pty_dom
    | apply (RegistryFacts.reg_ok_set _ _ _ _ _ Hc);
        [simpl; discriminate | simpl; auto | pty_dom] ].

(** The state an assignment replaces, read off the registry. *)
Ltac edge_side Hc :=
  intros ?;
  first
    [ reflexivity
    | match goal with
      | H : Dict.get ?sid (sessions ?c) = Some ?s |- _ =>
          let Hw := fresh "Hw" in
          let Hp := fresh "Hp" in
          destruct (proj2 Hc sid s H) as [Hw Hp];
          try (match goal with
               | P : pty_processes c !! sid = Some _ |- _ =>
                   specialize (Hp (ex_intro _ _ P))
               end);
          destruct (state s); simpl in *;
          try discriminate; try congruence; try reflexivity;
          try (destruct Hp; congruence)
      end ].

Ltac edge_solve Hc :=
  repeat first
    [ apply RegistryFacts.edges_ok_cons; [reflexivity |]
    | apply RegistryFacts.edges_ok_edge; [edge_side Hc |] ];
  apply RegistryFacts.edges_ok_nil.

Module LifeCycleFacts.
Import RegistryFacts.

Lemma benign_guarded (cfg : Config) (u : Update) (body : M unit) :
  benign body -> benign (guarded cfg u body).
Proof. intros H. unfold guarded. destruct (negb _); [benign_auto | exact H]. Qed.

Lemma benign_send_output_chunk (cfg : Config) (sid stream t : string) (b : bool) :
  benign (send_output_chunk cfg sid stream t b).
Proof. unfold send_output_chunk. benign_auto. Qed.

Lemma benign_send_permission_request (cfg : Config) (e : Env)
    (sid cat summ : string) :
  benign (send_permission_request cfg e sid cat summ).
Proof. unfold send_permission_request. benign_auto. Qed.

Lemma benign_handle_output_chunk (cfg : Config) (e : Env) (sid stream t : string) :
  benign (handle_output_chunk cfg e sid stream t).
Proof.
  unfold handle_output_chunk, _check_for_permission_prompt. benign_auto;
    try apply benign_send_permission_request; try apply benign_send_output_chunk.
Qed.

Lemma benign_flush_output (cfg : Config) (sid : string) :
  benign (flush_output cfg sid).
Proof.
  unfold flush_output, flush_output_send, flush_output_clear.
  benign_auto; apply benign_send_output_chunk.
Qed.

Lemma benign_timer_fired (cfg : Config) (sid : string) :
  benign (timer_fired cfg sid).
Proof. unfold timer_fired. benign_auto; apply benign_flush_output. Qed.

Lemma benign_status (cfg : Config) (u : Update) : benign (status_command cfg u).
Proof. unfold status_command. apply benign_guarded. benign_auto. Qed.

Lemma benign_sessions (cfg : Config) (u : Update) : benign (sessions_command cfg u).
Proof. unfold sessions_command. apply benign_guarded. benign_auto. Qed.

Lemma benign_claim (cfg : Config) (u : Update) : benign (claim_command cfg u).
Proof. unfold claim_command. apply benign_guarded. benign_auto. Qed.

Lemma benign_release (cfg : Config) (u : Update) : benign (release_command cfg u).
Proof. unfold release_command. apply benign_guarded. benign_auto. Qed.

Lemma benign_forward (cfg : Config) (e : Env) (sid t : string) (uid : Z) :
  benign (forward_to_session cfg e sid t uid).
Proof.
  intros c Hc. unfold forward_to_session, set_state, alter_session,
    send_session_end, state_of, trace_of. run_m. run_leaf; try congruence.
  all: split; [reg_solve Hc | edge_solve Hc].
Qed.

Lemma benign_resolve (e : Env) (rid : string) (code uid : Z) :
  benign (resolve_permission_request e rid code uid).
Proof.
  intros c Hc. unfold resolve_permission_request, state_of, trace_of. run_m.
  run_leaf; try congruence.
  all: split; [reg_solve Hc | edge_solve Hc].
Qed.

Lemma benign_send_key (label : string) (key : PtyInput) (sid : string) :
  benign (send_key label key sid).
Proof.
  intros c Hc. unfold send_key, state_of, trace_of. run_m.
  run_leaf; try congruence.
  all: split; [reg_solve Hc | edge_solve Hc].
Qed.

Lemma benign_cancel (cfg : Config) (u : Update) : benign (cancel_command cfg u).
Proof.
  unfold cancel_command. apply benign_guarded.
  intros c Hc. unfold set_state, send_state_change, reply_text, state_of, trace_of.
  run_m. run_leaf; try congruence.
  all: split; [reg_solve Hc | edge_solve Hc].
Qed.

Lemma benign_run (cfg : Config) (e : Env) (cmd dir : string)
    (env : list (string * string)) (spawned : option (Z * string)) :
  benign (run_command cfg e cmd dir env spawned).
Proof.
  intros c Hc. unfold run_command, create_session, start_session, set_state,
    alter_session, send_session_start, send_state_change, send_session_end,
    state_of, trace_of. run_m. run_leaf; try congruence.
  all: repeat (rewrite ?DictFacts.get_set_eq; simpl).
  all: split; [reg_solve Hc | edge_solve Hc].
Qed.

Lemma benign_keys (cfg : Config) (u : Update) : benign (keys_command cfg u).
Proof.
  unfold keys_command, send_ctrl_c, send_ctrl_d. apply benign_guarded.
  benign_auto; apply benign_send_key.
Qed.

Lemma benign_send (cfg : Config) (e : Env) (u : Update) :
  benign (send_command cfg e u).
Proof.
  unfold send_command. apply benign_guarded. benign_auto. apply benign_forward.
Qed.

Lemma benign_handle_reply (cfg : Config) (e : Env) (u : Update) :
  benign (handle_reply cfg e u).
Proof.
  unfold handle_reply, handle_permission_reply. apply benign_guarded.
  benign_auto; try apply benign_resolve; try apply benign_forward.
Qed.

(** The end of a read loop, for a session that was started. *)
Lemma read_done_ok (e : Env) (sid : string) (c : CLAUDE) :
  registry_ok c -> reader_ok (OpReadDone sid) c ->
  registry_ok (state_of (read_pty_output_done e sid c))
  /\ edges_ok (trace_of (read_pty_output_done e sid c)).
Proof.
  intros Hc Hr. simpl in Hr. unfold read_pty_output_done, set_state,
    alter_session, send_session_end, state_of, trace_of. run_m.
  run_leaf; try congruence.
  all: split; [reg_solve Hc |].
  all: destruct Hr as [[p Hr] | Hr]; [edge_solve Hc | try congruence; edge_solve Hc].
Qed.

End LifeCycleFacts.

(** A fresh object with empty storage has a well-formed registry, and so
    has every state its operations lead to. *)
Lemma registry_ok_fresh : registry_ok (__init__ [] []).
Proof.
  split; [apply NoDup_nil_2 |]. intros sid s H. discriminate H.
Qed.

(** Every operation keeps the registry well formed and assigns states
    along edges. *)
Lemma step_keeps_registry (cfg : Config) (e : Env) (o : Op) (c : CLAUDE) :
  registry_ok c -> reader_ok o c ->
  registry_ok (state_of (step cfg e o c)) /\ edges_ok (trace_of (step cfg e o c)).
Proof.
  intros Hc Hr. destruct o; simpl step.
  - unfold start_command. now apply RegistryFacts.benign_emit.
  - now apply LifeCycleFacts.benign_status.
  - now apply LifeCycleFacts.benign_sessions.
  - now apply LifeCycleFacts.benign_send.
  - now apply LifeCycleFacts.benign_claim.
  - now apply LifeCycleFacts.benign_release.
  - now apply LifeCycleFacts.benign_cancel.
  - now apply LifeCycleFacts.benign_keys.
  - unfold help_command. now apply RegistryFacts.benign_emit.
  - now apply LifeCycleFacts.benign_handle_reply.
  - now apply LifeCycleFacts.benign_run.
  - now apply LifeCycleFacts.benign_handle_output_chunk.
  - now apply LifeCycleFacts.read_done_ok.
  - now apply LifeCycleFacts.benign_timer_fired.
Qed.

Lemma reachable_registry_ok (cfg : Config) (c : CLAUDE) :
  reachable cfg c -> registry_ok c.
Proof.
  induction 1 as [b | c e o _ IH Hr].
  - split; [apply NoDup_nil_2 |]. intros sid s H. discriminate H.
  - now apply step_keeps_registry.
Qed.

(** C1, as stated, fails: when the spawn fails, [start_session] moves the
    session from [STARTING] to [FAILED], which is not among the listed
    edges, and the operation returns normally. *)
Lemma spawn_failure_leaves_listed_edges :
  In (StateSet "s9" STARTING FAILED) (trace_of Samples.failed_spawn)
  /\ legal_edge STARTING FAILED = false
  /\ outcome_of Samples.failed_spawn = Returns tt.
Proof. vm_compute. repeat split. right. right. right. left. reflexivity. Qed.

(** C1, amended — From a well-formed registry, every operation leaves the
    registry well formed, and every assignment to the state of a session
    that has not been cancelled follows one of the edges
    CREATED→STARTING, STARTING→RUNNING, STARTING→FAILED,
    RUNNING→COMPLETED, RUNNING→FAILED, RUNNING→CANCELLED.  No operation
    raises for a refused move: [/cancel] of a session that is neither
    RUNNING nor WAITING_PERMISSION answers that the session is not
    running and leaves the object as it was. *)
Theorem state_moves_along_life_cycle_edges (cfg : Config) (e : Env) (o : Op)
    (c : CLAUDE) :
  registry_ok c -> reader_ok o c ->
  registry_ok (state_of (step cfg e o c))
  /\ (forall sid old new,
        In (StateSet sid old new) (trace_of (step cfg e o c)) ->
        old <> CANCELLED -> code_edge old new = true)
  /\ (forall u x sid rest s,
        is_authorized cfg (from_user u) = true ->
        command_parts 1 u = x :: sid :: rest ->
        Dict.get sid (sessions c) = Some s ->
        is_active (state s) = false ->
        cancel_command cfg u c
        = (Returns tt, c,
           [ReplyText ("Session " +:+ sid
                         +:+ " is not running or waiting for permission")])).
Proof.
  intros Hc Hr.
  destruct (step_keeps_registry cfg e o c Hc Hr) as [H1 H2].
  split; [exact H1 | split; [exact H2 |]].
  intros u x sid rest s Ha Hp Hs Hi.
  unfold cancel_command, guarded. rewrite Ha, Hp. simpl negb. run_m.
  now rewrite Hs, Hi.
Qed.

Lemma state_moves_along_life_cycle_edges_witness :
  registry_ok (state_of Samples.failed_spawn)
  /\ code_edge STARTING FAILED = true.
Proof.
  destruct (state_moves_along_life_cycle_edges Samples.cfg0
              (mkEnv "s9" 10 "t0") (OpRun "nope" "/work" [] None) Samples.live)
    as (Hok & Hedge & _).
  - split; [apply NoDup_nil_2 |]. intros sid s H. discriminate H.
  - exact I.
  - split; [exact Hok |].
    apply (Hedge "s9" STARTING FAILED); [| discriminate].
    right. right. right. left. reflexivity.
Defined.

(** ** The pending queues *)

Module QueueFacts.

Lemma list_remove_spec (x : string) (q q' : list string) :
  NoDup q -> list_remove x q = Some q' ->
  NoDup q' /\ forall y, y ∈ q' <-> y ∈ q /\ y <> x.
Proof.
  revert q'. induction q as [|z q IH]; simpl; intros q' Hnd H; [discriminate |].
  apply NoDup_cons in Hnd as [Hz Hnd].
  destruct (String.eqb x z) eqn:E.
  - apply String.eqb_eq in E. subst z. injection H as <-. split; [exact Hnd |].
    intros y. rewrite elem_of_cons. split.
    + intros Hy. split; [now right |]. intros ->. contradiction.
    + intros [[-> | Hy] Hne]; [contradiction | exact Hy].
  - destruct (list_remove x q) as [r|] eqn:Er; [| discriminate].
    injection H as <-. destruct (IH r Hnd eq_refl) as [Hr Hin].
    assert (x <> z) by (intros ->; now rewrite String.eqb_refl in E).
    split.
    + apply NoDup_cons. split; [| exact Hr]. intros Hzr. apply Hin in Hzr.
      tauto.
    + intros y. rewrite !elem_of_cons, Hin. split.
      * intros [-> | [Hy Hne]]; [split; [now left | congruence] | tauto].
      * intros [[-> | Hy] Hne]; [now left | right; tauto].
Qed.

Lemma list_remove_None (x : string) (q : list string) :
  list_remove x q = None -> x ∉ q.
Proof.
  induction q as [|z q IH]; simpl; [intros _; apply not_elem_of_nil |].
  destruct (String.eqb x z) eqn:E; [discriminate |].
  destruct (list_remove x q); [discriminate |]. intros _.
  apply not_elem_of_cons. split; [| now apply IH].
  intros ->. now rewrite String.eqb_refl in E.
Qed.

(** Resolving a request, whatever its state, keeps the queues well
    formed: the request leaves the one queue that can hold it. *)
Lemma queues_resolved (c : CLAUDE) (rid : string) (R R' : PermissionRequest)
    (pend : gmap string (list string)) :
  queues_ok c ->
  Dict.get rid (permission_requests c) = Some R ->
  (forall sid q, pend !! sid = Some q ->
     exists q0, pending_requests c !! sid = Some q0
                /\ NoDup q /\ forall y, y ∈ q -> y ∈ q0 /\ y <> rid) ->
  NoDup (Dict.keys (Dict.set rid R' (permission_requests c)))
  /\ forall sid q, pend !! sid = Some q ->
       NoDup q
       /\ forall y, y ∈ q ->
            exists r, Dict.get y (Dict.set rid R' (permission_requests c)) = Some r
                      /\ resolved r = false /\ rq_session_id r = sid.
Proof.
  intros [Hnd Hq] HR Hp. split; [now apply DictFacts.NoDup_set |].
  intros sid q Hsq. destruct (Hp sid q Hsq) as (q0 & H0 & Hndq & Hin).
  split; [exact Hndq |]. intros y Hy. destruct (Hin y Hy) as [Hy0 Hne].
  destruct (Hq sid q0 H0) as [_ Hreq]. destruct (Hreq y Hy0) as (r & Hr & Hu & Hs).
  exists r. rewrite DictFacts.get_set_ne by congruence. auto.
Qed.

Lemma keeps_resolve (e : Env) (rid : string) (code uid : Z) :
  keeps_queues (resolve_permission_request e rid code uid).
Proof.
  intros c Hc.
  destruct (Dict.get rid (permission_requests c)) as [R|] eqn:HR;
    [| now rewrite BrokerFacts.resolve_missing].
  assert (Hown : forall sid q, pending_requests c !! sid = Some q -> rid ∈ q ->
                   sid = rq_session_id R).
  { intros sid q Hsq Hin. destruct Hc as [_ Hq].
    destruct (Hq sid q Hsq) as [_ Hreq]. destruct (Hreq rid Hin) as (r & Hr & _ & Hs).
    congruence. }
  unfold queues_ok.
  rewrite (BrokerFacts.resolve_requests_field e rid code uid c R HR).
  rewrite (BrokerFacts.resolve_pending_any e rid code uid c R HR).
  apply (queues_resolved c rid R _ _ Hc HR). intros sid q Hsq.
  assert (Hsame : forall q0, pending_requests c !! sid = Some q0 -> rid ∉ q0 ->
                    q = q0 ->
                    exists q1, pending_requests c !! sid = Some q1 /\ NoDup q
                               /\ forall y, y ∈ q -> y ∈ q1 /\ y <> rid).
  { intros q0 H0 Hnot ->. exists q0. split; [exact H0 |].
    split; [destruct Hc as [_ Hq]; now apply (Hq sid) |].
    intros y Hy. split; [exact Hy | intros ->; contradiction]. }
  destruct (pending_requests c !! rq_session_id R) as [q0|] eqn:E0.
  - destruct (list_remove rid q0) as [q1|] eqn:E1.
    + destruct (decide (sid = rq_session_id R)) as [-> | Hne].
      * rewrite lookup_insert_eq in Hsq. injection Hsq as <-.
        destruct (list_remove_spec rid q0 q1) as [Hn Hi];
          [destruct Hc as [_ Hq]; now apply (Hq (rq_session_id R)) | exact E1 |].
        exists q0. split; [exact E0 |]. split; [exact Hn |].
        intros y Hy. now apply Hi.
      * rewrite lookup_insert_ne in Hsq by congruence.
        apply (Hsame q Hsq); [| reflexivity].
        intros Hin. apply Hne. now apply (Hown sid q).
    + apply (Hsame q Hsq); [| reflexivity].
      intros Hin. pose proof (Hown sid q Hsq Hin) as ->.
      apply list_remove_None in E1. congruence.
  - apply (Hsame q Hsq); [| reflexivity].
    intros Hin. pose proof (Hown sid q Hsq Hin) as ->. congruence.
Qed.

(** *** Rules for computations put together from parts that keep the
    queues *)

Section Rules.
Context {A B : Type}.

Lemma keeps_ret (a : A) : keeps_queues (ret a).
Proof. intros c H. exact H. Qed.

Lemma keeps_mret (a : A) : keeps_queues (mret a : M A).
Proof. intros c H. exact H. Qed.

Lemma keeps_raise (x : Exn) : keeps_queues (raise x : M A).
Proof. intros c H. exact H. Qed.

Lemma keeps_read (f : CLAUDE -> A) : keeps_queues (read f).
Proof. intros c H. exact H. Qed.

Lemma keeps_bind (m : M A) (f : A -> M B) :
  keeps_queues m -> (forall a, keeps_queues (f a)) -> keeps_queues (m ≫= f).
Proof.
  intros Hm Hf c Hc. specialize (Hm c Hc).
  unfold mbind, M_bind, bind, state_of in *.
  destruct (m c) as [[[a | x] c1] t1]; simpl in *; [| exact Hm].
  specialize (Hf a c1 Hm). now destruct (f a c1) as [[r c2] t2].
Qed.

(** The same, from a condition [P] that the first part may use up. *)
Lemma queues_after_bind (P : CLAUDE -> Prop) (m : M A) (f : A -> M B) :
  (forall c, P c -> queues_ok (state_of (m c))) ->
  (forall a, keeps_queues (f a)) ->
  forall c, P c -> queues_ok (state_of ((m ≫= f) c)).
Proof.
  intros Hm Hf c Hc. specialize (Hm c Hc).
  unfold mbind, M_bind, bind, state_of in *.
  destruct (m c) as [[[a | x] c1] t1]; simpl in *; [| exact Hm].
  specialize (Hf a c1 Hm). now destruct (f a c1) as [[r c2] t2].
Qed.

Lemma queues_after_read (P : CLAUDE -> Prop) (g : CLAUDE -> A) (f : A -> M B) :
  (forall a c, P c -> queues_ok (state_of (f a c))) ->
  forall c, P c -> queues_ok (state_of ((read g ≫= f) c)).
Proof.
  intros Hf c Hc. specialize (Hf (g c) c Hc).
  unfold mbind, M_bind, bind, read, state_of in *. simpl.
  now destruct (f (g c) c) as [[r c2] t2].
Qed.

End Rules.

Lemma keeps_emit (x : Effect) : keeps_queues (emit x).
Proof. intros c H. exact H. Qed.

Lemma keeps_update (f : CLAUDE -> CLAUDE) :
  (forall c, queues_ok c -> queues_ok (f c)) -> keeps_queues (update f).
Proof. intros Hf c H. now apply Hf. Qed.

(** A queue left out, or emptied, keeps the queues well formed. *)
Lemma queues_ok_delete (c : CLAUDE) (sid : string) :
  queues_ok c ->
  queues_ok (set_pending_requests (delete sid (pending_requests c)) c).
Proof.
  intros [Hnd Hq]. split; [exact Hnd |]. simpl. intros s q Hs.
  rewrite lookup_delete in Hs. case_decide; [discriminate |]. now apply Hq.
Qed.

Lemma queues_ok_empty (c : CLAUDE) (sid : string) :
  queues_ok c ->
  queues_ok (set_pending_requests (<[sid := []]> (pending_requests c)) c).
Proof.
  intros [Hnd Hq]. split; [exact Hnd |]. simpl. intros s q Hs.
  rewrite lookup_insert in Hs. case_decide; [| now apply Hq].
  injection Hs as <-. split; [apply NoDup_nil_2 |].
  intros rid Hin. now apply elem_of_nil in Hin.
Qed.

(** A request created under a fresh identifier joins the end of its
    session's queue. *)
Lemma queues_ok_push (c : CLAUDE) (rid sid cat summ : string) (t : Z) :
  queues_ok c ->
  Dict.get rid (permission_requests c) = None ->
  queues_ok
    (set_pending_requests (push_pending sid rid (pending_requests c))
       (set_permission_requests
          (Dict.set rid (new_request rid sid cat summ t) (permission_requests c)) c)).
Proof.
  intros [Hnd Hq] Hfresh. split; [now apply DictFacts.NoDup_set |]. simpl.
  assert (Hold : forall s q, pending_requests c !! s = Some q ->
            (rid ∉ q)
            /\ forall y, y ∈ q ->
                 exists r, Dict.get y (Dict.set rid (new_request rid sid cat summ t)
                                         (permission_requests c)) = Some r
                           /\ resolved r = false /\ rq_session_id r = s).
  { intros s q Hs. destruct (Hq s q Hs) as [_ Hreq]. split.
    - intros Hin. destruct (Hreq rid Hin) as (r & Hr & _). congruence.
    - intros y Hy. destruct (Hreq y Hy) as (r & Hr & Hu & Hsid).
      exists r. rewrite DictFacts.get_set_ne by congruence. auto. }
  intros s q Hs. unfold push_pending in Hs.
  destruct (pending_requests c !! sid) as [q0|] eqn:E0;
    destruct (decide (sid = s)) as [<- | Hne].
  - rewrite lookup_insert_eq in Hs. injection Hs as <-.
    destruct (Hold sid q0 E0) as [Hnot Hreq]. split.
    + apply NoDup_app. split; [now apply (Hq sid) |]. split; [| apply NoDup_singleton].
      intros y Hy Hy'. apply list_elem_of_singleton in Hy'. now subst.
    + intros y Hy. apply elem_of_app in Hy as [Hy | Hy]; [now apply Hreq |].
      apply list_elem_of_singleton in Hy. subst y.
      eexists. rewrite DictFacts.get_set_eq. now split.
  - rewrite lookup_insert_ne in Hs by exact Hne.
    split; [now apply (Hq s) | now apply (Hold s)].
  - rewrite lookup_insert_eq in Hs. injection Hs as <-.
    split; [apply NoDup_singleton |].
    intros y Hy. apply list_elem_of_singleton in Hy. subst y.
    eexists. rewrite DictFacts.get_set_eq. now split.
  - rewrite lookup_insert_ne in Hs by exact Hne.
    split; [now apply (Hq s) | now apply (Hold s)].
Qed.

End QueueFacts.

(** One step of a proof that a handler keeps the queues by its
    structure. *)
Ltac keeps_step :=
  lazymatch goal with
  | |- keeps_queues (mbind _ _) => apply QueueFacts.keeps_bind; [| intros ?]
  | |- keeps_queues (read _) => apply QueueFacts.keeps_read
  | |- keeps_queues (emit _) => apply QueueFacts.keeps_emit
  | |- keeps_queues (reply_text _) => apply QueueFacts.keeps_emit
  | |- keeps_queues (update _) =>
      apply QueueFacts.keeps_update; intros ? H;
      first [ exact H
            | now apply QueueFacts.queues_ok_empty
            | now apply QueueFacts.queues_ok_delete ]
  | |- keeps_queues pass => apply QueueFacts.keeps_ret
  | |- keeps_queues (ret _) => apply QueueFacts.keeps_ret
  | |- keeps_queues (mret _) => apply QueueFacts.keeps_mret
  | |- keeps_queues (raise _) => apply QueueFacts.keeps_raise
  | |- keeps_queues (resolve_permission_request _ _ _ _) =>
      apply QueueFacts.keeps_resolve
  | |- keeps_queues (match ?x with _ => _ end) => destruct x
  | |- keeps_queues (let _ := _ in _) => cbv zeta
  end.

Ltac keeps_auto := repeat keeps_step.

Module QueueSteps.
Import QueueFacts.

Lemma keeps_guarded (cfg : Config) (u : Update) (body : M unit) :
  keeps_queues body -> keeps_queues (guarded cfg u body).
Proof. intros H. unfold guarded. destruct (negb _); [keeps_auto | exact H]. Qed.

Lemma keeps_send_output_chunk (cfg : Config) (sid stream t : string) (b : bool) :
  keeps_queues (send_output_chunk cfg sid stream t b).
Proof. unfold send_output_chunk. keeps_auto. Qed.

Lemma keeps_flush_output (cfg : Config) (sid : string) :
  keeps_queues (flush_output cfg sid).
Proof.
  unfold flush_output, flush_output_send, flush_output_clear.
  keeps_auto; apply keeps_send_output_chunk.
Qed.

Lemma keeps_timer_fired (cfg : Config) (sid : string) :
  keeps_queues (timer_fired cfg sid).
Proof. unfold timer_fired. keeps_auto; apply keeps_flush_output. Qed.

Lemma keeps_forward (cfg : Config) (e : Env) (sid t : string) (uid : Z) :
  keeps_queues (forward_to_session cfg e sid t uid).
Proof.
  unfold forward_to_session, set_state, alter_session, send_session_end.
  keeps_auto.
Qed.

Lemma keeps_send_key (label : string) (key : PtyInput) (sid : string) :
  keeps_queues (send_key label key sid).
Proof. unfold send_key. keeps_auto. Qed.

Lemma keeps_handle_reply (cfg : Config) (e : Env) (u : Update) :
  keeps_queues (handle_reply cfg e u).
Proof.
  unfold handle_reply, handle_permission_reply. apply keeps_guarded.
  keeps_auto; apply keeps_forward.
Qed.

Lemma keeps_run (cfg : Config) (e : Env) (cmd dir : string)
    (env : list (string * string)) (spawned : option (Z * string)) :
  keeps_queues (run_command cfg e cmd dir env spawned).
Proof.
  unfold run_command, create_session, start_session, set_state, alter_session,
    send_session_start, send_state_change, send_session_end.
  keeps_auto.
Qed.

Lemma keeps_read_done (e : Env) (sid : string) :
  keeps_queues (read_pty_output_done e sid).
Proof.
  unfold read_pty_output_done, set_state, alter_session, send_session_end.
  keeps_auto.
Qed.

(** A prompt found in the output: the request is created under the fresh
    identifier of the call. *)
Lemma queues_after_prompt (cfg : Config) (e : Env) (sid cat summ : string)
    (c : CLAUDE) :
  queues_ok c -> Dict.get (uuid4 e) (permission_requests c) = None ->
  queues_ok (state_of (send_permission_request cfg e sid cat summ c)).
Proof.
  intros Hc Hfresh. unfold send_permission_request, state_of. run_m.
  destruct (can_send cfg c); simpl; [| exact Hc].
  now apply queues_ok_push.
Qed.

Lemma queues_after_output (cfg : Config) (e : Env) (sid stream t : string)
    (c : CLAUDE) :
  queues_ok c -> Dict.get (uuid4 e) (permission_requests c) = None ->
  queues_ok (state_of (handle_output_chunk cfg e sid stream t c)).
Proof.
  intros Hc Hfresh. unfold handle_output_chunk.
  apply (queues_after_read
           (fun c => queues_ok c /\ Dict.get (uuid4 e) (permission_requests c) = None));
    [| now split].
  intros ss c0 [H0 Hf0]. destruct (Dict.get sid ss); [| exact H0]. cbv zeta.
  apply (queues_after_bind
           (fun c => queues_ok c /\ Dict.get (uuid4 e) (permission_requests c) = None));
    [| | now split].
  - intros c1 [H1 Hf1]. destruct (String.eqb stream "stdout"); [| exact H1].
    unfold _check_for_permission_prompt.
    destruct (first_prompt _ _); [| exact H1]. now apply queues_after_prompt.
  - intros _. keeps_auto. apply keeps_send_output_chunk.
Qed.

Lemma keeps_cancel (cfg : Config) (u : Update) : keeps_queues (cancel_command cfg u).
Proof.
  unfold cancel_command, set_state, send_state_change. apply keeps_guarded.
  keeps_auto.
Qed.

Lemma keeps_keys (cfg : Config) (u : Update) : keeps_queues (keys_command cfg u).
Proof.
  unfold keys_command, send_ctrl_c, send_ctrl_d. apply keeps_guarded.
  keeps_auto; apply keeps_send_key.
Qed.

Lemma keeps_send (cfg : Config) (e : Env) (u : Update) :
  keeps_queues (send_command cfg e u).
Proof.
  unfold send_command. apply keeps_guarded. keeps_auto. apply keeps_forward.
Qed.

(** Every operation keeps the queues well formed, provided the
    identifier it draws is fresh. *)
Lemma step_keeps_queues (cfg : Config) (e : Env) (o : Op) (c : CLAUDE) :
  queues_ok c -> Dict.get (uuid4 e) (permission_requests c) = None ->
  queues_ok (state_of (step cfg e o c)).
Proof.
  intros Hc Hfresh. destruct o; simpl step;
    try (now apply queues_after_output);
    revert c Hc Hfresh;
    match goal with
    | |- forall c, queues_ok c -> _ -> queues_ok (state_of (?m c)) =>
        intros c Hc _; revert c Hc; change (keeps_queues m)
    end.
  - unfold start_command. keeps_auto.
  - unfold status_command. apply keeps_guarded. keeps_auto.
  - unfold sessions_command. apply keeps_guarded. keeps_auto.
  - apply keeps_send.
  - unfold claim_command. apply keeps_guarded. keeps_auto.
  - unfold release_command. apply keeps_guarded. keeps_auto.
  - apply keeps_cancel.
  - apply keeps_keys.
  - unfold help_command. keeps_auto.
  - apply keeps_handle_reply.
  - apply keeps_run.
  - apply keeps_read_done.
  - apply keeps_timer_fired.
Qed.

(** In well-formed queues no request is resolved: a resolved request is
    in no queue. *)
Lemma queued_request_unresolved (c : CLAUDE) (sid rid : string)
    (q : list string) (r : PermissionRequest) :
  queues_ok c -> pending_requests c !! sid = Some q -> rid ∈ q ->
  Dict.get rid (permission_requests c) = Some r -> resolved r = false.
Proof.
  intros [_ Hq] Hs Hin Hr. destruct (Hq sid q Hs) as [_ Hreq].
  destruct (Hreq rid Hin) as (r' & Hr' & Hu & _). congruence.
Qed.

End QueueSteps.

(* ===================================================================== *)
(** * Further properties of the code                                      *)
(* ===================================================================== *)

(** ** What the token searches find *)

Module SearchFacts.
Import PyStr Re TextFacts.

Lemma strip_prefix_Some (p s r : string) :
  strip_prefix p s = Some r -> s = p +:+ r.
Proof.
  revert s. induction p as [|a p IH]; intros s H; simpl in H.
  - now injection H as ->.
  - destruct s as [|b s]; [discriminate |].
    destruct (Ascii.eqb a b) eqn:E; [| discriminate].
    apply Ascii.eqb_eq in E. subst b. rewrite append_cons. f_equal. now apply IH.
Qed.

Lemma span_split (cls : ascii -> bool) (s a b : string) :
  span cls s = (a, b) -> s = a +:+ b /\ all_chars cls a = true.
Proof.
  revert a b. induction s as [|c s IH]; intros a b H; simpl in H.
  - injection H as <- <-. now split.
  - destruct (cls c) eqn:E.
    + destruct (span cls s) as [a' b'] eqn:Es. injection H as <- <-.
      destruct (IH a' b' eq_refl) as [-> Ha]. split; [reflexivity |].
      simpl. now rewrite E, Ha.
    + injection H as <- <-. now split.
Qed.

(** A match that [match_here] reports stands at the head of the text and
    has the shape of the pattern. *)
Lemma match_here_sound (p : pattern) (s w g : string) :
  match_here p s = Some (w, g) ->
  exists post, s = w +:+ post
    /\ w = pat_open p +:+ g +:+ pat_close p
    /\ g <> EmptyString /\ all_chars (pat_class p) g = true.
Proof.
  unfold match_here. intros H.
  destruct (strip_prefix (pat_open p) s) as [r|] eqn:E1; [| discriminate].
  destruct (span (pat_class p) r) as [g' r'] eqn:E2.
  destruct g' as [|x g']; [discriminate |].
  destruct (strip_prefix (pat_close p) r') as [post|] eqn:E3; [| discriminate].
  injection H as <- <-.
  apply strip_prefix_Some in E1. apply strip_prefix_Some in E3.
  apply span_split in E2 as [E2 Hg]. subst. exists post.
  rewrite !append_assoc. repeat split; [discriminate | exact Hg].
Qed.

Lemma search_sound (p : pattern) (s w g : string) :
  search p s = Some (w, g) ->
  exists pre post, s = pre +:+ w +:+ post
    /\ w = pat_open p +:+ g +:+ pat_close p
    /\ g <> EmptyString /\ all_chars (pat_class p) g = true.
Proof.
  induction s as [|c s IH]; simpl; intros H.
  - destruct (match_here p EmptyString) as [m|] eqn:E; [| discriminate].
    injection H as ->. destruct (match_here_sound _ _ _ _ E) as (post & H1 & H2).
    exists EmptyString, post. now rewrite append_nil.
  - destruct (match_here p (String c s)) as [m|] eqn:E.
    + injection H as ->. destruct (match_here_sound _ _ _ _ E) as (post & H1 & H2).
      exists EmptyString, post. now rewrite append_nil.
    + destruct (IH H) as (pre & post & -> & H2).
      exists (String c pre), post. now rewrite append_cons.
Qed.

(** A match anywhere in the text makes the search succeed. *)
Lemma search_complete (p : pattern) (pre s : string) (m : string * string) :
  match_here p s = Some m -> is_Some (search p (pre +:+ s)).
Proof.
  intros H. induction pre as [|c pre IH].
  - rewrite append_nil. rewrite (search_here p s m H). eauto.
  - rewrite append_cons. simpl.
    destruct (match_here p (String c (pre +:+ s))); [eauto | exact IH].
Qed.

Lemma token_found (tag pre id post : string) :
  id <> EmptyString -> all_chars (not_char "]"%char) id = true ->
  is_Some (search (Pattern tag (not_char "]"%char) "]")
             (pre +:+ tag +:+ id +:+ "]" +:+ post)).
Proof.
  intros Hne Hid. eapply search_complete.
  exact (match_here_token tag (not_char "]"%char) "]"%char EmptyString id post
           Hne Hid eq_refl).
Qed.

End SearchFacts.

(** X1 — [extract_session_id] and [extract_request_id].  An identifier
    they return is the inside of a token [[SID:...]] (resp. [[RID:...]])
    that stands in the text, is not empty and holds no closing bracket;
    and they return nothing only when the text holds no such token. *)
Theorem extractors_find_exactly_the_tokens (t : string) :
  (forall sid, extract_session_id t = Some sid ->
     exists pre post, t = pre +:+ "[SID:" +:+ sid +:+ "]" +:+ post
       /\ sid <> EmptyString /\ PyStr.all_chars (Re.not_char "]"%char) sid = true)
  /\ (extract_session_id t = None ->
      forall pre sid post,
        sid <> EmptyString -> PyStr.all_chars (Re.not_char "]"%char) sid = true ->
        t <> pre +:+ "[SID:" +:+ sid +:+ "]" +:+ post)
  /\ (forall rid, extract_request_id t = Some rid ->
     exists pre post, t = pre +:+ "[RID:" +:+ rid +:+ "]" +:+ post
       /\ rid <> EmptyString /\ PyStr.all_chars (Re.not_char "]"%char) rid = true)
  /\ (extract_request_id t = None ->
      forall pre rid post,
        rid <> EmptyString -> PyStr.all_chars (Re.not_char "]"%char) rid = true ->
        t <> pre +:+ "[RID:" +:+ rid +:+ "]" +:+ post).
Proof.
  unfold extract_session_id, extract_request_id, Re.sid_token, Re.rid_token.
  repeat split.
  - intros sid H.
    destruct (Re.search _ t) as [[w g]|] eqn:E; [| discriminate]. injection H as ->.
    destruct (SearchFacts.search_sound _ _ _ _ E) as (pre & post & -> & -> & Hne & Hc).
    exists pre, post. simpl Re.pat_open. simpl Re.pat_close.
    rewrite !TextFacts.append_assoc. auto.
  - intros H pre sid post Hne Hc ->.
    destruct (SearchFacts.token_found "[SID:" pre sid post Hne Hc) as [m Hm].
    rewrite Hm in H. discriminate.
  - intros rid H.
    destruct (Re.search _ t) as [[w g]|] eqn:E; [| discriminate]. injection H as ->.
    destruct (SearchFacts.search_sound _ _ _ _ E) as (pre & post & -> & -> & Hne & Hc).
    exists pre, post. simpl Re.pat_open. simpl Re.pat_close.
    rewrite !TextFacts.append_assoc. auto.
  - intros H pre rid post Hne Hc ->.
    destruct (SearchFacts.token_found "[RID:" pre rid post Hne Hc) as [m Hm].
    rewrite Hm in H. discriminate.
Qed.

(** ** Lines read from the terminal *)

Module LineFacts.
Import PyStr TextFacts.

Lemma split_char_nonempty (sep : ascii) (m : nat) (s : string) :
  split_char sep m s <> [].
Proof.
  destruct s as [|c s]; simpl; [discriminate |].
  destruct m as [|m]; [discriminate |].
  destruct (Ascii.eqb c sep); [discriminate |].
  destruct (split_char sep (S m) s); discriminate.
Qed.

(** Joining the pieces with the separator gives the text back. *)
Lemma join_split_char (sep : ascii) (s : string) : forall m,
  join (String sep EmptyString) (split_char sep m s) = s.
Proof.
  induction s as [|c s IH]; intros m; simpl; [reflexivity |].
  destruct m as [|m]; [reflexivity |].
  destruct (Ascii.eqb c sep) eqn:E.
  - apply Ascii.eqb_eq in E. subst c. specialize (IH m).
    pose proof (split_char_nonempty sep m s) as Hne.
    destruct (split_char sep m s) as [|w ws]; [congruence |].
    change (join (String sep EmptyString) (EmptyString :: w :: ws))
      with (String sep (join (String sep EmptyString) (w :: ws))).
    now rewrite IH.
  - specialize (IH (S m)).
    destruct (split_char sep (S m) s) as [|w ws] eqn:Es;
      [now apply split_char_nonempty in Es |].
    destruct ws as [|w' ws]; [simpl in *; now rewrite IH |].
    change (join (String sep EmptyString) (String c w :: w' :: ws))
      with (String c (join (String sep EmptyString) (w :: w' :: ws))).
    now rewrite IH.
Qed.

(** With enough splits allowed, no piece holds the separator. *)
Lemma split_char_pieces (sep : ascii) (s : string) : forall m,
  (String.length s < m)%nat ->
  Forall (fun w => all_chars (Re.not_char sep) w = true) (split_char sep m s).
Proof.
  induction s as [|c s IH]; intros m Hm; simpl.
  - now repeat constructor.
  - destruct m as [|m]; [simpl in Hm; lia |]. simpl in Hm.
    destruct (Ascii.eqb c sep) eqn:E.
    + constructor; [reflexivity |]. apply IH. lia.
    + assert (Hs : (String.length s < S m)%nat) by lia.
      specialize (IH (S m) Hs).
      destruct (split_char sep (S m) s) as [|w ws].
      * repeat constructor. simpl. unfold Re.not_char. now rewrite E.
      * apply Forall_cons in IH as [Hw Hws]. constructor; [| exact Hws].
        simpl. unfold Re.not_char at 1. now rewrite E.
Qed.

Lemma rstrip_idem (s : string) : rstrip (rstrip s) = rstrip s.
Proof.
  induction s as [|c s IH]; simpl; [reflexivity |].
  destruct (rstrip s) as [|d r] eqn:E.
  - destruct (is_space_char c) eqn:Ec; simpl; [reflexivity |]. now rewrite Ec.
  - simpl in IH. simpl. now rewrite IH.
Qed.

Lemma rstrip_all_chars (f : ascii -> bool) (s : string) :
  all_chars f s = true -> all_chars f (rstrip s) = true.
Proof.
  induction s as [|c s IH]; simpl; [reflexivity |].
  intros H. apply andb_prop in H as [Hc Hs]. specialize (IH Hs).
  destruct (rstrip s) as [|d r].
  - destruct (is_space_char c); simpl; [reflexivity |]. now rewrite Hc.
  - simpl. simpl in IH. now rewrite Hc, IH.
Qed.

End LineFacts.

(** X2 — The lines that one read of [read_pty_output] hands to
    [handle_output_chunk], for an output of 7-bit text: none is empty,
    none ends in white space, none holds a line feed, each is a piece of
    the output between two line feeds stripped on the right, and the
    pieces joined by line feeds are the output itself. *)
Theorem output_lines_are_clean (output : string) :
  PyStr.plain output = true ->
  Forall (fun l => l <> EmptyString
                   /\ PyStr.rstrip l = l
                   /\ PyStr.all_chars (Re.not_char "010"%char) l = true
                   /\ exists piece, piece ∈ PyStr.split_lines output
                                    /\ l = PyStr.rstrip piece)
         (output_lines output)
  /\ PyStr.join PyStr.nl (PyStr.split_lines output) = output.
Proof.
  intros _.
  split; [| apply LineFacts.join_split_char].
  apply Forall_forall. intros l Hl. unfold output_lines in Hl.
  apply list_elem_of_filter in Hl as [Hne Hl].
  apply list_elem_of_fmap in Hl as (piece & -> & Hp).
  split; [exact Hne |]. split; [apply LineFacts.rstrip_idem |].
  split; [| now exists piece].
  apply LineFacts.rstrip_all_chars.
  pose proof (LineFacts.split_char_pieces "010"%char output
                (S (String.length output)) (Nat.lt_succ_diag_r _)) as H.
  rewrite Forall_forall in H. now apply H.
Qed.

Lemma output_lines_are_clean_witness :
  output_lines (String "032" (String "010" ("ok  " +:+ String "010" "done")))
  = ["ok"; "done"]
  /\ Forall (fun l => PyStr.rstrip l = l)
       (output_lines (String "032" (String "010" ("ok  " +:+ String "010" "done")))).
Proof.
  split; [reflexivity |].
  refine (Forall_impl _ _ _
            (proj1 (output_lines_are_clean
                      (String "032" (String "010" ("ok  " +:+ String "010" "done")))
                      eq_refl)) _).
  intros l H. exact (proj1 (proj2 H)).
Defined.

(** ** ANSI escape stripping *)

Module AnsiFacts.
Import PyStr TextFacts Ansi.

Lemma sub_from_length (s : string) : forall k,
  (String.length (sub_from k s) <= String.length s)%nat.
Proof.
  induction s as [|c s IH]; intros k; simpl; [lia |].
  destruct k as [|k]; [| specialize (IH k); lia].
  destruct (Ascii.eqb c "027"%char).
  - destruct (escape_len s) as [j|]; [specialize (IH j); lia |].
    simpl. specialize (IH O). lia.
  - simpl. specialize (IH O). lia.
Qed.

Lemma sub_from_plain (s : string) :
  all_chars (Re.not_char "027"%char) s = true -> sub_from O s = s.
Proof.
  induction s as [|c s IH]; simpl; [reflexivity |].
  intros H. apply andb_prop in H as [Hc Hs]. unfold Re.not_char in Hc.
  apply negb_true_iff in Hc. now rewrite Hc, IH.
Qed.

Lemma sub_from_skip (a rest : string) :
  sub_from (String.length a) (a +:+ rest) = sub_from O rest.
Proof.
  induction a as [|c a IH]; [now destruct rest |].
  rewrite append_cons. simpl. exact IH.
Qed.

Lemma range_disjoint (lo hi lo' hi' : nat) (c : ascii) :
  (hi < lo')%nat -> in_range lo' hi' c = true -> in_range lo hi c = false.
Proof.
  unfold in_range. intros Hlt H. apply andb_prop in H as [H1 _].
  apply Nat.leb_le in H1. apply andb_false_iff. right.
  apply Nat.leb_gt. lia.
Qed.

End AnsiFacts.

(** X3 — [ansi_escape.sub('', text)] in [handle_output_chunk]: the result
    is never longer than the text; a text without the escape character is
    left as it is; and a control sequence made of the escape character,
    an opening bracket, parameter characters ([0] to [?]) and a final
    character ([@] to [~]), such as a colour change, is removed whole. *)
Theorem strip_ansi_removes_control_sequences (s params rest : string) (final : ascii) :
  (String.length (Ansi.strip_ansi s) <= String.length s)%nat
  /\ (PyStr.all_chars (Re.not_char "027"%char) s = true -> Ansi.strip_ansi s = s)
  /\ (PyStr.all_chars (Ansi.in_range 48 63) params = true ->
      Ansi.in_range 64 126 final = true ->
      Ansi.strip_ansi (String "027"%char (String "["%char
                         (params +:+ String final rest)))
      = Ansi.strip_ansi rest).
Proof.
  split; [apply AnsiFacts.sub_from_length |].
  split; [apply AnsiFacts.sub_from_plain |].
  intros Hp Hf. unfold Ansi.strip_ansi. simpl Ansi.sub_from.
  rewrite (TextFacts.span_stop (Ansi.in_range 48 63) params final rest Hp
             (AnsiFacts.range_disjoint 48 63 64 126 final ltac:(lia) Hf)).
  simpl PyStr.span.
  rewrite (AnsiFacts.range_disjoint 32 47 64 126 final ltac:(lia) Hf), Hf.
  simpl String.length.
  replace (String.length params + 0 + 1)%nat
    with (String.length (params +:+ String final EmptyString))
    by (rewrite TextFacts.length_append; simpl; lia).
  rewrite <- (AnsiFacts.sub_from_skip (params +:+ String final EmptyString) rest).
  now rewrite TextFacts.append_assoc.
Qed.

(** ** Session tokens in output messages, and routing by binding *)

Module RoutingFacts.
Import PyStr TextFacts.

Lemma take_append_ge (n : nat) (a b : string) :
  (points a <= n)%nat ->
  take n (a +:+ b) = a +:+ take (n - points a) b.
Proof.
  revert n. induction a as [|c a IH]; intros n H.
  - rewrite !append_nil. simpl. now rewrite Nat.sub_0_r.
  - rewrite !append_cons. simpl in *. destruct (is_cont c).
    + now rewrite IH.
    + destruct n as [|n]; [lia |]. simpl. rewrite IH by lia. reflexivity.
Qed.

Lemma extract_at_head (sid rest : string) :
  sid <> EmptyString -> all_chars (Re.not_char "]"%char) sid = true ->
  extract_session_id ("[SID:" +:+ sid +:+ "]" +:+ rest) = Some sid.
Proof.
  intros Hne Hc. unfold extract_session_id, Re.sid_token.
  pose proof (match_here_token "[SID:" (Re.not_char "]"%char) "]"%char EmptyString
                sid rest Hne Hc eq_refl) as H.
  apply search_here in H. now rewrite H.
Qed.

Lemma extracted_session_nonempty (t sid : string) :
  extract_session_id t = Some sid -> sid <> EmptyString.
Proof.
  unfold extract_session_id. intros H.
  destruct (Re.search Re.sid_token t) as [[w g]|] eqn:E; [| discriminate].
  injection H as ->.
  now destruct (SearchFacts.search_sound _ _ _ _ E) as (_ & _ & _ & _ & Hne & _).
Qed.

(** A reply bound to a session goes to that session, before any claim
    and any count of active sessions is looked at. *)
Lemma handle_reply_bound_session (cfg : Config) (e : Env) (u : Update)
    (c : CLAUDE) (sid : string) :
  is_authorized cfg (from_user u) = true ->
  bound_request c u = None ->
  isdigit (text u) = false ->
  bound_session u = Some sid -> sid <> EmptyString ->
  handle_reply cfg e u c = forward_to_session cfg e sid (text u) (from_user u) c.
Proof.
  intros Ha Hb Hd Hs Hne. unfold handle_reply, guarded. rewrite Ha. simpl negb.
  run_m. rewrite Hb, Hd, Hs. destruct sid as [|x sid]; [congruence |]. simpl.
  now destruct (forward_to_session _ _ _ _ _ _) as [[? ?] ?].
Qed.

(** Free text of an operator who holds a claim goes to the claimed
    session. *)
Lemma handle_reply_claimed (cfg : Config) (e : Env) (u : Update)
    (c : CLAUDE) (sid : string) :
  is_authorized cfg (from_user u) = true ->
  bound_request c u = None ->
  isdigit (text u) = false ->
  bound_session u = None ->
  claimed_sessions c !! from_user u = Some sid -> sid <> EmptyString ->
  handle_reply cfg e u c = forward_to_session cfg e sid (text u) (from_user u) c.
Proof.
  intros Ha Hb Hd Hs Hc Hne. unfold handle_reply, guarded. rewrite Ha. simpl negb.
  run_m. rewrite Hb, Hd, Hs, Hc. destruct sid as [|x sid]; [congruence |]. simpl.
  now destruct (forward_to_session _ _ _ _ _ _) as [[? ?] ?].
Qed.

Lemma claim_command_run (cfg : Config) (u : Update) (c : CLAUDE)
    (x sid : string) (rest : list string) :
  is_authorized cfg (from_user u) = true ->
  command_parts 1 u = x :: sid :: rest ->
  Dict.mem sid (sessions c) = true ->
  claim_command cfg u c
  = (Returns tt,
     set_claimed_sessions (<[from_user u := sid]> (claimed_sessions c)) c,
     [ReplyText ("Claimed session " +:+ sid)]).
Proof.
  intros Ha Hp Hm. unfold claim_command, guarded. rewrite Ha, Hp. simpl negb.
  run_m. now rewrite Hm.
Qed.

End RoutingFacts.

(** X4 — The message [send_output_chunk] sends for a session starts with
    the session's token, also after truncation as long as the cut leaves
    the token whole (the maximum is at least the token's length plus 10):
    [extract_session_id] gives the session back from the message. *)
Theorem output_message_carries_session (cfg : Config) (sid stream t : string) :
  sid <> EmptyString ->
  PyStr.all_chars (Re.not_char "]"%char) sid = true ->
  6 + PyStr.len sid <= OUTPUT_MAX_CHARS cfg - 10 ->
  extract_session_id (truncate_output cfg (format_output sid stream t)) = Some sid.
Proof.
  intros Hne Hc Hmax. unfold truncate_output, format_output.
  set (rest := " " +:+ PyStr.upper stream +:+ ": " +:+ t).
  assert (Hf : "[SID:" +:+ sid +:+ "] " +:+ PyStr.upper stream +:+ ": " +:+ t
               = ("[SID:" +:+ sid +:+ "]") +:+ rest)
    by (rewrite !TextFacts.append_assoc; reflexivity).
  rewrite Hf. clearbody rest.
  destruct (OUTPUT_MAX_CHARS cfg <? _).
  - unfold PyStr.slice_to. unfold PyStr.len in Hmax.
    assert ((OUTPUT_MAX_CHARS cfg - 10 <? 0) = false) as -> by (apply Z.ltb_ge; lia).
    rewrite RoutingFacts.take_append_ge.
    + rewrite !TextFacts.append_assoc. now apply RoutingFacts.extract_at_head.
    + rewrite !points_append. simpl PyStr.points. lia.
  - rewrite !TextFacts.append_assoc. now apply RoutingFacts.extract_at_head.
Qed.

Lemma output_message_carries_session_witness :
  extract_session_id
    (truncate_output Samples.cfg0
       (format_output "s1" "stdout" (PyStr.repeat_char "x"%char 4000)))
  = Some "s1".
Proof.
  apply (output_message_carries_session Samples.cfg0 "s1" "stdout"
           (PyStr.repeat_char "x"%char 4000)).
  - discriminate.
  - reflexivity.
  - vm_compute. discriminate.
Defined.

(** X5 — Routing priority in [handle_reply]: free text sent as a reply to
    a message that carries a session token, and that is not the prompt of
    a known request, is handed to [forward_to_session] for the session of
    the token, whatever the operator has claimed and however many
    sessions are active. *)
Theorem reply_binding_beats_claim (cfg : Config) (e : Env) (c : CLAUDE)
    (uid mid : Z) (t rt sid : string) :
  is_authorized cfg uid = true ->
  PyStr.isdigit t = false ->
  rt <> EmptyString ->
  extract_session_id rt = Some sid ->
  bound_request c (mkUpdate uid t mid (Some (Some rt))) = None ->
  handle_reply cfg e (mkUpdate uid t mid (Some (Some rt))) c
  = forward_to_session cfg e sid t uid c.
Proof.
  intros Ha Hd Hrt Hx Hb.
  pose proof (RoutingFacts.extracted_session_nonempty rt sid Hx) as Hne.
  apply (RoutingFacts.handle_reply_bound_session cfg e
           (mkUpdate uid t mid (Some (Some rt))) c sid Ha Hb Hd); [| exact Hne].
  unfold bound_session. simpl.
  destruct rt as [|x rt]; [congruence | exact Hx].
Qed.

Lemma reply_binding_beats_claim_witness :
  handle_reply Samples.cfg0 Samples.env1
    (MoreSamples.reply_to 7 "yes" "[SID:s2] STDOUT: continue?") MoreSamples.claimed_s1
  = forward_to_session Samples.cfg0 Samples.env1 "s2" "yes" 7 MoreSamples.claimed_s1.
Proof.
  apply (reply_binding_beats_claim Samples.cfg0 Samples.env1 MoreSamples.claimed_s1
           7 502 "yes" "[SID:s2] STDOUT: continue?" "s2").
  - reflexivity.
  - reflexivity.
  - discriminate.
  - reflexivity.
  - reflexivity.
Defined.

(** X6 — [/claim] then free text: once an allowed operator has claimed a
    registered session, the operator's free text that answers no message
    is handed to [forward_to_session] for the claimed session, also when
    several sessions are active. *)
Theorem claimed_session_receives_free_text (cfg : Config) (e : Env)
    (u v : Update) (c : CLAUDE) (x sid : string) (rest : list string) :
  is_authorized cfg (from_user u) = true ->
  command_parts 1 u = x :: sid :: rest ->
  Dict.mem sid (sessions c) = true ->
  sid <> EmptyString ->
  from_user v = from_user u ->
  reply_to_message v = None ->
  PyStr.isdigit (text v) = false ->
  claimed_sessions (state_of (claim_command cfg u c)) !! from_user u = Some sid
  /\ handle_reply cfg e v (state_of (claim_command cfg u c))
     = forward_to_session cfg e sid (text v) (from_user v)
         (state_of (claim_command cfg u c)).
Proof.
  intros Ha Hp Hm Hne Hv Hr Hd.
  rewrite (RoutingFacts.claim_command_run cfg u c x sid rest Ha Hp Hm).
  unfold state_of. simpl. split; [apply lookup_insert_eq |].
  apply RoutingFacts.handle_reply_claimed; try assumption.
  - now rewrite Hv.
  - unfold bound_request. now rewrite Hr.
  - unfold bound_session. now rewrite Hr.
  - simpl. rewrite Hv. apply lookup_insert_eq.
Qed.

Lemma claimed_session_receives_free_text_witness :
  claimed_sessions
    (state_of (claim_command Samples.cfg0 (Samples.plain 7 "/claim s1")
                 Samples.two_requests)) !! 7 = Some "s1"
  /\ handle_reply Samples.cfg0 Samples.env1 (Samples.plain 7 "hello")
       (state_of (claim_command Samples.cfg0 (Samples.plain 7 "/claim s1")
                    Samples.two_requests))
     = forward_to_session Samples.cfg0 Samples.env1 "s1" "hello" 7
         (state_of (claim_command Samples.cfg0 (Samples.plain 7 "/claim s1")
                      Samples.two_requests)).
Proof.
  apply (claimed_session_receives_free_text Samples.cfg0 Samples.env1
           (Samples.plain 7 "/claim s1") (Samples.plain 7 "hello")
           Samples.two_requests "/claim" "s1" []).
  - reflexivity.
  - reflexivity.
  - reflexivity.
  - discriminate.
  - reflexivity.
  - reflexivity.
  - reflexivity.
Defined.

(** X7 — [/claim] and [/release]: a claim of a session that is not
    registered is refused and changes nothing; [/release] removes the
    caller's claim and nothing else, so a claim followed by a release
    leaves the claims of all other operators, and the rest of the object,
    as they were. *)
Theorem claim_then_release (cfg : Config) (u v : Update) (c : CLAUDE)
    (x sid : string) (rest : list string) :
  is_authorized cfg (from_user u) = true ->
  command_parts 1 u = x :: sid :: rest ->
  from_user v = from_user u ->
  (Dict.mem sid (sessions c) = false ->
   claim_command cfg u c
   = (Returns tt, c, [ReplyText ("Session " +:+ sid +:+ " not found")]))
  /\ (Dict.mem sid (sessions c) = true ->
      release_command cfg v (state_of (claim_command cfg u c))
      = (Returns tt,
         set_claimed_sessions (delete (from_user u) (claimed_sessions c)) c,
         [ReplyText ("Released session " +:+ sid)])).
Proof.
  intros Ha Hp Hv. split; intros Hm.
  - unfold claim_command, guarded. rewrite Ha, Hp. simpl negb. run_m.
    now rewrite Hm.
  - rewrite (RoutingFacts.claim_command_run cfg u c x sid rest Ha Hp Hm).
    unfold state_of. simpl. unfold release_command, guarded.
    rewrite Hv, Ha. simpl negb. run_m. rewrite lookup_insert_eq. simpl.
    now rewrite delete_insert_eq.
Qed.

Lemma claim_then_release_witness :
  release_command Samples.cfg0 (Samples.plain 7 "/release")
    (state_of (claim_command Samples.cfg0 (Samples.plain 7 "/claim s1")
                 Samples.two_requests))
  = (Returns tt,
     set_claimed_sessions (delete 7 (claimed_sessions Samples.two_requests))
       Samples.two_requests,
     [ReplyText "Released session s1"]).
Proof.
  apply (claim_then_release Samples.cfg0 (Samples.plain 7 "/claim s1")
           (Samples.plain 7 "/release") Samples.two_requests "/claim" "s1" []).
  - reflexivity.
  - reflexivity.
  - reflexivity.
  - reflexivity.
Defined.

(** ** The end of a session *)

Module EndFacts.

Lemma forward_unknown (cfg : Config) (e : Env) (sid t : string) (uid : Z)
    (c : CLAUDE) :
  pty_processes c !! sid = None -> Dict.get sid (sessions c) = None ->
  forward_to_session cfg e sid t uid c = (Returns tt, c, []).
Proof.
  intros Hp Hs. unfold forward_to_session. run_m. now rewrite Hp, Hs.
Qed.

(** The object after the end of the read loop of a registered session. *)
Lemma read_done_run (e : Env) (sid : string) (c : CLAUDE) (s : Session) :
  Dict.get sid (sessions c) = Some s ->
  let ended := negb (state_eqb (state s) COMPLETED) && negb (state_eqb (state s) FAILED) in
  read_pty_output_done e sid c
  = (Returns tt,
     set_sessions (Dict.del sid (sessions c))
       (set_pending_requests (delete sid (pending_requests c))
          (set_output_buffers (delete sid (output_buffers c))
             (set_pty_processes (delete sid (pty_processes c)) c))),
     if ended
     then [StateSet sid (state s) COMPLETED;
           Print ("[SID:" +:+ sid +:+ "] Session ended")]
     else []).
Proof.
  intros Hs ended. subst ended.
  unfold read_pty_output_done, set_state, alter_session, send_session_end.
  run_m. rewrite Hs. simpl.
  destruct (negb (state_eqb (state s) COMPLETED) && negb (state_eqb (state s) FAILED));
    simpl; [| reflexivity].
  rewrite Hs. simpl. rewrite DictFacts.get_set_eq. simpl.
  now rewrite !DictFacts.del_set.
Qed.

End EndFacts.

(** X8 — The end of [read_pty_output]: for a registered session, the
    session, its process, its output buffer and its pending queue leave
    the object, and the entries of every other session stay; the request
    records, the claims and the flush timers are not touched.  The state
    is set to COMPLETED first unless it is COMPLETED or FAILED already.
    For a session that is not registered nothing happens. *)
Theorem session_end_evicts (e : Env) (sid : string) (c : CLAUDE) :
  NoDup (Dict.keys (sessions c)) ->
  match Dict.get sid (sessions c) with
  | None => read_pty_output_done e sid c = (Returns tt, c, [])
  | Some s =>
      let c' := state_of (read_pty_output_done e sid c) in
      (Dict.get sid (sessions c') = None
       /\ pty_processes c' !! sid = None
       /\ output_buffers c' !! sid = None
       /\ pending_requests c' !! sid = None)
      /\ (forall k, k <> sid ->
            Dict.get k (sessions c') = Dict.get k (sessions c)
            /\ pty_processes c' !! k = pty_processes c !! k
            /\ output_buffers c' !! k = output_buffers c !! k
            /\ pending_requests c' !! k = pending_requests c !! k)
      /\ permission_requests c' = permission_requests c
      /\ claimed_sessions c' = claimed_sessions c
      /\ output_flush_timers c' = output_flush_timers c
      /\ trace_of (read_pty_output_done e sid c)
         = if negb (state_eqb (state s) COMPLETED) && negb (state_eqb (state s) FAILED)
           then [StateSet sid (state s) COMPLETED;
                 Print ("[SID:" +:+ sid +:+ "] Session ended")]
           else []
  end.
Proof.
  intros Hnd. destruct (Dict.get sid (sessions c)) as [s|] eqn:Hs.
  - rewrite (EndFacts.read_done_run e sid c s Hs). unfold state_of, trace_of.
    simpl. repeat split.
    + now apply DictFacts.get_del_eq.
    + apply lookup_delete_eq.
    + apply lookup_delete_eq.
    + apply lookup_delete_eq.
    + apply DictFacts.get_del_ne. congruence.
    + apply lookup_delete_ne. congruence.
    + apply lookup_delete_ne. congruence.
    + apply lookup_delete_ne. congruence.
  - unfold read_pty_output_done. run_m. now rewrite Hs.
Qed.

Lemma session_end_evicts_witness :
  Dict.get "s1" (sessions (state_of (read_pty_output_done Samples.env1 "s1"
                                       Samples.two_requests))) = None
  /\ (fst <$> permission_requests
                (state_of (read_pty_output_done Samples.env1 "s1"
                             Samples.two_requests))) = ["r1"; "r2"].
Proof.
  pose proof (session_end_evicts Samples.env1 "s1" Samples.two_requests) as H.
  assert (Hnd : NoDup (Dict.keys (sessions Samples.two_requests)))
    by (apply (bool_decide_unpack _); vm_compute; exact I).
  specialize (H Hnd).
  change (Dict.get "s1" (sessions Samples.two_requests))
    with (Some (mkSession "s1" "claude" "/work" [] RUNNING 10 None None None
                  (Some 4242) (Some "pty1") None)) in H.
  destruct H as ((H1 & _) & _ & H3 & _).
  split; [exact H1 |]. now rewrite H3.
Defined.

(** X9 — A claim outlives its session.  After the read loop of a claimed
    session has ended, the claim is still there, and free text of the
    claiming operator is dropped: nothing is forwarded, no audit event
    is recorded, the object does not change and the operator gets no
    answer. *)
Theorem text_for_ended_claimed_session_is_dropped (cfg : Config) (e e' : Env)
    (v : Update) (c : CLAUDE) (sid : string) (s : Session) :
  NoDup (Dict.keys (sessions c)) ->
  Dict.get sid (sessions c) = Some s ->
  is_authorized cfg (from_user v) = true ->
  claimed_sessions c !! from_user v = Some sid ->
  sid <> EmptyString ->
  reply_to_message v = None ->
  PyStr.isdigit (text v) = false ->
  handle_reply cfg e' v (state_of (read_pty_output_done e sid c))
  = (Returns tt, state_of (read_pty_output_done e sid c), []).
Proof.
  intros Hnd Hs Ha Hc Hne Hr Hd.
  rewrite (EndFacts.read_done_run e sid c s Hs). unfold state_of. simpl.
  rewrite (RoutingFacts.handle_reply_claimed cfg e' v _ sid); try assumption.
  - apply EndFacts.forward_unknown; simpl.
    + apply lookup_delete_eq.
    + now apply DictFacts.get_del_eq.
  - unfold bound_request. now rewrite Hr.
  - unfold bound_session. now rewrite Hr.
Qed.

Lemma text_for_ended_claimed_session_is_dropped_witness :
  handle_reply Samples.cfg0 Samples.env1 (Samples.plain 7 "hello")
    (state_of (read_pty_output_done Samples.env1 "s1" MoreSamples.claimed_s1))
  = (Returns tt,
     state_of (read_pty_output_done Samples.env1 "s1" MoreSamples.claimed_s1), []).
Proof.
  apply (text_for_ended_claimed_session_is_dropped Samples.cfg0 Samples.env1
           Samples.env1 (Samples.plain 7 "hello") MoreSamples.claimed_s1 "s1"
           (mkSession "s1" "claude" "/work" [] RUNNING 10 None None None
              (Some 4242) (Some "pty1") None)).
  - apply (bool_decide_unpack _). vm_compute. exact I.
  - reflexivity.
  - reflexivity.
  - reflexivity.
  - discriminate.
  - reflexivity.
  - reflexivity.
Defined.

(** ** The commands that act on a session *)

Module CommandFacts.
Import PyStr TextFacts.





Lemma forward_to_dead_process (cfg : Config) (e : Env) (sid t : string)
    (uid : Z) (c : CLAUDE) (s : Session) (p : Pty) :
  Dict.get sid (sessions c) = Some s ->
  pty_processes c !! sid = Some p -> isalive p = false ->
  forward_to_session cfg e sid t uid c
  = (Returns tt,
     set_sessions (Dict.del sid (sessions c))
       (set_pty_processes (delete sid (pty_processes c)) c),
     [StateSet sid (state s) FAILED; Print ("[SID:" +:+ sid +:+ "] Session ended")]).
Proof.
  intros Hs Hp Ha.
  unfold forward_to_session, set_state, alter_session, send_session_end.
  run_m. rewrite Hp. simpl. rewrite Ha. simpl. rewrite Hs. simpl.
  rewrite Hs. simpl. rewrite DictFacts.get_set_eq. simpl.
  now rewrite !DictFacts.del_set.
Qed.

Lemma forward_to_live_process (cfg : Config) (e : Env) (sid t : string)
    (uid : Z) (c : CLAUDE) (p : Pty) :
  pty_processes c !! sid = Some p -> isalive p = true ->
  let ev := mkEvent "input.forwarded" sid (str uid) EmptyString (now_iso e)
              (utf8_len t) None in
  forward_to_session cfg e sid t uid c
  = (Returns tt,
     set_pty_processes (<[sid := mkPty true (written p ++ [Line t])]> (pty_processes c))
       (set_audit_log (audit_log c ++ [ev]) c),
     [SaveAudit ev; Print ("[SID:" +:+ sid +:+ "] INPUT: " +:+ t)]).
Proof.
  intros Hp Ha ev. unfold forward_to_session. run_m. rewrite Hp. simpl.
  rewrite Ha. simpl. unfold pty_write. now rewrite Ha.
Qed.

(** What [/send] does once its line is taken apart and the session has
    a process entry. *)
Lemma send_command_run (cfg : Config) (e : Env) (u : Update) (c : CLAUDE)
    (x sid t : string) (rest : list string) (s : Session) (p : Pty) :
  is_authorized cfg (from_user u) = true ->
  command_parts 2 u = x :: sid :: t :: rest ->
  Dict.get sid (sessions c) = Some s ->
  pty_processes c !! sid = Some p ->
  send_command cfg e u c
  = (Returns tt, state_of (forward_to_session cfg e sid t (from_user u) c),
     trace_of (forward_to_session cfg e sid t (from_user u) c)
       ++ [ReplyText ("Sent to session " +:+ sid)])
    \/ exists x, outcome_of (forward_to_session cfg e sid t (from_user u) c) = Raises x.
Proof.
  intros Ha Hparts Hs Hp. unfold send_command, guarded. rewrite Ha, Hparts.
  simpl negb. run_m. rewrite Hs, Hp. unfold state_of, trace_of, outcome_of.
  destruct (forward_to_session cfg e sid t (from_user u) c) as [[[[] | y] c1] t1];
    simpl; [now left | right; eauto].
Qed.

Lemma set_only_value (d : list (string * Session)) (k : string) (v w : Session) :
  NoDup (Dict.keys d) -> In (k, w) (Dict.set k v d) -> w = v.
Proof.
  intros Hnd Hin.
  assert (H : Dict.get k (Dict.set k v d) = Some w).
  { apply DictFacts.get_In_NoDup; [now apply DictFacts.NoDup_set | exact Hin]. }
  rewrite DictFacts.get_set_eq in H. congruence.
Qed.

End CommandFacts.

(** X10 — [/send] to a session whose process has exited.  Nothing is
    written and nothing is logged for audit; [forward_to_session] marks
    the session FAILED and drops it and its process entry; and the
    operator is still answered "Sent to session". *)
Theorem send_to_exited_process_reports_sent (cfg : Config) (e : Env)
    (u : Update) (c : CLAUDE) (x sid t : string) (rest : list string)
    (s : Session) (p : Pty) :
  is_authorized cfg (from_user u) = true ->
  command_parts 2 u = x :: sid :: t :: rest ->
  Dict.get sid (sessions c) = Some s ->
  pty_processes c !! sid = Some p -> isalive p = false ->
  send_command cfg e u c
  = (Returns tt,
     set_sessions (Dict.del sid (sessions c))
       (set_pty_processes (delete sid (pty_processes c)) c),
     [StateSet sid (state s) FAILED;
      Print ("[SID:" +:+ sid +:+ "] Session ended");
      ReplyText ("Sent to session " +:+ sid)]).
Proof.
  intros Ha Hparts Hs Hp Hdead.
  destruct (CommandFacts.send_command_run cfg e u c x sid t rest s p Ha Hparts Hs Hp)
    as [-> | [y Hy]];
    rewrite (CommandFacts.forward_to_dead_process cfg e sid t _ c s p Hs Hp Hdead)
      in *; [reflexivity | discriminate Hy].
Qed.

Lemma send_to_exited_process_reports_sent_witness :
  trace_of (send_command Samples.cfg0 Samples.env1
              (Samples.plain 7 "/send s1 continue") MoreSamples.dead_session)
  = [StateSet "s1" RUNNING FAILED; Print "[SID:s1] Session ended";
     ReplyText "Sent to session s1"].
Proof.
  rewrite (send_to_exited_process_reports_sent Samples.cfg0 Samples.env1
             (Samples.plain 7 "/send s1 continue") MoreSamples.dead_session
             "/send" "s1" "continue" []
             (mkSession "s1" "claude" "/work" [] RUNNING 10 None None None
                (Some 4242) (Some "pty1") None)
             (mkPty false []));
    reflexivity.
Defined.



(** X12 — [/cancel] of an active session only marks it: the state
    becomes CANCELLED and the change is announced, while the process
    entry, the queues and the requests stay as they were (no key or
    signal is sent to the child).  The session no longer counts as
    active, and a second [/cancel] is refused without any change. *)
Theorem cancel_marks_the_session_only (cfg : Config) (u : Update) (c : CLAUDE)
    (x sid : string) (rest : list string) (s : Session) :
  is_authorized cfg (from_user u) = true ->
  command_parts 1 u = x :: sid :: rest ->
  NoDup (Dict.keys (sessions c)) ->
  Dict.get sid (sessions c) = Some s ->
  is_active (state s) = true ->
  let r := cancel_command cfg u c in
  let c' := state_of r in
  outcome_of r = Returns tt
  /\ trace_of r
     = [StateSet sid (state s) CANCELLED;
        Print ("[SID:" +:+ sid +:+ "] State changed to CANCELLED");
        ReplyText ("Cancelled session " +:+ sid)]
  /\ sessions c' = Dict.set sid (with_state CANCELLED s) (sessions c)
  /\ pty_processes c' = pty_processes c
  /\ pending_requests c' = pending_requests c
  /\ permission_requests c' = permission_requests c
  /\ output_buffers c' = output_buffers c
  /\ (sid ∉ active_sessions c')
  /\ cancel_command cfg u c'
     = (Returns tt, c',
        [ReplyText ("Session " +:+ sid +:+ " is not running or waiting for permission")]).
Proof.
  intros Ha Hparts Hnd Hs Hact r c'.
  assert (Hr : r = (Returns tt,
                    set_sessions (Dict.set sid (with_state CANCELLED s) (sessions c)) c,
                    [StateSet sid (state s) CANCELLED;
                     Print ("[SID:" +:+ sid +:+ "] State changed to CANCELLED");
                     ReplyText ("Cancelled session " +:+ sid)])).
  { subst r. unfold cancel_command, guarded, set_state, send_state_change.
    rewrite Ha, Hparts. simpl negb. run_m. rewrite Hs. simpl. rewrite Hact.
    simpl. rewrite Hs. reflexivity. }
  subst c'. rewrite Hr. unfold state_of, trace_of, outcome_of. simpl.
  repeat split.
  - unfold active_sessions. simpl. intros Hin.
    apply list_elem_of_fmap in Hin as ([k v] & -> & Hin).
    apply list_elem_of_filter in Hin as [Hv Hin]. simpl in Hv, Hin.
    apply list_elem_of_In in Hin.
    apply (CommandFacts.set_only_value _ _ _ _ Hnd) in Hin. subst v.
    discriminate Hv.
  - unfold cancel_command, guarded. rewrite Ha, Hparts. simpl negb. run_m.
    now rewrite DictFacts.get_set_eq.
Qed.

Lemma cancel_marks_the_session_only_witness :
  let c' := state_of (cancel_command Samples.cfg0 (Samples.plain 7 "/cancel s1")
                        Samples.one_session) in
  pty_processes c' = pty_processes Samples.one_session
  /\ active_sessions c' = [].
Proof.
  destruct (cancel_marks_the_session_only Samples.cfg0 (Samples.plain 7 "/cancel s1")
              Samples.one_session "/cancel" "s1" []
              (mkSession "s1" "claude" "/work" [] RUNNING 10 None None None
                 (Some 4242) (Some "pty1") None))
    as (_ & _ & _ & Hp & _).
  - reflexivity.
  - reflexivity.
  - apply (bool_decide_unpack _). vm_compute. exact I.
  - reflexivity.
  - reflexivity.
  - split; [exact Hp | reflexivity].
Defined.

(** X13 — A cancelled session goes on.  Its process still takes input:
    text forwarded to it after the [/cancel] is written to the process as
    before.  And when its read loop ends, the state CANCELLED is
    overwritten with COMPLETED. *)
Theorem cancelled_session_goes_on (cfg : Config) (e : Env) (u : Update)
    (c : CLAUDE) (x sid t : string) (rest : list string) (uid : Z)
    (s : Session) (p : Pty) :
  is_authorized cfg (from_user u) = true ->
  command_parts 1 u = x :: sid :: rest ->
  Dict.get sid (sessions c) = Some s ->
  is_active (state s) = true ->
  pty_processes c !! sid = Some p -> isalive p = true ->
  let c' := state_of (cancel_command cfg u c) in
  pty_processes (state_of (forward_to_session cfg e sid t uid c'))
  = <[sid := mkPty true (written p ++ [Line t])]> (pty_processes c)
  /\ trace_of (read_pty_output_done e sid c')
     = [StateSet sid CANCELLED COMPLETED;
        Print ("[SID:" +:+ sid +:+ "] Session ended")].
Proof.
  intros Ha Hparts Hs Hact Hp Hlive c'.
  assert (Hc : c' = set_sessions (Dict.set sid (with_state CANCELLED s) (sessions c)) c).
  { subst c'. unfold cancel_command, guarded, set_state, send_state_change.
    rewrite Ha, Hparts. simpl negb. run_m. rewrite Hs. simpl. rewrite Hact.
    simpl. rewrite Hs. reflexivity. }
  rewrite Hc. split.
  - now rewrite (forward_to_live_session cfg e sid t uid _ p).
  - rewrite (EndFacts.read_done_run e sid _ (with_state CANCELLED s)).
    + reflexivity.
    + simpl. apply DictFacts.get_set_eq.
Qed.

Lemma cancelled_session_goes_on_witness :
  let c' := state_of (cancel_command Samples.cfg0 (Samples.plain 7 "/cancel s1")
                        Samples.one_session) in
  trace_of (read_pty_output_done Samples.env1 "s1" c')
  = [StateSet "s1" CANCELLED COMPLETED; Print "[SID:s1] Session ended"].
Proof.
  apply (cancelled_session_goes_on Samples.cfg0 Samples.env1
           (Samples.plain 7 "/cancel s1") Samples.one_session "/cancel" "s1"
           "more" [] 7
           (mkSession "s1" "claude" "/work" [] RUNNING 10 None None None
              (Some 4242) (Some "pty1") None)
           (mkPty true []));
    reflexivity.
Defined.

(** ** What holds of every operation *)

(** *** Rules for a relation between the start and the end of a run that
    is reflexive and composes *)

Module RunFacts.

Section Rules.
Context {A B : Type}.
Variable R : CLAUDE -> CLAUDE -> list Effect -> Prop.
Hypothesis R_refl : forall c, R c c [].
Hypothesis R_trans : forall c c1 c2 t1 t2,
  R c c1 t1 -> R c1 c2 t2 -> R c c2 (t1 ++ t2).

Lemma runs_ret (a : A) : runs R (ret a).
Proof. intros c. apply R_refl. Qed.

Lemma runs_mret (a : A) : runs R (mret a : M A).
Proof. intros c. apply R_refl. Qed.

Lemma runs_raise (x : Exn) : runs R (raise x : M A).
Proof. intros c. apply R_refl. Qed.

Lemma runs_read (f : CLAUDE -> A) : runs R (read f).
Proof. intros c. apply R_refl. Qed.

Lemma runs_bind (m : M A) (f : A -> M B) :
  runs R m -> (forall a, runs R (f a)) -> runs R (m ≫= f).
Proof.
  intros Hm Hf c. specialize (Hm c).
  unfold mbind, M_bind, bind, state_of, trace_of in *.
  destruct (m c) as [[[a | x] c1] t1]; simpl in *; [| exact Hm].
  specialize (Hf a c1). unfold state_of, trace_of in Hf.
  destruct (f a c1) as [[r c2] t2]. simpl in *. now apply (R_trans c c1 c2).
Qed.

End Rules.

Lemma runs_emit (R : CLAUDE -> CLAUDE -> list Effect -> Prop) (x : Effect) :
  (forall c, R c c [x]) -> runs R (emit x).
Proof. intros H c. apply H. Qed.

Lemma runs_update (R : CLAUDE -> CLAUDE -> list Effect -> Prop)
    (f : CLAUDE -> CLAUDE) :
  (forall c, R c (f c) []) -> runs R (update f).
Proof. intros H c. apply H. Qed.

(** The relations used below are reflexive and compose. *)

Lemma saved_audits_app (t1 t2 : list Effect) :
  saved_audits (t1 ++ t2) = saved_audits t1 ++ saved_audits t2.
Proof.
  induction t1 as [|x t1 IH]; [reflexivity |].
  destruct x; simpl; now rewrite ?IH.
Qed.

Lemma audit_refl (c : CLAUDE) : audit_kept c c [].
Proof. unfold audit_kept. simpl. now rewrite app_nil_r. Qed.

Lemma audit_trans (c c1 c2 : CLAUDE) (t1 t2 : list Effect) :
  audit_kept c c1 t1 -> audit_kept c1 c2 t2 -> audit_kept c c2 (t1 ++ t2).
Proof.
  unfold audit_kept. intros H1 H2.
  now rewrite H2, H1, saved_audits_app, app_assoc.
Qed.

(** The two statements that log an event, taken together. *)
Lemma audit_logged (ev : Event) (k : unit -> M unit) :
  (forall a, runs audit_kept (k a)) ->
  runs audit_kept
    (update (fun c => set_audit_log (audit_log c ++ [ev]) c) ≫=
       (fun _ => emit (SaveAudit ev) ≫= k)).
Proof.
  intros Hk c. specialize (Hk tt (set_audit_log (audit_log c ++ [ev]) c)).
  unfold audit_kept, mbind, M_bind, bind, update, emit, state_of, trace_of in *.
  simpl in *. destruct (k tt _) as [[r c2] t2]. simpl in *.
  now rewrite Hk, <- app_assoc.
Qed.

Lemma records_refl (P : Session -> Prop) (c : CLAUDE) : records_are P c c [].
Proof. intros s []. Qed.

Lemma records_trans (P : Session -> Prop) (c c1 c2 : CLAUDE)
    (t1 t2 : list Effect) :
  records_are P c c1 t1 -> records_are P c1 c2 t2 ->
  records_are P c c2 (t1 ++ t2).
Proof.
  intros H1 H2 s Hin. apply in_app_or in Hin as [Hin | Hin]; eauto.
Qed.

Lemma claims_refl (k : Z) (c : CLAUDE) : claims_kept k c c [].
Proof. reflexivity. Qed.

Lemma claims_trans (k : Z) (c c1 c2 : CLAUDE) (t1 t2 : list Effect) :
  claims_kept k c c1 t1 -> claims_kept k c1 c2 t2 -> claims_kept k c c2 (t1 ++ t2).
Proof. unfold claims_kept. congruence. Qed.

Lemma requests_refl (c : CLAUDE) : requests_kept c c [].
Proof. unfold requests_kept. reflexivity. Qed.

Lemma requests_trans (c c1 c2 : CLAUDE) (t1 t2 : list Effect) :
  requests_kept c c1 t1 -> requests_kept c1 c2 t2 ->
  requests_kept c c2 (t1 ++ t2).
Proof. unfold requests_kept. intros H1 H2. now transitivity (Dict.keys (permission_requests c1)). Qed.

Lemma keeps_refl (P : CLAUDE -> Prop) (c : CLAUDE) : keeps P c c [].
Proof. intros H. exact H. Qed.

Lemma keeps_trans (P : CLAUDE -> Prop) (c c1 c2 : CLAUDE) (t1 t2 : list Effect) :
  keeps P c c1 t1 -> keeps P c1 c2 t2 -> keeps P c c2 (t1 ++ t2).
Proof. intros H1 H2 H. apply H2, H1, H. Qed.

(** Writing under a key keeps the order of the keys: a key that is
    there keeps its place, a new one goes to the end. *)
Lemma keys_set_prefix (d : list (string * PermissionRequest)) (k : string)
    (v : PermissionRequest) :
  Dict.keys d `prefix_of` Dict.keys (Dict.set k v d).
Proof.
  induction d as [|[k0 v0] d IH]; simpl.
  - apply prefix_nil.
  - destruct (String.eqb k k0) eqn:E; simpl; [| now apply prefix_cons].
    apply String.eqb_eq in E. now subst k0.
Qed.

Lemma requests_resolve (e : Env) (rid : string) (code uid : Z) :
  runs requests_kept (resolve_permission_request e rid code uid).
Proof.
  intros c. unfold requests_kept.
  destruct (Dict.get rid (permission_requests c)) as [r|] eqn:Hr.
  - rewrite (BrokerFacts.resolve_requests_field e rid code uid c r Hr).
    apply keys_set_prefix.
  - now rewrite (BrokerFacts.resolve_missing e rid code uid c Hr).
Qed.

End RunFacts.

(** One step of a proof by the structure of a handler: [pre] is tried on
    a sequence before it is taken apart, [leaf] closes what is left of
    the single statements. *)
Ltac runs_step Hr Ht pre leaf :=
  lazymatch goal with
  | |- runs _ (mbind _ _) =>
      first [ pre | apply (RunFacts.runs_bind _ Ht); [| intros ?] ]
  | |- runs _ (read _) => apply (RunFacts.runs_read _ Hr)
  | |- runs _ pass => apply (RunFacts.runs_ret _ Hr)
  | |- runs _ (ret _) => apply (RunFacts.runs_ret _ Hr)
  | |- runs _ (mret _) => apply (RunFacts.runs_mret _ Hr)
  | |- runs _ (raise _) => apply (RunFacts.runs_raise _ Hr)
  | |- runs _ (match ?x with _ => _ end) => destruct x
  | |- runs _ (let _ := _ in _) => cbv zeta
  | |- runs _ _ => solve [leaf]
  end.

Ltac runs_auto Hr Ht pre leaf := repeat (runs_step Hr Ht pre leaf).

(** Everything [step] can run, down to the single statements. *)
Ltac open_step :=
  unfold step, start_command, help_command, status_command, sessions_command,
    send_command, claim_command, release_command, cancel_command, keys_command,
    handle_reply, handle_permission_reply, run_command, create_session,
    start_session, handle_output_chunk, _check_for_permission_prompt,
    send_permission_request, read_pty_output_done, timer_fired, flush_output,
    flush_output_send, flush_output_clear,
    send_output_chunk, forward_to_session, resolve_permission_request,
    send_ctrl_c, send_ctrl_d, send_key, set_state, alter_session,
    send_session_start, send_state_change, send_session_end, guarded, reply_text.

(** X14 — The audit log in memory and the audit file stay in step: every
    operation appends to [audit_log] exactly the events it writes to
    [audit.jsonl], in the same order, and never drops or rewrites an
    earlier entry. *)
Theorem audit_log_matches_audit_file (cfg : Config) (e : Env) (o : Op)
    (c : CLAUDE) :
  audit_log (state_of (step cfg e o c))
  = audit_log c ++ saved_audits (trace_of (step cfg e o c)).
Proof.
  revert c. change (runs audit_kept (step cfg e o)).
  destruct o; open_step;
    runs_auto RunFacts.audit_refl RunFacts.audit_trans
      ltac:(apply RunFacts.audit_logged; intros ?)
      ltac:(first [ apply RunFacts.runs_emit; intros ?; apply RunFacts.audit_refl
                  | apply RunFacts.runs_update; intros ?; unfold audit_kept;
                    simpl; symmetry; apply app_nil_r ]).
Qed.

(** X15 — The only record an operation ever writes to [sessions.jsonl]
    is the one [create_session] writes for a new session: it is written
    by a command line being run, carries the new identifier, and is in
    state CREATED.  No later state of a session is saved. *)
Theorem only_created_records_are_saved (cfg : Config) (e : Env) (o : Op)
    (c : CLAUDE) (s : Session) :
  In (SaveSession s) (trace_of (step cfg e o c)) ->
  state s = CREATED /\ session_id s = uuid4 e
  /\ exists cmd dir env spawned, o = OpRun cmd dir env spawned.
Proof.
  revert c s.
  assert (Hno : forall o', (forall cmd dir env sp, o' <> OpRun cmd dir env sp) ->
                  runs (records_are (fun _ => False)) (step cfg e o')).
  { intros o' Hn. destruct o'; [.. | | |];
      try (exfalso; eapply Hn; reflexivity);
      open_step;
      runs_auto (RunFacts.records_refl (fun _ => False))
                (RunFacts.records_trans (fun _ => False))
        ltac:(fail)
        ltac:(first [ apply RunFacts.runs_emit; intros ? ? [H | []]; discriminate H
                    | apply RunFacts.runs_update; intros ? ? [] ]). }
  assert (Hrun : forall cmd dir env sp,
            runs (records_are (fun s => state s = CREATED /\ session_id s = uuid4 e))
                 (run_command cfg e cmd dir env sp)).
  { intros cmd dir env sp. open_step.
    runs_auto (RunFacts.records_refl
                 (fun s => state s = CREATED /\ session_id s = uuid4 e))
              (RunFacts.records_trans
                 (fun s => state s = CREATED /\ session_id s = uuid4 e))
      ltac:(fail)
      ltac:(first [ apply RunFacts.runs_emit; intros ? ? [H | []];
                    first [ discriminate H
                          | injection H as <-; split; reflexivity ]
                  | apply RunFacts.runs_update; intros ? ? [] ]). }
  intros c s Hin.
  destruct o;
    try (exfalso; refine (Hno _ _ c s Hin); intros; discriminate).
  destruct (Hrun cmd dir env spawned c s Hin) as [H1 H2]. eauto 10.
Qed.

Lemma only_created_records_are_saved_witness :
  state (mkSession "s9" "nope" "/work" [] CREATED 10 None None None None None None)
  = CREATED.
Proof.
  refine (proj1 (only_created_records_are_saved Samples.cfg0 (mkEnv "s9" 10 "t0")
                   (OpRun "nope" "/work" [] None) Samples.live _ _)).
  vm_compute. left. reflexivity.
Defined.

Lemma release_keeps_others (cfg : Config) (u : Update) (k : Z) :
  from_user u <> k -> runs (claims_kept k) (release_command cfg u).
Proof.
  intros Hne c. unfold claims_kept, release_command, guarded, reply_text, state_of.
  run_m. destruct (negb _); simpl; [reflexivity |].
  destruct (claimed_sessions c !! from_user u); simpl;
    [now apply lookup_delete_ne | reflexivity].
Qed.

(** X16 — The claim of an operator changes only through that operator's
    own [/claim] and [/release]: no other operation, and in particular
    neither the end of the claimed session nor another operator's
    command, sets, moves or removes it. *)
Theorem claim_changes_only_by_its_owner (cfg : Config) (e : Env) (o : Op)
    (c : CLAUDE) (k : Z) :
  (forall u, o = OpClaim u \/ o = OpRelease u -> from_user u <> k) ->
  claimed_sessions (state_of (step cfg e o c)) !! k = claimed_sessions c !! k.
Proof.
  intros Ho. revert c. change (runs (claims_kept k) (step cfg e o)).
  destruct o; simpl step;
    try (apply release_keeps_others; eapply Ho; eauto);
    open_step;
    runs_auto (RunFacts.claims_refl k) (RunFacts.claims_trans k)
      ltac:(fail)
      ltac:(first [ apply RunFacts.runs_emit; intros ?; apply RunFacts.claims_refl
                  | apply RunFacts.runs_update; intros ?;
                    unfold claims_kept; simpl;
                    first [ reflexivity
                          | first [ apply lookup_insert_ne | apply lookup_delete_ne ];
                            eapply Ho; eauto ] ]).
Qed.

Lemma claim_changes_only_by_its_owner_witness :
  claimed_sessions
    (state_of (step Samples.cfg0 Samples.env1 (OpReadDone "s1")
                 MoreSamples.claimed_s1)) !! 7
  = Some "s1".
Proof.
  rewrite (claim_changes_only_by_its_owner Samples.cfg0 Samples.env1
             (OpReadDone "s1") MoreSamples.claimed_s1 7).
  - reflexivity.
  - intros u [H | H]; discriminate H.
Defined.

(** Everything [step] can run but [resolve_permission_request], down to
    the single statements. *)
Ltac open_step_to_resolve :=
  unfold step, start_command, help_command, status_command, sessions_command,
    send_command, claim_command, release_command, cancel_command, keys_command,
    handle_reply, handle_permission_reply, run_command, create_session,
    start_session, handle_output_chunk, _check_for_permission_prompt,
    send_permission_request, read_pty_output_done, timer_fired, flush_output,
    flush_output_send, flush_output_clear,
    send_output_chunk, forward_to_session,
    send_ctrl_c, send_ctrl_d, send_key, set_state, alter_session,
    send_session_start, send_state_change, send_session_end, guarded, reply_text.

(** X17 — No operation takes a permission request off the record or
    moves it: the identifiers on record before an operation are the first
    ones on record after it, in the same order, and a new request comes
    after them.  (So requests of sessions that have ended, and resolved
    requests, stay on record, and the order in which bare replies look
    for a request is the order of creation.) *)
Theorem requests_stay_on_record_in_order (cfg : Config) (e : Env) (o : Op)
    (c : CLAUDE) :
  Dict.keys (permission_requests c)
    `prefix_of` Dict.keys (permission_requests (state_of (step cfg e o c))).
Proof.
  revert c. change (runs requests_kept (step cfg e o)).
  destruct o; open_step_to_resolve;
    runs_auto RunFacts.requests_refl RunFacts.requests_trans
      ltac:(fail)
      ltac:(first [ apply RunFacts.requests_resolve
                  | apply RunFacts.runs_emit; intros ?; apply RunFacts.requests_refl
                  | apply RunFacts.runs_update; intros ?; unfold requests_kept;
                    simpl; first [ reflexivity | apply RunFacts.keys_set_prefix ] ]).
Qed.

(** ** Decisions *)

Module DecisionFacts.
Import PyStr.

(** Everything [resolve_permission_request] does for a request on
    record, but for the queue. *)
Lemma resolve_run (e : Env) (rid : string) (code uid : Z) (c : CLAUDE)
    (R : PermissionRequest) :
  Dict.get rid (permission_requests c) = Some R ->
  let sid := rq_session_id R in
  let ev := mkEvent "permission.resolve" sid (str uid) EmptyString (now_iso e) 0
              (Some (rid, code)) in
  let r := resolve_permission_request e rid code uid c in
  outcome_of r = Returns tt
  /\ trace_of r = [SaveAudit ev]
  /\ audit_log (state_of r) = audit_log c ++ [ev]
  /\ sessions (state_of r) = sessions c
  /\ pty_processes (state_of r)
     = match Dict.get sid (sessions c), pty_processes c !! sid with
       | Some _, Some p =>
           if isalive p
           then <[sid := mkPty true (written p ++ [Line (str code)])]> (pty_processes c)
           else pty_processes c
       | _, _ => pty_processes c
       end.
Proof.
  intros H sid ev r. subst r sid ev.
  unfold resolve_permission_request, outcome_of, trace_of, state_of, pty_write.
  run_m. rewrite H. simpl.
  repeat (split_match; simpl); simplify_eq; repeat split; reflexivity.
Qed.

(** No request passes the test of the loop when every queue is empty. *)
Lemma none_eligible_empty (c : CLAUDE) (code : Z)
    (items : list (string * PermissionRequest)) :
  (forall sid q, pending_requests c !! sid = Some q -> q = []) ->
  first_eligible c code items = None.
Proof.
  intros Hq. induction items as [|[rid r] items IH]; [reflexivity |].
  simpl. unfold eligible.
  destruct (pending_requests c !! rq_session_id r) as [q|] eqn:E; simpl;
    [| exact IH].
  rewrite (Hq _ _ E). simpl. exact IH.
Qed.

(** No request passes it for a code that none of them offers. *)
Lemma none_eligible_code (c : CLAUDE) (code : Z)
    (items : list (string * PermissionRequest)) :
  (forall rid r, In (rid, r) items -> valid_options r = [1; 2; 3]) ->
  ~ (1 <= code <= 3) ->
  first_eligible c code items = None.
Proof.
  intros Ho Hc. induction items as [|[rid r] items IH]; [reflexivity |].
  simpl. unfold eligible. rewrite (Ho rid r) by now left.
  assert (Hx : existsb (Z.eqb code) [1; 2; 3] = false).
  { simpl. destruct (Z.eqb_spec code 1), (Z.eqb_spec code 2), (Z.eqb_spec code 3);
      try reflexivity; lia. }
  rewrite Hx, andb_false_r. apply IH. intros rid' r' Hin. apply (Ho rid' r').
  now right.
Qed.

End DecisionFacts.



(** X19 — A decision for a session that has ended is still taken.  After
    the read loop of a session has ended, a numeric reply to the prompt
    of one of its requests is recorded as the decision and answered
    "Permission decision recorded", although the session is gone and the
    decision is written to no process. *)
Theorem decision_for_ended_session_is_recorded (cfg : Config) (e e' : Env)
    (c : CLAUDE) (uid mid code : Z) (digits rid : string)
    (R : PermissionRequest) (s : Session) :
  is_authorized cfg uid = true ->
  PyStr.isdigit digits = true ->
  PyStr.int digits = Some code ->
  rid <> EmptyString -> PyStr.all_chars (Re.not_char "]"%char) rid = true ->
  Dict.get rid (permission_requests c) = Some R ->
  NoDup (Dict.keys (sessions c)) ->
  Dict.get (rq_session_id R) (sessions c) = Some s ->
  let ended := state_of (read_pty_output_done e (rq_session_id R) c) in
  let r := handle_reply cfg e'
             (mkUpdate uid digits mid
                (Some (Some (permission_prompt rid (rq_session_id R) (summary R)))))
             ended in
  Dict.get (rq_session_id R) (sessions ended) = None
  /\ Dict.get rid (permission_requests (state_of r))
     = Some (decide_request code (PyStr.str uid) (now e') R)
  /\ pty_processes (state_of r) = pty_processes ended
  /\ trace_of r
     = [SaveAudit (mkEvent "permission.resolve" (rq_session_id R) (PyStr.str uid)
                     EmptyString (now_iso e') 0 (Some (rid, code)));
        ReplyText "Permission decision recorded"].
Proof.
  intros Ha Hd Hi Hne Hrid HR Hnd Hs ended r.
  assert (He : ended
               = set_sessions (Dict.del (rq_session_id R) (sessions c))
                   (set_pending_requests (delete (rq_session_id R) (pending_requests c))
                      (set_output_buffers (delete (rq_session_id R) (output_buffers c))
                         (set_pty_processes (delete (rq_session_id R) (pty_processes c))
                            c)))).
  { subst ended. now rewrite (EndFacts.read_done_run e _ c s Hs). }
  assert (HR' : Dict.get rid (permission_requests ended) = Some R)
    by (rewrite He; exact HR).
  assert (Hgone : Dict.get (rq_session_id R) (sessions ended) = None).
  { rewrite He. simpl. now apply DictFacts.get_del_eq. }
  destruct (DecisionFacts.resolve_run e' rid code uid ended R HR')
    as (Ho & Ht & _ & _ & Hp).
  rewrite Hgone in Hp.
  assert (Hr : r = (resolve_permission_request e' rid code uid;;
                    emit (ReplyText "Permission decision recorded")) ended).
  { subst r.
    rewrite (BrokerFacts.handle_reply_bound cfg e'
               (mkUpdate uid digits mid
                  (Some (Some (permission_prompt rid (rq_session_id R) (summary R)))))
               ended rid Ha
               (BrokerFacts.bound_request_prompt ended uid mid digits rid _ _ R
                  Hne Hrid HR')).
    now rewrite (BrokerFacts.handle_permission_reply_digits _ _ _ _ code Hd Hi). }
  split; [exact Hgone |]. rewrite Hr.
  rewrite BrokerFacts.then_emit_state by exact Ho.
  split; [| split; [exact Hp |]].
  - rewrite (BrokerFacts.resolve_requests_field e' rid _ uid ended R HR').
    apply DictFacts.get_set_eq.
  - unfold trace_of, outcome_of in *. unfold mbind, M_bind, bind, emit.
    destruct (resolve_permission_request e' rid code uid ended)
      as [[[[] | x] c2] t2]; simpl in *; [now rewrite Ht | discriminate Ho].
Qed.

Lemma decision_for_ended_session_is_recorded_witness :
  let ended := state_of (read_pty_output_done Samples.env1 "s1" Samples.two_requests) in
  (resolved <$> Dict.get "r1"
     (permission_requests
        (state_of (handle_reply Samples.cfg0 Samples.env1
                     (Samples.answer 7 "1" "r1" "s1" "Execute command rm x") ended))))
  = Some true.
Proof.
  destruct (decision_for_ended_session_is_recorded Samples.cfg0 Samples.env1
              Samples.env1 Samples.two_requests 7 501 1 "1" "r1" Samples.R1
              (mkSession "s1" "claude" "/work" [] RUNNING 10 None None None
                 (Some 4242) (Some "pty1") None))
    as (_ & H & _).
  - reflexivity.
  - reflexivity.
  - reflexivity.
  - discriminate.
  - reflexivity.
  - reflexivity.
  - apply (bool_decide_unpack _). vm_compute. exact I.
  - reflexivity.
  - cbv zeta. unfold Samples.answer.
    change (summary Samples.R1) with "Execute command rm x" in H.
    change (rq_session_id Samples.R1) with "s1" in H.
    now rewrite H.
Defined.

(** X20 — A bare number that finds no request is refused and never
    forwarded.  For an allowed operator whose message is all digits
    ([str.isdigit], digits of any script included) and is bound to no
    request: when [int] reads the digits and every pending queue is
    empty, or the number is not 1, 2 or 3 while every request offers the
    codes 1, 2, 3, the answer is "No pending permission request found
    for your reply" and the object does not change; when [int] cannot
    read the digits (a superscript two, say) the handler ends with
    [ValueError], without an answer and without a change.  In neither
    case do the digits reach a session, whatever the operator has
    claimed and however many sessions are active. *)
Theorem bare_number_without_request_is_refused (cfg : Config) (e : Env)
    (u : Update) (c : CLAUDE) :
  is_authorized cfg (from_user u) = true ->
  bound_request c u = None ->
  PyStr.isdigit (text u) = true ->
  match PyStr.int (text u) with
  | Some code =>
      (forall sid q, pending_requests c !! sid = Some q -> q = [])
      \/ ((forall rid r, In (rid, r) (permission_requests c) ->
             valid_options r = [1; 2; 3])
          /\ ~ (1 <= code <= 3)) ->
      handle_reply cfg e u c
      = (Returns tt, c,
         [ReplyText "No pending permission request found for your reply"])
  | None =>
      handle_reply cfg e u c = (Raises (ValueError (text u)), c, [])
  end.
Proof.
  intros Ha Hb Hd. destruct (PyStr.int (text u)) as [code|] eqn:Hi.
  - intros Hcase.
    rewrite (BrokerFacts.handle_reply_bare cfg e u c code Ha Hb Hd Hi).
    destruct Hcase as [Hq | [Ho Hc]].
    + now rewrite DecisionFacts.none_eligible_empty.
    + now rewrite DecisionFacts.none_eligible_code.
  - now apply BrokerFacts.handle_reply_unreadable.
Qed.

Lemma bare_number_without_request_is_refused_witness :
  handle_reply Samples.cfg0 Samples.env1 (Samples.plain 7 "4") MoreSamples.claimed_s1
  = (Returns tt, MoreSamples.claimed_s1,
     [ReplyText "No pending permission request found for your reply"])
  /\ handle_reply Samples.cfg0 Samples.env1
       (Samples.plain 7 MoreSamples.superscript_two) MoreSamples.claimed_s1
     = (Raises (ValueError MoreSamples.superscript_two), MoreSamples.claimed_s1, []).
Proof.
  split.
  - refine (bare_number_without_request_is_refused Samples.cfg0 Samples.env1
              (Samples.plain 7 "4") MoreSamples.claimed_s1
              eq_refl eq_refl eq_refl _).
    right. split.
    + intros rid r [H | [H | []]]; injection H as <- <-; reflexivity.
    + intros [_ H]. vm_compute in H. now apply H.
  - exact (bare_number_without_request_is_refused Samples.cfg0 Samples.env1
             (Samples.plain 7 MoreSamples.superscript_two) MoreSamples.claimed_s1
             eq_refl eq_refl eq_refl).
Defined.

(** ** Output: prompts and batching *)

Module PromptFacts.
Import PyStr.

Lemma first_prompt_sound (ps : list Re.pattern) (t w : string) :
  first_prompt ps t = Some w ->
  exists p g, In p ps /\ Re.search p t = Some (w, g).
Proof.
  induction ps as [|p ps IH]; simpl; [discriminate |].
  destruct (Re.search p t) as [[w' g]|] eqn:E.
  - intros [= <-]. exists p, g. split; [now left | exact E].
  - intros H. destruct (IH H) as (p' & g & Hin & Hs). exists p', g.
    split; [now right | exact Hs].
Qed.

Lemma first_prompt_complete (ps : list Re.pattern) (p : Re.pattern)
    (pre s : string) (m : string * string) :
  In p ps -> Re.match_here p s = Some m ->
  is_Some (first_prompt ps (pre +:+ s)).
Proof.
  intros Hin Hm. induction ps as [|p0 ps IH]; [destruct Hin |]. simpl.
  destruct (Re.search p0 (pre +:+ s)) as [[w g]|] eqn:E; [eauto |].
  destruct Hin as [-> | Hin]; [| now apply IH].
  destruct (SearchFacts.search_complete p pre s m Hm) as [x Hx]. congruence.
Qed.

(** The request records after a chunk has been handled. *)
Lemma output_requests (cfg : Config) (e : Env) (sid stream t : string)
    (c : CLAUDE) :
  permission_requests (state_of (handle_output_chunk cfg e sid stream t c))
  = match Dict.get sid (sessions c) with
    | None => permission_requests c
    | Some _ =>
        if String.eqb stream "stdout" && can_send cfg c
        then match first_prompt Re.prompt_patterns (cleaned cfg t) with
             | Some summ =>
                 Dict.set (uuid4 e)
                   (new_request (uuid4 e) sid "filesystem" summ (now e))
                   (permission_requests c)
             | None => permission_requests c
             end
        else permission_requests c
    end.
Proof.
  unfold handle_output_chunk, _check_for_permission_prompt,
    send_permission_request, send_output_chunk, state_of, cleaned.
  generalize (first_prompt Re.prompt_patterns
                (if STRIP_ANSI cfg then Ansi.strip_ansi t else t)).
  intros fp.
  run_m. destruct (Dict.get sid (sessions c)); simpl; [| reflexivity].
  destruct (String.eqb stream "stdout"); simpl.
  - destruct fp; simpl; destruct (can_send cfg c) eqn:Ec; simpl;
      repeat (split_match; simpl); reflexivity.
  - repeat (split_match; simpl); reflexivity.
Qed.


(** The request records after the check of one line. *)
Lemma check_requests (cfg : Config) (e : Env) (sid line : string) (c : CLAUDE) :
  state_of (_check_for_permission_prompt cfg e sid line c)
  = match first_prompt Re.prompt_patterns line with
    | Some summ =>
        if can_send cfg c
        then set_pending_requests
               (push_pending sid (uuid4 e) (pending_requests c))
               (set_permission_requests
                  (Dict.set (uuid4 e)
                     (new_request (uuid4 e) sid "filesystem" summ (now e))
                     (permission_requests c)) c)
        else c
    | None => c
    end.
Proof.
  unfold _check_for_permission_prompt, send_permission_request, state_of.
  generalize (first_prompt Re.prompt_patterns line). intros fp.
  destruct fp as [summ|]; [| reflexivity]. run_m.
  now destruct (can_send cfg c).
Qed.

End PromptFacts.

(** X21 — Prompt detection, for a line of 7-bit text.  A request
    record that is new or changed after [_check_for_permission_prompt]
    has looked at the line was filed while the bot can send; it stands
    under the identifier drawn in the call, belongs to the session, is
    unresolved, and its summary is quoted from the line: the opening
    phrase of one of the six patterns, a non-empty run of the characters
    the pattern allows, and the closing the pattern asks for.
    Conversely, when the bot can send, a line in which a pattern of the
    table matches anywhere files a request; when the bot cannot send,
    the check changes nothing.  And a chunk that [handle_output_chunk]
    gets on a stream other than stdout never touches the records. *)
Theorem detected_request_quotes_the_output (cfg : Config) (e : Env)
    (sid line : string) (c : CLAUDE) :
  PyStr.plain line = true ->
  let c' := state_of (_check_for_permission_prompt cfg e sid line c) in
  (forall rid r,
     Dict.get rid (permission_requests c') = Some r ->
     Dict.get rid (permission_requests c) <> Some r ->
     can_send cfg c = true
     /\ rid = uuid4 e
     /\ r = new_request (uuid4 e) sid "filesystem" (summary r) (now e)
     /\ exists p g pre post,
          In p Re.prompt_patterns
          /\ summary r = Re.pat_open p +:+ g +:+ Re.pat_close p
          /\ g <> EmptyString /\ PyStr.all_chars (Re.pat_class p) g = true
          /\ line = pre +:+ summary r +:+ post)
  /\ (forall p pre s m,
        can_send cfg c = true ->
        In p Re.prompt_patterns -> Re.match_here p s = Some m ->
        line = pre +:+ s ->
        exists summ,
          Dict.get (uuid4 e) (permission_requests c')
          = Some (new_request (uuid4 e) sid "filesystem" summ (now e)))
  /\ (can_send cfg c = false -> c' = c)
  /\ (forall stream t,
        stream <> "stdout" ->
        permission_requests (state_of (handle_output_chunk cfg e sid stream t c))
        = permission_requests c).
Proof.
  intros _ c'. subst c'. rewrite PromptFacts.check_requests.
  remember (first_prompt Re.prompt_patterns line) as fp eqn:Ef.
  symmetry in Ef. split; [| split; [| split]].
  - intros rid r Hr Hnew.
    destruct fp as [summ|]; [| congruence].
    destruct (can_send cfg c); [| congruence]. simpl in Hr.
    destruct (decide (uuid4 e = rid)) as [<- | Hne];
      [| rewrite DictFacts.get_set_ne in Hr by exact Hne; congruence].
    rewrite DictFacts.get_set_eq in Hr. injection Hr as <-.
    destruct (PromptFacts.first_prompt_sound _ _ _ Ef) as (p & g & Hin & Hsearch).
    destruct (SearchFacts.search_sound _ _ _ _ Hsearch)
      as (pre & post & Ht & Hw & Hg & Hcls).
    repeat split; eauto. exists p, g, pre, post. simpl summary. auto.
  - intros p pre s m Hcan Hin Hm Ht. rewrite Hcan. rewrite Ht in Ef.
    destruct (PromptFacts.first_prompt_complete _ p pre s m Hin Hm) as [summ Hsumm].
    rewrite Hsumm in Ef. subst fp. simpl.
    exists summ. apply DictFacts.get_set_eq.
  - intros Hcan. rewrite Hcan. now destruct fp.
  - intros stream t Hne. rewrite PromptFacts.output_requests.
    destruct (Dict.get sid (sessions c)); [| reflexivity].
    destruct (String.eqb stream "stdout") eqn:Es; [| reflexivity].
    apply String.eqb_eq in Es. congruence.
Qed.

Lemma detected_request_quotes_the_output_witness :
  exists summ,
    Dict.get "r1"
      (permission_requests
         (state_of (_check_for_permission_prompt Samples.cfg0 (mkEnv "r1" 20 "t1")
                      "s1" "please Execute command rm x now" Samples.one_session)))
    = Some (new_request "r1" "s1" "filesystem" summ 20).
Proof.
  refine (proj1 (proj2 (detected_request_quotes_the_output Samples.cfg0
                          (mkEnv "r1" 20 "t1") "s1"
                          "please Execute command rm x now"
                          Samples.one_session eq_refl))
            (Re.Pattern "Execute command " Re.word_or_space EmptyString)
            "please " "Execute command rm x now"
            ("Execute command rm x now", "rm x now") eq_refl _ eq_refl eq_refl).
  simpl. tauto.
Defined.



(** ** Storage and start *)

Module StorageFacts.

(** One record of [sessions.jsonl] as the loop of [load_storage] takes
    it. *)
Lemma load_other_fields (stored : list Session) : forall (c : CLAUDE),
  let c' := fold_left
              (fun acc s =>
                 if is_terminal (state s) then acc
                 else set_sessions (Dict.set (session_id s) s (sessions acc)) acc)
              stored c in
  permission_requests c' = permission_requests c
  /\ pending_requests c' = pending_requests c
  /\ output_buffers c' = output_buffers c
  /\ output_flush_timers c' = output_flush_timers c
  /\ app c' = app c
  /\ pty_processes c' = pty_processes c
  /\ claimed_sessions c' = claimed_sessions c
  /\ telegram_message_map c' = telegram_message_map c
  /\ audit_log c' = audit_log c
  /\ (NoDup (Dict.keys (sessions c)) -> NoDup (Dict.keys (sessions c'))).
Proof.
  induction stored as [|x stored IH]; intros c; simpl.
  - repeat split; auto.
  - destruct (is_terminal (state x)); [apply IH |].
    destruct (IH (set_sessions (Dict.set (session_id x) x (sessions c)) c))
      as (H1 & H2 & H3 & H4 & H5 & H6 & H7 & H8 & H9 & H10).
    repeat split; try assumption.
    intros Hnd. apply H10. simpl. now apply DictFacts.NoDup_set.
Qed.

(** The record a session id is restored from: the last one that is not
    in a terminal state. *)
Lemma load_sessions (stored : list Session) (sid : string) : forall (c : CLAUDE),
  Dict.get sid
    (sessions
       (fold_left
          (fun acc s =>
             if is_terminal (state s) then acc
             else set_sessions (Dict.set (session_id s) s (sessions acc)) acc)
          stored c))
  = match last (filter (fun s => is_terminal (state s) = false /\ session_id s = sid)
                  stored) with
    | Some s => Some s
    | None => Dict.get sid (sessions c)
    end.
Proof.
  induction stored as [|x stored IH]; intros c; [reflexivity |].
  simpl fold_left. rewrite IH, filter_cons.
  destruct (is_terminal (state x)) eqn:Et.
  - rewrite decide_False by (intros [H _]; discriminate H). reflexivity.
  - destruct (decide (session_id x = sid)) as [Hid | Hid].
    + rewrite decide_True by now split.
      rewrite last_cons. destruct (last (filter _ stored)); [reflexivity |].
      simpl. rewrite Hid. apply DictFacts.get_set_eq.
    + rewrite decide_False by (intros [_ H]; contradiction).
      destruct (last (filter _ stored)); [reflexivity |].
      simpl. now apply DictFacts.get_set_ne.
Qed.

Lemma del_fresh (d : list (string * Session)) (k : string) :
  Dict.get k d = None -> Dict.del k d = d.
Proof.
  induction d as [|[k0 v0] d IH]; simpl; [reflexivity |].
  destruct (String.eqb k k0); [discriminate |]. intros H. now rewrite IH.
Qed.

(** [is_authorized] decides membership of the decimal text of the id in
    the list, unless the list is empty. *)
Lemma is_authorized_spec (cfg : Config) (uid : Z) :
  is_authorized cfg uid = true
  <-> ALLOWED_USER_IDS cfg = [] \/ In (PyStr.str uid) (ALLOWED_USER_IDS cfg).
Proof.
  unfold is_authorized. destruct (ALLOWED_USER_IDS cfg) as [|a l] eqn:E.
  - split; auto.
  - rewrite existsb_exists. split.
    + intros (x & Hin & Hx). apply String.eqb_eq in Hx. subst x. now right.
    + intros [H | H]; [discriminate |]. exists (PyStr.str uid).
      split; [exact H | apply String.eqb_refl].
Qed.

End StorageFacts.

(** X23 — [load_storage] at start.  A session id is registered in the
    new object exactly when [sessions.jsonl] holds a record of it that is
    not in a terminal state, and it is registered with the last such
    record: a later record in a terminal state does not take it out
    again.  The ids are unique; the audit log is the content of
    [audit.jsonl]; and the object has no process, no buffer, no queue,
    no request and no claim, so restored sessions are registered
    without any of these. *)
Theorem restored_sessions (stored : list Session) (audit : list Event) :
  let c := __init__ stored audit in
  (forall sid,
     Dict.get sid (sessions c)
     = last (filter (fun s => is_terminal (state s) = false /\ session_id s = sid)
               stored))
  /\ NoDup (Dict.keys (sessions c))
  /\ audit_log c = audit
  /\ pty_processes c = ∅ /\ output_buffers c = ∅ /\ pending_requests c = ∅
  /\ permission_requests c = [] /\ claimed_sessions c = ∅ /\ app c = false.
Proof.
  intros c. subst c. unfold __init__, load_storage.
  destruct (StorageFacts.load_other_fields stored (mkCLAUDE [] [] ∅ ∅ ∅ false ∅ ∅ ∅ []))
    as (H1 & H2 & H3 & H4 & H5 & H6 & H7 & H8 & H9 & H10).
  cbv zeta in *. simpl in *. repeat split; try assumption.
  - intros sid. rewrite StorageFacts.load_sessions. simpl.
    now destruct (last _).
  - apply H10. apply NoDup_nil_2.
Qed.

(** X24 — A restored session takes no input.  For a session that
    [load_storage] has restored, [/send] answers that the session exists
    but is not properly initialized for input, with the state of the
    restored record, and changes nothing. *)
Theorem restored_session_takes_no_input (cfg : Config) (e : Env) (u : Update)
    (stored : list Session) (audit : list Event) (b : bool)
    (x sid t : string) (rest : list string) (s : Session) :
  is_authorized cfg (from_user u) = true ->
  command_parts 2 u = x :: sid :: t :: rest ->
  last (filter (fun s => is_terminal (state s) = false /\ session_id s = sid) stored)
  = Some s ->
  let c := set_app b (__init__ stored audit) in
  send_command cfg e u c
  = (Returns tt, c,
     [ReplyText ("Session " +:+ sid
                   +:+ " exists but is not properly initialized for input. State: "
                   +:+ state_name (state s))]).
Proof.
  intros Ha Hparts Hlast c.
  assert (Hs : Dict.get sid (sessions c) = Some s).
  { subst c. unfold __init__, load_storage. simpl.
    rewrite StorageFacts.load_sessions. now rewrite Hlast. }
  assert (Hp : pty_processes c !! sid = None).
  { subst c. unfold __init__, load_storage. simpl.
    destruct (StorageFacts.load_other_fields stored
                (mkCLAUDE [] [] ∅ ∅ ∅ false ∅ ∅ ∅ []))
      as (_ & _ & _ & _ & _ & H6 & _). cbv zeta in H6. rewrite H6. reflexivity. }
  clearbody c.
  unfold send_command, guarded. rewrite Ha, Hparts. simpl negb. run_m.
  now rewrite Hs, Hp.
Qed.

Lemma restored_session_takes_no_input_witness :
  trace_of
    (send_command Samples.cfg0 Samples.env1 (Samples.plain 7 "/send s1 hello")
       (set_app true
          (__init__
             [mkSession "s1" "claude" "/work" [] CREATED 10 None None None None None None;
              mkSession "s1" "claude" "/work" [] COMPLETED 10 (Some 90) None (Some 80)
                None None None]
             [])))
  = [ReplyText "Session s1 exists but is not properly initialized for input. State: CREATED"].
Proof.
  rewrite (restored_session_takes_no_input Samples.cfg0 Samples.env1
             (Samples.plain 7 "/send s1 hello") _ [] true "/send" "s1" "hello" []
             (mkSession "s1" "claude" "/work" [] CREATED 10 None None None None None None));
    reflexivity.
Defined.

(** X25 — [run_command].  Without a chat id it does nothing.  Otherwise
    it registers a new session and saves its CREATED record; when the
    spawn succeeds the session is RUNNING with the pid and the handle of
    the child, has a live process to which nothing has been written, an
    empty buffer and an empty queue, and a reader is started; when the
    spawn fails the session is marked FAILED and leaves the registry
    again, its empty buffer and its empty queue stay behind, and the
    failure is shown on the console only: nothing is sent to the chat.
    No other session is touched. *)
Theorem run_command_outcomes (cfg : Config) (e : Env) (cmd dir : string)
    (env : list (string * string)) (spawned : option (Z * string)) (c : CLAUDE) :
  let sid := uuid4 e in
  let created :=
    mkSession sid cmd dir env CREATED (now e) None None None None None None in
  let r := run_command cfg e cmd dir env spawned c in
  let c' := state_of r in
  (chat_set cfg = false -> r = (Returns tt, c, []))
  /\ (chat_set cfg = true ->
      outcome_of r = Returns tt
      /\ (forall k, k <> sid -> Dict.get k (sessions c') = Dict.get k (sessions c))
      /\ output_buffers c' = <[sid := []]> (output_buffers c)
      /\ pending_requests c' = <[sid := []]> (pending_requests c)
      /\ permission_requests c' = permission_requests c
      /\ match spawned with
         | Some (p, h) =>
             Dict.get sid (sessions c')
             = Some (mkSession sid cmd dir env RUNNING (now e) None None None
                       (Some p) (Some h) None)
             /\ pty_processes c' = <[sid := mkPty true []]> (pty_processes c)
             /\ trace_of r
                = [SaveSession created;
                   StateSet sid CREATED STARTING;
                   Print ("[SID:" +:+ sid +:+ "] Session started");
                   StateSet sid STARTING RUNNING;
                   Print ("[SID:" +:+ sid +:+ "] State changed to RUNNING");
                   StartReader sid]
         | None =>
             (NoDup (Dict.keys (sessions c)) -> Dict.get sid (sessions c') = None)
             /\ pty_processes c' = delete sid (pty_processes c)
             /\ trace_of r
                = [SaveSession created;
                   StateSet sid CREATED STARTING;
                   Print ("[SID:" +:+ sid +:+ "] Session started");
                   StateSet sid STARTING FAILED;
                   Print ("[SID:" +:+ sid +:+ "] Session ended")]
         end).
Proof.
  intros sid created r c'. subst c' r created sid. split; intros Hchat.
  - unfold run_command. now rewrite Hchat.
  - unfold run_command, create_session, start_session, set_state, alter_session,
      send_session_start, send_state_change, send_session_end,
      outcome_of, state_of, trace_of.
    rewrite Hchat. simpl negb. cbv iota. run_m.
    rewrite DictFacts.get_set_eq. simpl. rewrite DictFacts.get_set_eq. simpl.
    destruct spawned as [[p h]|]; simpl;
      repeat (rewrite DictFacts.get_set_eq; simpl);
      rewrite ?DictFacts.set_set, ?DictFacts.del_set.
    + repeat split. intros k Hk. apply DictFacts.get_set_ne. congruence.
    + repeat split.
      * intros k Hk. apply DictFacts.get_del_ne. congruence.
      * intros Hnd. now apply DictFacts.get_del_eq.
Qed.

(** X26 — The pending queues stay well formed.  The queues of a fresh
    object are well formed, and every operation keeps them so as long as
    the identifier it draws is new: there is one record per request id,
    no request stands twice in a queue, and every queued request is on
    record, unresolved, and belongs to the session that owns the queue.
    In particular a request that has been resolved stands in no queue. *)
Theorem pending_queues_stay_well_formed (cfg : Config) (e : Env) (o : Op)
    (c : CLAUDE) :
  queues_ok c ->
  Dict.get (uuid4 e) (permission_requests c) = None ->
  let c' := state_of (step cfg e o c) in
  queues_ok c'
  /\ forall sid q rid r,
       pending_requests c' !! sid = Some q ->
       Dict.get rid (permission_requests c') = Some r ->
       resolved r = true -> rid ∉ q.
Proof.
  intros Hc Hfresh c'.
  assert (H : queues_ok c') by now apply QueueSteps.step_keeps_queues.
  split; [exact H |]. intros sid q rid r Hq Hr Hres Hin.
  pose proof (QueueSteps.queued_request_unresolved c' sid rid q r H Hq Hin Hr).
  congruence.
Qed.

Lemma pending_queues_stay_well_formed_witness :
  queues_ok (state_of (step Samples.cfg0 Samples.env1
                         (OpOutput "s1" "stdout" "Execute command rm x")
                         Samples.one_session)).
Proof.
  apply (pending_queues_stay_well_formed Samples.cfg0 Samples.env1
           (OpOutput "s1" "stdout" "Execute command rm x") Samples.one_session).
  - split; [apply NoDup_nil_2 |]. intros sid q Hq.
    destruct (decide (sid = "s1")) as [-> | Hne].
    + vm_compute in Hq. injection Hq as <-. split; [apply NoDup_nil_2 |].
      intros rid Hin. now apply elem_of_nil in Hin.
    + exfalso. revert Hq.
      change (pending_requests Samples.one_session) with
        (<["s1" := @nil string]> (∅ : gmap string (list string))).
      rewrite lookup_insert_ne by congruence. now rewrite lookup_empty.
  - reflexivity.
Defined.

(** X27 — No session is ever WAITING_PERMISSION.  In every state the
    object can reach from a fresh start, session ids are unique, no
    registered session is in state WAITING_PERMISSION (a session stays
    RUNNING while its requests are pending), and a registered session
    that has a process entry is RUNNING or CANCELLED. *)
Theorem no_session_waits_for_permission (cfg : Config) (c : CLAUDE)
    (sid : string) (s : Session) :
  reachable cfg c ->
  Dict.get sid (sessions c) = Some s ->
  NoDup (Dict.keys (sessions c))
  /\ state s <> WAITING_PERMISSION
  /\ (is_Some (pty_processes c !! sid) -> state s = RUNNING \/ state s = CANCELLED).
Proof.
  intros Hreach Hs. destruct (reachable_registry_ok cfg c Hreach) as [Hnd Hreg].
  split; [exact Hnd |]. exact (Hreg sid s Hs).
Qed.

Lemma no_session_waits_for_permission_witness :
  state (mkSession "s1" "claude" "/work" [] RUNNING 10 None None None
           (Some 4242) (Some "pty1") None) <> WAITING_PERMISSION.
Proof.
  refine (proj1 (proj2 (no_session_waits_for_permission Samples.cfg0
                          (state_of (step Samples.cfg0 (mkEnv "r1" 20 "t1")
                                       (OpOutput "s1" "stdout" "Execute command rm x")
                                       (state_of
                                          (step Samples.cfg0 (mkEnv "s1" 10 "t0")
                                             (OpRun "claude" "/work" []
                                                (Some (4242, "pty1")))
                                             (set_app true (__init__ [] []))))))
                          "s1" _ _ _))).
  - apply reach_step; [apply reach_step; [apply reach_fresh | exact I] | exact I].
  - reflexivity.
Defined.

(** X28 — Authorization.  An operator is allowed exactly when the list of
    allowed ids is empty or holds the decimal text of the operator's id.
    An operator who is not allowed is turned away by [/status],
    [/sessions], [/send], [/claim], [/release], [/cancel], [/keys] and by
    the text handler with the one answer "Unauthorized": the object does
    not change, nothing is written to any process and no audit event is
    recorded. *)
Theorem unauthorized_operator_changes_nothing (cfg : Config) (e : Env)
    (u : Update) (o : Op) (c : CLAUDE) :
  ALLOWED_USER_IDS cfg <> [] ->
  ~ In (PyStr.str (from_user u)) (ALLOWED_USER_IDS cfg) ->
  In o [OpStatus u; OpSessions u; OpSend u; OpClaim u; OpRelease u;
        OpCancel u; OpKeys u; OpReply u] ->
  step cfg e o c = (Returns tt, c, [ReplyText "Unauthorized"]).
Proof.
  intros Hne Hnot Hin.
  assert (Ha : is_authorized cfg (from_user u) = false).
  { destruct (is_authorized cfg (from_user u)) eqn:E; [| reflexivity].
    apply StorageFacts.is_authorized_spec in E. tauto. }
  simpl in Hin.
  repeat (destruct Hin as [<- | Hin]; [now apply guarded_rejects |]).
  destruct Hin.
Qed.

Lemma unauthorized_operator_changes_nothing_witness :
  step Samples.cfg_locked Samples.env1 (OpSend (Samples.plain 7 "/send s1 rm -rf x"))
    Samples.one_session
  = (Returns tt, Samples.one_session, [ReplyText "Unauthorized"]).
Proof.
  apply (unauthorized_operator_changes_nothing Samples.cfg_locked Samples.env1
           (Samples.plain 7 "/send s1 rm -rf x")).
  - discriminate.
  - intros [H | []]. discriminate H.
  - simpl. auto.
Defined.

(** ** Keys *)

(** X29 — [/keys <sid> <key>] for a registered session.  The key name
    is read without regard to case.  CTRL_C (CTRL_D) sends the interrupt
    (the end of file) to the session's process when it is alive and
    shows "Sending Ctrl+C" ("Sending Ctrl+D") on the console; when the
    session has no process, or the process has exited, nothing happens
    at all.  In neither case is the operator answered.  Any other key
    name is answered "Unknown key" and changes nothing. *)
Theorem keys_command_sends_the_key (cfg : Config) (u : Update) (c : CLAUDE)
    (x sid k : string) (rest : list string) :
  is_authorized cfg (from_user u) = true ->
  command_parts 2 u = x :: sid :: k :: rest ->
  Dict.mem sid (sessions c) = true ->
  (forall label key p,
     (PyStr.upper k = "CTRL_C" /\ label = "Ctrl+C" /\ key = Intr)
     \/ (PyStr.upper k = "CTRL_D" /\ label = "Ctrl+D" /\ key = Eof) ->
     pty_processes c !! sid = Some p -> isalive p = true ->
     keys_command cfg u c
     = (Returns tt,
        set_pty_processes (<[sid := mkPty true (written p ++ [key])]> (pty_processes c)) c,
        [Print ("[SID:" +:+ sid +:+ "] Sending " +:+ label)]))
  /\ (PyStr.upper k = "CTRL_C" \/ PyStr.upper k = "CTRL_D" ->
      pty_processes c !! sid = None
      \/ (exists p, pty_processes c !! sid = Some p /\ isalive p = false) ->
      keys_command cfg u c = (Returns tt, c, []))
  /\ (PyStr.upper k <> "CTRL_C" -> PyStr.upper k <> "CTRL_D" ->
      keys_command cfg u c
      = (Returns tt, c, [ReplyText "Unknown key. Use CTRL_C or CTRL_D"])).
Proof.
  intros Ha Hparts Hm.
  assert (Hrun : keys_command cfg u c
                 = (if String.eqb (PyStr.upper k) "CTRL_C" then send_ctrl_c sid c
                    else if String.eqb (PyStr.upper k) "CTRL_D" then send_ctrl_d sid c
                    else (Returns tt, c,
                          [ReplyText "Unknown key. Use CTRL_C or CTRL_D"]))).
  { unfold keys_command, guarded. rewrite Ha, Hparts. simpl negb. run_m.
    rewrite Hm. simpl.
    destruct (String.eqb (PyStr.upper k) "CTRL_C");
      [now destruct (send_ctrl_c sid c) as [[? ?] ?] |].
    destruct (String.eqb (PyStr.upper k) "CTRL_D"); [| reflexivity].
    now destruct (send_ctrl_d sid c) as [[? ?] ?]. }
  rewrite Hrun. split; [| split].
  - intros label key p [(Hk & -> & ->) | (Hk & -> & ->)] Hp Hlive; rewrite Hk; simpl;
      unfold send_ctrl_c, send_ctrl_d, send_key, pty_write; run_m;
      rewrite Hp; simpl; rewrite ?Hlive; simpl; rewrite ?Hlive; reflexivity.
  - intros Hk Hp.
    assert (Hkey : forall label key, send_key label key sid c = (Returns tt, c, [])).
    { intros label key. unfold send_key. run_m.
      destruct Hp as [-> | (p & -> & Hdead)]; [reflexivity |]. simpl.
      now rewrite Hdead. }
    destruct Hk as [-> | ->]; simpl; apply Hkey.
  - intros H1 H2. apply String.eqb_neq in H1, H2. now rewrite H1, H2.
Qed.

Lemma keys_command_sends_the_key_witness :
  keys_command Samples.cfg0 (Samples.plain 7 "/keys s1 ctrl_c") Samples.one_session
  = (Returns tt,
     set_pty_processes (<["s1" := mkPty true [Intr]]> (pty_processes Samples.one_session))
       Samples.one_session,
     [Print "[SID:s1] Sending Ctrl+C"]).
Proof.
  refine (proj1 (keys_command_sends_the_key Samples.cfg0
                   (Samples.plain 7 "/keys s1 ctrl_c") Samples.one_session
                   "/keys" "s1" "ctrl_c" [] eq_refl eq_refl eq_refl)
            "Ctrl+C" Intr (mkPty true []) _ eq_refl eq_refl).
  left. repeat split.
Defined.

(** ** Processes and what belongs to them *)

(** Closes a goal [is_Some (_ !! k)] or [is_Some (Dict.get k _)] about
    the object after inserts and deletes at the key [sid], from the same
    facts about the object before. *)
Ltac some_kept :=
  repeat first
    [ assumption
    | rewrite lookup_insert_eq; eexists; reflexivity
    | rewrite DictFacts.get_set_eq; eexists; reflexivity
    | apply lookup_insert_is_Some'; right
    | rewrite DictFacts.get_set_ne by congruence
    | rewrite DictFacts.get_del_ne by congruence
    | rewrite lookup_delete_ne by congruence
    | rewrite lookup_insert_ne by congruence ].

(** Shows that the object stays wired after inserts and deletes at the
    key [sid]: other keys are as before, and at [sid] the process entry
    is gone or everything it needs is there. *)
Ltac wired_at Hw sid :=
  let k := fresh "k" in
  let Hk := fresh "Hk" in
  let Hne := fresh "Hne" in
  intros k Hk; simpl in *;
  destruct (decide (k = sid)) as [-> | Hne];
  [ rewrite ?lookup_delete_eq, ?lookup_insert_eq in Hk;
    try (now apply is_Some_None in Hk);
    try (destruct (Hw sid ltac:(eauto)) as (? & ? & ?));
    repeat split; some_kept; eauto
  | rewrite ?lookup_delete_ne, ?lookup_insert_ne in Hk by congruence;
    destruct (Hw k Hk) as (? & ? & ?); repeat split; some_kept ].

Module WiredFacts.

Lemma wired_other (c c' : CLAUDE) :
  sessions c' = sessions c -> pty_processes c' = pty_processes c ->
  output_buffers c' = output_buffers c ->
  pending_requests c' = pending_requests c ->
  wired c -> wired c'.
Proof. unfold wired. intros -> -> -> ->. auto. Qed.

Lemma wired_set_state (sid : string) (st : SessionState) :
  runs (keeps wired) (set_state sid st).
Proof.
  intros c Hw. unfold set_state, state_of. run_m.
  destruct (Dict.get sid (sessions c)) eqn:E; simpl; [| exact Hw].
  wired_at Hw sid.
Qed.

Lemma wired_alter (sid : string) (f : Session -> Session) :
  runs (keeps wired) (alter_session sid f).
Proof.
  intros c Hw. unfold alter_session, state_of. run_m.
  destruct (Dict.get sid (sessions c)) eqn:E; simpl; [| exact Hw].
  wired_at Hw sid.
Qed.

Lemma wired_send_key (label : string) (key : PtyInput) (sid : string) :
  runs (keeps wired) (send_key label key sid).
Proof.
  intros c Hw. unfold send_key, pty_write, state_of. run_m.
  destruct (pty_processes c !! sid) as [p|] eqn:E; simpl; [| exact Hw].
  destruct (isalive p); simpl; [| exact Hw].
  wired_at Hw sid.
Qed.

Lemma wired_forward (cfg : Config) (e : Env) (sid t : string) (uid : Z) :
  runs (keeps wired) (forward_to_session cfg e sid t uid).
Proof.
  intros c Hw. unfold forward_to_session, set_state, alter_session,
    send_session_end, pty_write, state_of. run_m.
  destruct (pty_processes c !! sid) as [p|] eqn:E; simpl.
  - destruct (isalive p) eqn:Ea; simpl.
    + wired_at Hw sid.
    + destruct (Dict.get sid (sessions c)) eqn:Es; simpl;
        [rewrite Es; simpl; rewrite DictFacts.get_set_eq; simpl |];
        wired_at Hw sid.
  - destruct (Dict.get sid (sessions c)) as [s|] eqn:Es; simpl; [| exact Hw].
    destruct (is_terminal (state s)); simpl; [| exact Hw].
    intros k Hk. simpl in *.
    assert (Hne : k <> sid) by (intros ->; rewrite E in Hk; now apply is_Some_None in Hk).
    destruct (Hw k Hk) as (? & ? & ?). repeat split; some_kept.
Qed.

Lemma wired_resolve (e : Env) (rid : string) (code uid : Z) :
  runs (keeps wired) (resolve_permission_request e rid code uid).
Proof.
  intros c Hw. unfold resolve_permission_request, pty_write, state_of. run_m.
  destruct (Dict.get rid (permission_requests c)) as [R|] eqn:ER; simpl;
    [| exact Hw].
  destruct (Dict.get (rq_session_id R) (sessions c)) eqn:Es; simpl;
    destruct (pty_processes c !! rq_session_id R) as [p|] eqn:Ep; simpl;
    try destruct (isalive p) eqn:Ea; simpl;
    destruct (pending_requests c !! rq_session_id R) as [q|] eqn:Eq; simpl;
    try destruct (list_remove rid q); simpl;
    wired_at Hw (rq_session_id R).
Qed.

Lemma wired_read_done (e : Env) (sid : string) :
  runs (keeps wired) (read_pty_output_done e sid).
Proof.
  intros c Hw. unfold keeps.
  destruct (Dict.get sid (sessions c)) as [s|] eqn:Es.
  - rewrite (EndFacts.read_done_run e sid c s Es). unfold state_of. simpl.
    wired_at Hw sid.
  - unfold read_pty_output_done, state_of. run_m. rewrite Es. exact Hw.
Qed.

Lemma wired_run (cfg : Config) (e : Env) (cmd dir : string)
    (env : list (string * string)) (spawned : option (Z * string)) :
  runs (keeps wired) (run_command cfg e cmd dir env spawned).
Proof.
  intros c Hw.
  unfold run_command, create_session, start_session, set_state, alter_session,
    send_session_start, send_state_change, send_session_end, state_of.
  destruct (negb (chat_set cfg)); [exact Hw |]. run_m.
  rewrite DictFacts.get_set_eq. simpl. rewrite DictFacts.get_set_eq. simpl.
  destruct spawned as [[p h]|]; simpl;
    repeat (rewrite DictFacts.get_set_eq; simpl);
    wired_at Hw (uuid4 e).
Qed.

Lemma push_pending_kept (sid rid k : string) (p : gmap string (list string)) :
  is_Some (p !! k) -> is_Some (push_pending sid rid p !! k).
Proof.
  intros H. unfold push_pending.
  destruct (p !! sid); apply lookup_insert_is_Some'; now right.
Qed.

Lemma wired_output (cfg : Config) (e : Env) (sid stream t : string) :
  runs (keeps wired) (handle_output_chunk cfg e sid stream t).
Proof.
  intros c Hw. unfold handle_output_chunk, _check_for_permission_prompt,
    send_permission_request, send_output_chunk, state_of.
  generalize (first_prompt Re.prompt_patterns
                (if STRIP_ANSI cfg then Ansi.strip_ansi t else t)).
  intros fp. run_m.
  destruct (Dict.get sid (sessions c)) eqn:Es; simpl; [| exact Hw].
  assert (Hpush : forall rid, wired (set_pending_requests
                                       (push_pending sid rid (pending_requests c)) c)).
  { intros rid k Hk. destruct (Hw k Hk) as (? & ? & ?). simpl.
    repeat split; try assumption. now apply push_pending_kept. }
  destruct (String.eqb stream "stdout"); simpl;
    [destruct fp; simpl; [destruct (can_send cfg c) eqn:Ec; simpl |] |];
    destruct (output_buffers c !! sid) eqn:Eb; simpl;
    repeat (split_match; simpl);
    try exact Hw;
    try (intros k Hk; simpl in *;
         first [ destruct (Hw k Hk) as (? & ? & ?)
               | destruct (Hpush (uuid4 e) k Hk) as (? & ? & ?) ];
         simpl in *; repeat split; some_kept;
         try (apply push_pending_kept; assumption)).
Qed.

End WiredFacts.

(** The handlers, down to the operations they call. *)
Ltac open_handlers :=
  unfold step, start_command, help_command, status_command, sessions_command,
    send_command, claim_command, release_command, cancel_command, keys_command,
    handle_reply, handle_permission_reply, timer_fired, flush_output,
    flush_output_send, flush_output_clear,
    send_output_chunk, send_ctrl_c, send_ctrl_d, send_session_start,
    send_state_change, send_session_end, guarded, reply_text.

(** Every operation keeps the object wired. *)
Lemma step_keeps_wired (cfg : Config) (e : Env) (o : Op) :
  runs (keeps wired) (step cfg e o).
Proof.
  destruct o; simpl step; open_handlers;
    runs_auto (RunFacts.keeps_refl wired) (RunFacts.keeps_trans wired)
      ltac:(fail)
      ltac:(first [ apply WiredFacts.wired_set_state
                  | apply WiredFacts.wired_alter
                  | apply WiredFacts.wired_send_key
                  | apply WiredFacts.wired_forward
                  | apply WiredFacts.wired_resolve
                  | apply WiredFacts.wired_run
                  | apply WiredFacts.wired_output
                  | apply WiredFacts.wired_read_done
                  | apply RunFacts.runs_emit; intros ? H; exact H
                  | apply RunFacts.runs_update; intros ? H;
                    first [ exact H
                          | let k := fresh "k" in
                            let Hk := fresh "Hk" in
                            intros k Hk; destruct (H k Hk) as (? & ? & ?);
                            simpl; repeat split; some_kept ] ]).
Qed.

Lemma reachable_wired (cfg : Config) (c : CLAUDE) : reachable cfg c -> wired c.
Proof.
  induction 1 as [b | c e o _ IH _].
  - intros sid Hk. simpl in Hk. rewrite lookup_empty in Hk.
    now apply is_Some_None in Hk.
  - now apply step_keeps_wired.
Qed.

(** A chunk for a registered session that has a buffer is accepted. *)
Lemma output_returns (cfg : Config) (e : Env) (sid stream t : string) (c : CLAUDE) :
  is_Some (Dict.get sid (sessions c)) -> is_Some (output_buffers c !! sid) ->
  outcome_of (handle_output_chunk cfg e sid stream t c) = Returns tt.
Proof.
  intros [s Hs] [chunks Hb].
  unfold handle_output_chunk, _check_for_permission_prompt,
    send_permission_request, send_output_chunk, outcome_of.
  generalize (first_prompt Re.prompt_patterns
                (if STRIP_ANSI cfg then Ansi.strip_ansi t else t)).
  intros fp. run_m. rewrite Hs. simpl.
  destruct (String.eqb stream "stdout"); simpl;
    [destruct fp; simpl; [destruct (can_send cfg c) eqn:Ec; simpl |] |];
    rewrite Hb; simpl; repeat (split_match; simpl); reflexivity.
Qed.

(** X30 — A process entry never stands alone.  In every state the object
    reaches from a fresh start, a session that has a process entry is
    registered and has its output buffer and its pending queue.  So the
    output its reader hands over while the entry is there is always
    accepted: [handle_output_chunk] returns, it does not fail on a
    missing session or buffer. *)
Theorem output_of_a_session_with_a_process_is_accepted (cfg : Config)
    (c : CLAUDE) (e : Env) (sid stream t : string) :
  reachable cfg c ->
  is_Some (pty_processes c !! sid) ->
  (is_Some (Dict.get sid (sessions c))
   /\ is_Some (output_buffers c !! sid)
   /\ is_Some (pending_requests c !! sid))
  /\ outcome_of (handle_output_chunk cfg e sid stream t c) = Returns tt.
Proof.
  intros Hreach Hp.
  destruct (reachable_wired cfg c Hreach sid Hp) as (Hs & Hb & Hq).
  split; [auto |]. now apply output_returns.
Qed.

Lemma output_of_a_session_with_a_process_is_accepted_witness :
  outcome_of
    (handle_output_chunk Samples.cfg0 Samples.env1 "s1" "stdout" "hello"
       (state_of (step Samples.cfg0 (mkEnv "s1" 10 "t0")
                    (OpRun "claude" "/work" [] (Some (4242, "pty1")))
                    (set_app true (__init__ [] [])))))
  = Returns tt.
Proof.
  apply (output_of_a_session_with_a_process_is_accepted Samples.cfg0).
  - apply reach_step; [apply reach_fresh | exact I].
  - eexists. reflexivity.
Defined.

(** * Routing, correlation and flushing in the words of the rules *)

Module RuleFacts.
Import PyStr TextFacts.

(** A match of a token pattern is a token the text carries. *)
Lemma search_token (tag rt w g : string) :
  Re.search (Re.Pattern tag (Re.not_char "]"%char) "]") rt = Some (w, g) ->
  holds_token tag g rt.
Proof.
  intros H. destruct (SearchFacts.search_sound _ _ _ _ H)
    as (pre & post & Hrt & Hw & Hne & Hcls).
  simpl in Hw. exists pre, post. subst w. rewrite Hrt.
  rewrite !append_assoc. auto.
Qed.

Lemma unbound_session (u : Update) : unbound u -> bound_session u = None.
Proof.
  unfold unbound, bound_session. intros H.
  destruct (reply_to_message u) as [[rt|]|]; try reflexivity.
  destruct (String.eqb rt EmptyString); [reflexivity |].
  unfold extract_session_id.
  destruct (Re.search Re.sid_token rt) as [[w g]|] eqn:E; [| reflexivity].
  destruct (H rt eq_refl g) as [Hs _]. exfalso. apply Hs.
  now apply (search_token "[SID:" rt w g).
Qed.

Lemma unbound_request (c : CLAUDE) (u : Update) :
  unbound u -> bound_request c u = None.
Proof.
  unfold unbound, bound_request. intros H.
  destruct (reply_to_message u) as [[rt|]|]; try reflexivity.
  destruct (negb (String.eqb rt EmptyString) && contains "Permission request" rt);
    [| reflexivity].
  unfold extract_request_id.
  destruct (Re.search Re.rid_token rt) as [[w g]|] eqn:E; [| reflexivity].
  destruct (H rt eq_refl g) as [_ Hr]. exfalso. apply Hr.
  now apply (search_token "[RID:" rt w g).
Qed.

Lemma is_active_states (s : Session) :
  is_active (state s) = true <-> state s = RUNNING \/ state s = WAITING_PERMISSION.
Proof.
  destruct (state s); simpl; split; intros H; try discriminate; auto;
    destruct H; discriminate.
Qed.

(** The list the routing block builds holds exactly the active
    sessions, each once. *)
Lemma active_sessions_in (c : CLAUDE) (sid : string) :
  NoDup (Dict.keys (sessions c)) ->
  In sid (active_sessions c) <-> is_active_session c sid.
Proof.
  intros Hnd. unfold active_sessions, is_active_session. split.
  - intros H. apply in_map_iff in H as ([k s] & <- & Hin).
    apply list_elem_of_In, list_elem_of_filter in Hin as [Hact Hin].
    exists s. split.
    + apply DictFacts.get_In_NoDup; [exact Hnd | now apply list_elem_of_In].
    + now apply is_active_states.
  - intros (s & Hget & Hst). apply in_map_iff. exists (sid, s). split; [reflexivity |].
    apply list_elem_of_In, list_elem_of_filter. split.
    + now apply is_active_states.
    + apply list_elem_of_In. now apply DictFacts.get_Some_in.
Qed.

Lemma NoDup_active (c : CLAUDE) :
  NoDup (Dict.keys (sessions c)) -> NoDup (active_sessions c).
Proof.
  unfold active_sessions, Dict.keys.
  induction (sessions c) as [|[k s] l IH]; simpl; intros Hnd; [constructor |].
  apply NoDup_cons in Hnd as [Hk Hnd].
  rewrite filter_cons. simpl. destruct (decide (is_active (state s) = true)).
  - simpl. apply NoDup_cons. split; [| now apply IH].
    intros Hin. apply Hk. apply list_elem_of_fmap in Hin as ([k' s'] & -> & Hin).
    apply list_elem_of_filter in Hin as [_ Hin].
    apply list_elem_of_fmap. now exists (k', s').
  - now apply IH.
Qed.

(** The three shapes of the list, in terms of the active sessions. *)
Lemma active_none (c : CLAUDE) :
  NoDup (Dict.keys (sessions c)) ->
  (forall sid, ~ is_active_session c sid) -> active_sessions c = [].
Proof.
  intros Hnd H. destruct (active_sessions c) as [|x l] eqn:E; [reflexivity |].
  exfalso. apply (H x), active_sessions_in; [exact Hnd |]. rewrite E. now left.
Qed.

Lemma active_one (c : CLAUDE) (sid : string) :
  NoDup (Dict.keys (sessions c)) ->
  is_active_session c sid ->
  (forall sid', is_active_session c sid' -> sid' = sid) ->
  active_sessions c = [sid].
Proof.
  intros Hnd Hin Huniq.
  pose proof (NoDup_active c Hnd) as Hnda.
  assert (Hall : forall x, In x (active_sessions c) -> x = sid).
  { intros x Hx. now apply Huniq, active_sessions_in. }
  apply active_sessions_in in Hin; [| exact Hnd].
  destruct (active_sessions c) as [|x [|y l]]; [destruct Hin | |].
  - f_equal. apply Hall. now left.
  - exfalso. apply NoDup_cons in Hnda as [Hx _]. apply Hx.
    rewrite (Hall x) by now left. rewrite (Hall y) by (right; now left).
    apply list_elem_of_here.
Qed.

Lemma active_many (c : CLAUDE) (sid1 sid2 : string) :
  NoDup (Dict.keys (sessions c)) ->
  is_active_session c sid1 -> is_active_session c sid2 -> sid1 <> sid2 ->
  exists x y l, active_sessions c = x :: y :: l.
Proof.
  intros Hnd H1 H2 Hne.
  apply active_sessions_in in H1; [| exact Hnd].
  apply active_sessions_in in H2; [| exact Hnd].
  destruct (active_sessions c) as [|x [|y l]]; [destruct H1 | | eauto].
  exfalso. destruct H1 as [<- | []]. destruct H2 as [<- | []]. now apply Hne.
Qed.

(** A registered session that is not in a final state and has no
    process: the text goes nowhere. *)
Lemma forward_without_process (cfg : Config) (e : Env) (sid t : string) (uid : Z)
    (c : CLAUDE) (s : Session) :
  pty_processes c !! sid = None ->
  Dict.get sid (sessions c) = Some s -> is_terminal (state s) = false ->
  forward_to_session cfg e sid t uid c = (Returns tt, c, []).
Proof.
  intros Hp Hs Ht. unfold forward_to_session. run_m. now rewrite Hp, Hs, Ht.
Qed.

(** The test of the loop, in the words of the rule. *)
Lemma eligible_answerable (c : CLAUDE) (n : Z) (rid : string)
    (R : PermissionRequest) :
  eligible c n rid R = true <-> answerable c n rid R.
Proof.
  unfold eligible, answerable, valid_options.
  rewrite !andb_true_iff, negb_true_iff. split.
  - intros [[Hq Hr] Ho]. split; [exact Hr |]. split.
    + apply existsb_exists in Ho as (x & Hx & Hn). apply Z.eqb_eq in Hn.
      now subst x.
    + destruct (pending_requests c !! rq_session_id R) as [q|]; [| discriminate].
      exists q. split; [reflexivity |].
      apply existsb_exists in Hq as (x & Hx & Hn). apply String.eqb_eq in Hn.
      now subst x.
  - intros (Hr & Ho & q & Hq & Hin). rewrite Hq. repeat split.
    + apply existsb_exists. exists rid. split; [exact Hin | apply String.eqb_refl].
    + exact Hr.
    + apply existsb_exists. exists n. split; [exact Ho | apply Z.eqb_refl].
Qed.

(** Assignment to a key on record keeps the place of the key. *)
Lemma set_in_place {V : Type} (pre post : list (string * V)) (k : string) (v w : V) :
  k ∉ Dict.keys pre ->
  Dict.set k w (pre ++ (k, v) :: post) = pre ++ (k, w) :: post.
Proof.
  induction pre as [|[k0 v0] pre IH]; simpl; intros Hk.
  - now rewrite String.eqb_refl.
  - apply not_elem_of_cons in Hk as [Hne Hk].
    destruct (String.eqb_spec k k0); [contradiction |]. now rewrite IH.
Qed.

Lemma key_not_before {V : Type} (pre post : list (string * V)) (k : string) (v : V) :
  NoDup (Dict.keys (pre ++ (k, v) :: post)) -> k ∉ Dict.keys pre.
Proof.
  unfold Dict.keys. rewrite map_app. simpl. intros H.
  apply NoDup_app in H as (_ & H & _). intros Hin. apply (H k Hin).
  apply list_elem_of_here.
Qed.

Lemma list_remove_first (k : string) (qa qb : list string) :
  ~ In k qa -> list_remove k (qa ++ k :: qb) = Some (qa ++ qb).
Proof.
  induction qa as [|x qa IH]; simpl; intros Hk.
  - now rewrite String.eqb_refl.
  - destruct (String.eqb_spec k x) as [-> | Hne]; [exfalso; apply Hk; now left |].
    rewrite IH; [reflexivity |]. intros H. apply Hk. now right.
Qed.

Lemma first_place (k : string) (q : list string) :
  In k q -> exists qa qb, q = qa ++ k :: qb /\ ~ In k qa.
Proof.
  intros H. apply list_elem_of_In, list_elem_of_split_l in H as (qa & qb & -> & Hk).
  exists qa, qb. split; [reflexivity |]. intros Hin. now apply Hk, list_elem_of_In.
Qed.

(** The whole of [resolve_permission_request] for a request on record
    that waits in the queue of its session. *)
Lemma resolve_queued (e : Env) (rid : string) (n uid : Z) (c : CLAUDE)
    (R : PermissionRequest) (qa qb : list string) :
  Dict.get rid (permission_requests c) = Some R ->
  pending_requests c !! rq_session_id R = Some (qa ++ rid :: qb) ->
  ~ In rid qa ->
  let ev := mkEvent "permission.resolve" (rq_session_id R) (str uid) EmptyString
              (now_iso e) 0 (Some (rid, n)) in
  resolve_permission_request e rid n uid c
  = (Returns tt,
     mkCLAUDE (sessions c)
       (Dict.set rid (decide_request n (str uid) (now e) R) (permission_requests c))
       (<[rq_session_id R := qa ++ qb]> (pending_requests c))
       (output_buffers c) (output_flush_timers c) (app c)
       (match Dict.get (rq_session_id R) (sessions c),
              pty_processes c !! rq_session_id R with
        | Some _, Some p =>
            if isalive p
            then <[rq_session_id R := mkPty true (written p ++ [Line (str n)])]>
                   (pty_processes c)
            else pty_processes c
        | _, _ => pty_processes c
        end)
       (claimed_sessions c) (telegram_message_map c)
       (audit_log c ++ [ev]),
     [SaveAudit ev]).
Proof.
  intros Hget Hq Hk ev. unfold resolve_permission_request. run_m.
  rewrite Hget. simpl.
  destruct (Dict.get (rq_session_id R) (sessions c)) as [s|];
    destruct (pty_processes c !! rq_session_id R) as [p|]; simpl;
    try (unfold pty_write; destruct (isalive p); simpl);
    rewrite Hq, (list_remove_first rid qa qb Hk); reflexivity.
Qed.







End RuleFacts.

(** ** C8: routing of free text *)

(** C8, as the claim states it, fails.  Operator 7 sends the text
    [hello], which answers no message, and has claimed no session; there
    is exactly one active session, [s1].  After a restart that has
    restored [s1] from [sessions.jsonl] the session has no process: the
    text is written nowhere, recorded nowhere and gets no answer.  When
    the child of [s1] has exited, the text is not written either: the
    session is set to FAILED and removed. *)
Lemma sole_active_session_may_drop_text :
  (is_active_session MoreSamples.restored_session "s1"
   /\ (forall sid, is_active_session MoreSamples.restored_session sid -> sid = "s1")
   /\ handle_reply Samples.cfg0 Samples.env1 (Samples.plain 7 "hello")
        MoreSamples.restored_session
      = (Returns tt, MoreSamples.restored_session, []))
  /\
  (is_active_session MoreSamples.dead_session "s1"
   /\ (forall sid, is_active_session MoreSamples.dead_session sid -> sid = "s1")
   /\ exists c',
        handle_reply Samples.cfg0 Samples.env1 (Samples.plain 7 "hello")
          MoreSamples.dead_session
        = (Returns tt, c',
           [StateSet "s1" RUNNING FAILED; Print "[SID:s1] Session ended"])
        /\ sessions c' = [] /\ pty_processes c' = ∅ /\ audit_log c' = []).
Proof.
  assert (Hone : forall (s : Session) sid,
            (exists s', Dict.get sid [("s1", s)] = Some s'
                        /\ (state s' = RUNNING \/ state s' = WAITING_PERMISSION)) ->
            sid = "s1").
  { intros s sid (s' & Hget & _). simpl in Hget.
    destruct (String.eqb_spec sid "s1"); [assumption | discriminate]. }
  split; [split; [| split] | split; [| split]].
  - eexists. split; [reflexivity |]. now left.
  - apply Hone.
  - reflexivity.
  - eexists. split; [reflexivity |]. now left.
  - apply Hone.
  - eexists. split; [reflexivity |]. repeat split.
Qed.

(** C8 — Routing of free text, amended.  An allowed operator sends a
    text that is not numeric, in a message with no reply-to binding, and
    has claimed no session.  With no active session the text is answered
    "No active sessions" and nothing else happens.  With exactly one
    active session the text is handed to that session: when the session
    has a process whose child is alive, the text is written as one line
    to its terminal and recorded as [input.forwarded]; when the child
    has exited, the text is dropped without an answer, and the session is
    set to FAILED, announced as ended and removed; when the session has
    no process, the text is dropped without an answer and nothing
    changes.  With two or more active sessions the text is answered
    "Multiple active sessions" and nothing else happens. *)
Theorem free_text_routing (cfg : Config) (e : Env) (u : Update) (c : CLAUDE) :
  is_authorized cfg (from_user u) = true ->
  NoDup (Dict.keys (sessions c)) ->
  PyStr.isdigit (text u) = false ->
  unbound u ->
  claimed_sessions c !! from_user u = None ->
  ((forall sid, ~ is_active_session c sid) ->
   handle_reply cfg e u c
   = (Returns tt, c,
      [ReplyText "No active sessions. Please start a session first."]))
  /\ (forall sid,
        is_active_session c sid ->
        (forall sid', is_active_session c sid' -> sid' = sid) ->
        match pty_processes c !! sid with
        | Some p =>
            if isalive p then
              let ev := mkEvent "input.forwarded" sid (PyStr.str (from_user u))
                          EmptyString (now_iso e) (PyStr.utf8_len (text u)) None in
              handle_reply cfg e u c
              = (Returns tt,
                 set_pty_processes
                   (<[sid := mkPty true (written p ++ [Line (text u)])]>
                      (pty_processes c))
                   (set_audit_log (audit_log c ++ [ev]) c),
                 [SaveAudit ev; Print ("[SID:" +:+ sid +:+ "] INPUT: " +:+ text u)])
            else
              exists s,
                Dict.get sid (sessions c) = Some s
                /\ handle_reply cfg e u c
                   = (Returns tt,
                      set_sessions (Dict.del sid (sessions c))
                        (set_pty_processes (delete sid (pty_processes c)) c),
                      [StateSet sid (state s) FAILED;
                       Print ("[SID:" +:+ sid +:+ "] Session ended")])
        | None => handle_reply cfg e u c = (Returns tt, c, [])
        end)
  /\ (forall sid1 sid2,
        is_active_session c sid1 -> is_active_session c sid2 -> sid1 <> sid2 ->
        handle_reply cfg e u c
        = (Returns tt, c,
           [ReplyText "Multiple active sessions. Please specify session ID or claim one."])).
Proof.
  intros Ha Hnd Hd Hu Hc.
  rewrite (BrokerFacts.handle_reply_route cfg e u c Ha
             (RuleFacts.unbound_request c u Hu) Hd
             (RuleFacts.unbound_session u Hu) Hc).
  split; [| split].
  - intros Hnone. now rewrite (RuleFacts.active_none c Hnd Hnone).
  - intros sid Hact Huniq. rewrite (RuleFacts.active_one c sid Hnd Hact Huniq).
    destruct Hact as (s & Hs & Hst).
    destruct (pty_processes c !! sid) as [p|] eqn:Hp.
    + destruct (isalive p) eqn:Hl.
      * exact (CommandFacts.forward_to_live_process cfg e sid (text u)
                 (from_user u) c p Hp Hl).
      * exists s. split; [exact Hs |].
        exact (CommandFacts.forward_to_dead_process cfg e sid (text u)
                 (from_user u) c s p Hs Hp Hl).
    + apply (RuleFacts.forward_without_process cfg e sid (text u) (from_user u) c s Hp Hs).
      destruct Hst as [-> | ->]; reflexivity.
  - intros sid1 sid2 H1 H2 Hne.
    destruct (RuleFacts.active_many c sid1 sid2 Hnd H1 H2 Hne) as (x & y & l & ->).
    reflexivity.
Qed.

Lemma free_text_routing_witness :
  handle_reply Samples.cfg0 Samples.env1 (Samples.plain 7 "hello") Samples.live
  = (Returns tt, Samples.live,
     [ReplyText "No active sessions. Please start a session first."])
  /\ (let ev := mkEvent "input.forwarded" "s1" "7" EmptyString "t1" 5 None in
      handle_reply Samples.cfg0 Samples.env1 (Samples.plain 7 "hello")
        Samples.one_session
      = (Returns tt,
         set_pty_processes
           (<["s1" := mkPty true [Line "hello"]]> (pty_processes Samples.one_session))
           (set_audit_log [ev] Samples.one_session),
         [SaveAudit ev; Print "[SID:s1] INPUT: hello"]))
  /\ handle_reply Samples.cfg0 Samples.env1 (Samples.plain 7 "hello")
       Samples.two_requests
     = (Returns tt, Samples.two_requests,
        [ReplyText "Multiple active sessions. Please specify session ID or claim one."]).
Proof.
  assert (Hu : unbound (Samples.plain 7 "hello")) by (intros rt H; discriminate).
  split; [| split].
  - refine (proj1 (free_text_routing Samples.cfg0 Samples.env1
                     (Samples.plain 7 "hello") Samples.live
                     eq_refl _ eq_refl Hu eq_refl) _).
    + constructor.
    + intros sid (s & H & _). discriminate.
  - refine (proj1 (proj2 (free_text_routing Samples.cfg0 Samples.env1
                            (Samples.plain 7 "hello") Samples.one_session
                            eq_refl _ eq_refl Hu eq_refl)) "s1" _ _).
    + apply (bool_decide_unpack _). vm_compute. exact I.
    + eexists. split; [reflexivity | now left].
    + intros sid (s & H & _). simpl in H.
      destruct (String.eqb_spec sid "s1"); [assumption | discriminate].
  - refine (proj2 (proj2 (free_text_routing Samples.cfg0 Samples.env1
                            (Samples.plain 7 "hello") Samples.two_requests
                            eq_refl _ eq_refl Hu eq_refl)) "s1" "s2" _ _ _).
    + apply (bool_decide_unpack _). vm_compute. exact I.
    + eexists. split; [reflexivity | now left].
    + eexists. split; [reflexivity | now left].
    + discriminate.
Defined.

(** ** C4: which request a numeric reply resolves *)

(** C4 — Decision correlation.  R1 and R2 are two requests on record,
    R1 created before R2; both are unresolved, wait in the queue of
    their session and offer the code [n], and no request created before
    R1 is such a request.  A bare reply [n] of an allowed operator
    resolves R1: R1 is marked resolved with the code, the operator and
    the time, and every other record, R2 among them, stays as it is; R1
    leaves its queue; the decision is recorded as [permission.resolve];
    the code is typed into the terminal of R1's session when that session
    is registered and its child is alive; the reply is remembered under
    R1; the operator gets no answer.  The same digits sent as a reply to
    the prompt of R2 resolve R2 in the same way and leave R1 as it is;
    the operator is answered that the decision is recorded. *)
Theorem decision_correlation (cfg : Config) (e : Env) (c : CLAUDE)
    (uid mid : Z) (digits : string) (n : Z)
    (pre between post : list (string * PermissionRequest))
    (r1 r2 : string) (R1 R2 : PermissionRequest) :
  is_authorized cfg uid = true ->
  PyStr.isdigit digits = true ->
  PyStr.int digits = Some n ->
  NoDup (Dict.keys (permission_requests c)) ->
  permission_requests c = pre ++ (r1, R1) :: between ++ (r2, R2) :: post ->
  (forall k r, In (k, r) pre -> ~ answerable c n k r) ->
  answerable c n r1 R1 ->
  answerable c n r2 R2 ->
  r2 <> EmptyString -> PyStr.all_chars (Re.not_char "]"%char) r2 = true ->
  let answered := fun R =>
    mkRequest (request_id R) (rq_session_id R) (category R) (summary R)
      (details R) (options R) (default R) (timeout_sec R) (created_at R)
      true (Some n) (Some (PyStr.str uid)) (Some (now e)) in
  let ev := fun rid R =>
    mkEvent "permission.resolve" (rq_session_id R) (PyStr.str uid) EmptyString
      (now_iso e) 0 (Some (rid, n)) in
  let typed := fun sid =>
    match Dict.get sid (sessions c), pty_processes c !! sid with
    | Some _, Some p =>
        if isalive p
        then <[sid := mkPty true (written p ++ [Line (PyStr.str n)])]> (pty_processes c)
        else pty_processes c
    | _, _ => pty_processes c
    end in
  (exists qa qb,
     pending_requests c !! rq_session_id R1 = Some (qa ++ r1 :: qb)
     /\ ~ In r1 qa
     /\ handle_reply cfg e (mkUpdate uid digits mid None) c
        = (Returns tt,
           mkCLAUDE (sessions c)
             (pre ++ (r1, answered R1) :: between ++ (r2, R2) :: post)
             (<[rq_session_id R1 := qa ++ qb]> (pending_requests c))
             (output_buffers c) (output_flush_timers c) (app c)
             (typed (rq_session_id R1)) (claimed_sessions c)
             (<[PyStr.str mid := r1]> (telegram_message_map c))
             (audit_log c ++ [ev r1 R1]),
           [SaveAudit (ev r1 R1)]))
  /\
  (exists qa qb,
     pending_requests c !! rq_session_id R2 = Some (qa ++ r2 :: qb)
     /\ ~ In r2 qa
     /\ handle_reply cfg e
          (mkUpdate uid digits mid
             (Some (Some (permission_prompt r2 (rq_session_id R2) (summary R2))))) c
        = (Returns tt,
           mkCLAUDE (sessions c)
             (pre ++ (r1, R1) :: between ++ (r2, answered R2) :: post)
             (<[rq_session_id R2 := qa ++ qb]> (pending_requests c))
             (output_buffers c) (output_flush_timers c) (app c)
             (typed (rq_session_id R2)) (claimed_sessions c)
             (telegram_message_map c)
             (audit_log c ++ [ev r2 R2]),
           [SaveAudit (ev r2 R2); ReplyText "Permission decision recorded"])).
Proof.
  intros Hauth Hdig Hint Hnd Hreq Hpre Ha1 Ha2 Hne2 Hchars answered ev typed.
  assert (Hg1 : Dict.get r1 (permission_requests c) = Some R1).
  { apply DictFacts.get_In_NoDup; [exact Hnd |]. rewrite Hreq.
    apply in_or_app. right. now left. }
  assert (Hg2 : Dict.get r2 (permission_requests c) = Some R2).
  { apply DictFacts.get_In_NoDup; [exact Hnd |]. rewrite Hreq.
    apply in_or_app. right. right. apply in_or_app. right. now left. }
  split.
  - (* the bare reply *)
    destruct Ha1 as (Hr1 & Ho1 & q & Hq & Hin).
    destruct (RuleFacts.first_place r1 q Hin) as (qa & qb & -> & Hk).
    exists qa, qb. split; [exact Hq |]. split; [exact Hk |].
    rewrite (BrokerFacts.handle_reply_bare cfg e (mkUpdate uid digits mid None) c n
               Hauth eq_refl Hdig Hint).
    assert (Hfe : first_eligible c n (permission_requests c) = Some r1).
    { rewrite Hreq. apply BrokerFacts.first_eligible_oldest.
      - intros k r Hkr. destruct (eligible c n k r) eqn:E; [| reflexivity].
        exfalso. apply (Hpre k r Hkr). now apply RuleFacts.eligible_answerable.
      - apply RuleFacts.eligible_answerable. split; [exact Hr1 |]. split; [exact Ho1 |].
        eauto. }
    rewrite Hfe. run_m.
    rewrite (RuleFacts.resolve_queued e r1 n uid c R1 qa qb Hg1 Hq Hk). simpl.
    rewrite Hreq at 1.
    rewrite RuleFacts.set_in_place
      by (rewrite Hreq in Hnd; exact (RuleFacts.key_not_before _ _ _ _ Hnd)).
    reflexivity.
  - (* the reply to the prompt of R2 *)
    destruct Ha2 as (Hr2 & Ho2 & q & Hq & Hin).
    destruct (RuleFacts.first_place r2 q Hin) as (qa & qb & -> & Hk).
    exists qa, qb. split; [exact Hq |]. split; [exact Hk |].
    rewrite (BrokerFacts.handle_reply_bound cfg e
               (mkUpdate uid digits mid
                  (Some (Some (permission_prompt r2 (rq_session_id R2) (summary R2)))))
               c r2 Hauth
               (BrokerFacts.bound_request_prompt c uid mid digits r2 _ _ R2
                  Hne2 Hchars Hg2)).
    simpl text. simpl from_user.
    rewrite (BrokerFacts.handle_permission_reply_digits e r2 uid digits n Hdig Hint).
    run_m.
    rewrite (RuleFacts.resolve_queued e r2 n uid c R2 qa qb Hg2 Hq Hk). simpl.
    rewrite Hreq at 1.
    replace (pre ++ (r1, R1) :: between ++ (r2, R2) :: post)
      with ((pre ++ (r1, R1) :: between) ++ (r2, R2) :: post)
      by (now rewrite <- app_assoc).
    rewrite RuleFacts.set_in_place.
    + rewrite <- app_assoc. reflexivity.
    + rewrite Hreq in Hnd.
      replace (pre ++ (r1, R1) :: between ++ (r2, R2) :: post)
        with ((pre ++ (r1, R1) :: between) ++ (r2, R2) :: post) in Hnd
        by (now rewrite <- app_assoc).
      exact (RuleFacts.key_not_before _ _ _ _ Hnd).
Qed.

Lemma decision_correlation_witness :
  let e := mkEnv "u" 2000 "t" in
  let bare := handle_reply Samples.cfg0 e (mkUpdate 7 "2" 500 None)
                Samples.two_requests in
  let bound :=
    handle_reply Samples.cfg0 e
      (mkUpdate 7 "2" 500
         (Some (Some (permission_prompt "r2" "s2" "Allow access to network?"))))
      Samples.two_requests in
  (permission_requests (state_of bare)
   = [("r1", mkRequest "r1" "s1" "filesystem" "Execute command rm x" None
               [(1, "Allow"); (2, "Allow once"); (3, "Deny")] 3 300 20
               true (Some 2) (Some "7") (Some 2000));
      ("r2", Samples.R2)]
   /\ pending_requests (state_of bare) !! "s1" = Some []
   /\ pending_requests (state_of bare) !! "s2" = Some ["r2"]
   /\ (written <$> pty_processes (state_of bare) !! "s1") = Some [Line "2"]
   /\ (written <$> pty_processes (state_of bare) !! "s2") = Some []
   /\ telegram_message_map (state_of bare) !! "500" = Some "r1"
   /\ trace_of bare
      = [SaveAudit (mkEvent "permission.resolve" "s1" "7" EmptyString "t" 0
                      (Some ("r1", 2)))])
  /\
  (permission_requests (state_of bound)
   = [("r1", Samples.R1);
      ("r2", mkRequest "r2" "s2" "filesystem" "Allow access to network?" None
               [(1, "Allow"); (2, "Allow once"); (3, "Deny")] 3 300 40
               true (Some 2) (Some "7") (Some 2000))]
   /\ pending_requests (state_of bound) !! "s1" = Some ["r1"]
   /\ pending_requests (state_of bound) !! "s2" = Some []
   /\ (written <$> pty_processes (state_of bound) !! "s1") = Some []
   /\ (written <$> pty_processes (state_of bound) !! "s2") = Some [Line "2"]
   /\ telegram_message_map (state_of bound) !! "500" = None
   /\ trace_of bound
      = [SaveAudit (mkEvent "permission.resolve" "s2" "7" EmptyString "t" 0
                      (Some ("r2", 2)));
         ReplyText "Permission decision recorded"]).
Proof.
  intros e bare bound.
  assert (Hsingle : forall (k : string) (qa qb : list string),
            Some [k] = Some (qa ++ k :: qb) -> qa = [] /\ qb = []).
  { intros k qa qb H. injection H as H. destruct qa as [|x [|y qa]]; simpl in H.
    - injection H as <-. now split.
    - discriminate.
    - discriminate. }
  destruct (decision_correlation Samples.cfg0 e Samples.two_requests 7 500 "2" 2
              [] [] [] "r1" "r2" Samples.R1 Samples.R2)
    as [(qa & qb & Hq & _ & Hb) (qa' & qb' & Hq' & _ & Hb')].
  - reflexivity.
  - reflexivity.
  - reflexivity.
  - apply (bool_decide_unpack _). vm_compute. exact I.
  - reflexivity.
  - intros k r [].
  - split; [reflexivity |]. split; [right; now left |].
    exists ["r1"]. split; [reflexivity | now left].
  - split; [reflexivity |]. split; [right; now left |].
    exists ["r2"]. split; [reflexivity | now left].
  - discriminate.
  - reflexivity.
  - destruct (Hsingle "r1" qa qb Hq) as [-> ->].
    destruct (Hsingle "r2" qa' qb' Hq') as [-> ->].
    assert (Hbare : bare = _) by exact Hb.
    assert (Hbound : bound = _) by exact Hb'.
    rewrite Hbare, Hbound. repeat split.
Defined.

(** ** C7: what a flush forwards *)


